(** * Strategy payoff and historical backtest engine

    A shallow embedding of [src/utils/strategyMath.ts] and
    [src/utils/backtest.ts], with the types of [src/types.ts] they use,
    the absolute-price variant of [generatePayoffData], the history
    parser of the API service, the backtest panel of the strategy
    simulator and the computations of the payoff chart.  JavaScript
    numbers are IEEE 754 binary64 values; they are modelled by Rocq's
    primitive [float], whose operations are specified by [SpecFloat].
    [Math.pow], which ECMAScript does not define bit for bit, and the
    [Date] constructor, whose calendar fields depend on the time zone of
    the host, are parameters. *)

From Stdlib Require Import ZArith List Bool Lia Floats Sorted Permutation.
From Stdlib Require Uint63 String.
Import ListNotations.
Import String.StringSyntax.
Delimit Scope string_scope with string.

Set Warnings "-inexact-float".

(** ** JavaScript numbers *)

Module JS.

Local Open Scope float_scope.

Definition number := float.

(** [ToBoolean] on a number: [0], [-0] and [NaN] are falsy. *)
Definition truthy (x : number) : bool := negb (is_nan x || is_zero x).

(** [v || d] where [v] is a number that may be [undefined]. *)
Definition or_default (v : option number) (d : number) : number :=
  match v with
  | Some x => if truthy x then x else d
  | None => d
  end.

(** [Number.isFinite]. *)
Definition isFinite (x : number) : bool := is_finite x.

(** [Math.max(a, b)]: [NaN] is contagious and [+0] is larger than [-0]. *)
Definition Math_max (a b : number) : number :=
  if is_nan a || is_nan b then nan
  else if a <? b then b
  else if b <? a then a
  else if get_sign a then b else a.

(** [Math.min(a, b)]: [NaN] is contagious and [-0] is smaller than [+0]. *)
Definition Math_min (a b : number) : number :=
  if is_nan a || is_nan b then nan
  else if a <? b then a
  else if b <? a then b
  else if get_sign a then a else b.

Definition Math_abs (a : number) : number := abs a.

(** The [SameValueZero] comparison of ECMAScript: numeric equality in
    which [NaN] equals itself (and [+0] equals [-0]). *)
Definition SameValueZero (x y : number) : bool :=
  (x =? y) || (is_nan x && is_nan y).

(** A whole number used as a loop index or a length, as a number. *)
Definition of_nat (n : nat) : number := of_uint63 (Uint63.of_Z (Z.of_nat n)).

(** The nearest number to the ratio [p / q] of two positive integers:
    the quotient of [SpecFloat], which rounds once, to nearest even. *)
Definition nearest_ratio (p q : positive) : number :=
  SF2Prim (SFdiv prec emax (S754_finite false p 0) (S754_finite false q 0)).

(** *** [Number.prototype.toFixed]

    The string that [x.toFixed(d)] returns is determined by, and
    determines, one of the following: the text of a non-finite value,
    the general [ToString] of a magnitude of at least [1e21], or a sign
    and the integer [n] whose decimal digits are printed with the point
    [d] places from the right. *)
Inductive fixed_string :=
| FixedNaN
| FixedInfinity (neg : bool)
| FixedLarge (neg : bool) (magnitude : number)
| FixedDigits (neg : bool) (n : Z).

(** The integer [n] for which [n / 10^d - x] is closest to zero, the
    larger one on a tie, for a finite [x >= 0] read as [m * 2^e]. *)
Definition scaled_round (d : nat) (x : number) : Z :=
  match Prim2SF x with
  | S754_finite _ m e =>
      let den := Z.pow 2 (Z.max (- e) 0) in
      let num := (Z.pos m * Z.pow 2 (Z.max e 0) * Z.pow 10 (Z.of_nat d))%Z in
      Z.div (2 * num + den) (2 * den)
  | _ => 0%Z
  end.

Definition toFixed (d : nat) (x : number) : fixed_string :=
  if is_nan x then FixedNaN
  else if is_infinity x then FixedInfinity (x <? 0)
  else
    let neg := x <? 0 in
    let ax := abs x in
    if 1e21 <=? ax then FixedLarge neg ax
    else FixedDigits neg (scaled_round d ax).

(** [Number(s)] for a string [s] produced by [toFixed(d)]. *)
Definition Number_of_fixed (d : nat) (s : fixed_string) : number :=
  match s with
  | FixedNaN => nan
  | FixedInfinity neg => if neg then neg_infinity else infinity
  | FixedLarge neg ax => if neg then - ax else ax
  | FixedDigits neg n =>
      let v := match n with
               | Z.pos p => nearest_ratio p (Pos.pow 10 (Pos.of_nat d))
               | _ => 0
               end in
      if neg then - v else v
  end.

Definition fixed_string_eqb (a b : fixed_string) : bool :=
  match a, b with
  | FixedNaN, FixedNaN => true
  | FixedInfinity s, FixedInfinity s' => Bool.eqb s s'
  | FixedLarge s x, FixedLarge s' x' => Bool.eqb s s' && PrimFloat.Leibniz.eqb x x'
  | FixedDigits s n, FixedDigits s' n' => Bool.eqb s s' && Z.eqb n n'
  | _, _ => false
  end.

(** [Number(x.toFixed(d))]. *)
Definition round_fixed (d : nat) (x : number) : number :=
  Number_of_fixed d (toFixed d x).

(** The remainder operator [x % y] on numbers: exact, with the sign of
    the dividend. *)
Definition rem (x y : number) : number :=
  if is_nan x || is_nan y || is_infinity x || is_zero y then nan
  else if is_infinity y || is_zero x then x
  else
    match Prim2SF x, Prim2SF y with
    | S754_finite sx mx ex, S754_finite _ my ey =>
        let e := Z.min ex ey in
        let X := (Z.pos mx * Z.pow 2 (ex - e))%Z in
        let Y := (Z.pos my * Z.pow 2 (ey - e))%Z in
        SF2Prim (binary_normalize prec emax (cond_Zopp sx (Z.rem X Y)) e sx)
    | _, _ => nan
    end.

(** [Array.prototype.sort(cmp)]: a stable sort; an element moves in
    front of another one only when the comparator is negative.  This is the
    result of every conforming engine when the comparator is consistent on
    the elements; that holds for [a - b] when no element is NaN and no two
    are the same infinity, and when all comparisons are ties.  When [a - b]
    returns NaN between some elements and orders others, the order that
    the engine leaves is its own, and this function stands for it only as a
    permutation of the elements. *)
Fixpoint insert_by (cmp : number -> number -> number) (x : number)
  (l : list number) : list number :=
  match l with
  | [] => [x]
  | y :: l' => if cmp x y <? 0 then x :: l else y :: insert_by cmp x l'
  end.

Definition Array_sort (cmp : number -> number -> number) (l : list number)
  : list number :=
  fold_left (fun acc x => insert_by cmp x acc) l [].

(** [Math.min(...l)] and [Math.max(...l)]. *)
Definition Math_min_list (l : list number) : number :=
  fold_left Math_min l infinity.

Definition Math_max_list (l : list number) : number :=
  fold_left Math_max l neg_infinity.

End JS.

(** ** Data model ([src/types.ts]) *)

Inductive Side := BUY | SELL.
Inductive LegInstrument := OPTION | UNDERLYING.
Inductive OptionType := CALL | PUT.

(** [StrategyLeg].  [type] and [strike] are optional in the source;
    [contractSize] is declared a number but is read through
    [contractSize || DEFAULT_CONTRACT_SIZE], so a leg restored without
    the field ([undefined]) is represented by [None]. *)
Record StrategyLeg := {
  id : String.string;
  instrument : LegInstrument;
  side : Side;
  type : option OptionType;
  strike : option JS.number;
  premium : JS.number;
  quantity : JS.number;
  symbol : String.string;
  contractSize : option JS.number
}.

Definition Side_eqb (a b : Side) : bool :=
  match a, b with BUY, BUY | SELL, SELL => true | _, _ => false end.

Module PayoffData.
Record t := { movePct : JS.number; profit : JS.number }.
End PayoffData.

(** [number | 'Unlimited']. *)
Inductive NumberOrUnlimited := Num (x : JS.number) | Unlimited.

Module StrategyStats.
Record t := {
  maxProfit : NumberOrUnlimited;
  maxLoss : NumberOrUnlimited;
  breakEvens : list JS.number;
  netPremium : JS.number;
  capitalAtRisk : option JS.number;
  maxProfitPct : option JS.number;
  maxLossPct : option JS.number;
  spotPnl : JS.number
}.
End StrategyStats.

(** ** Leg payoff, payoff curve and statistics ([src/utils/strategyMath.ts]) *)

Module StrategyMath.

Local Open Scope float_scope.

Definition DEFAULT_CONTRACT_SIZE : JS.number := 100.

Definition calculateLegPayoff (leg : StrategyLeg) (underlyingPrice : JS.number)
  : JS.number :=
  let multiplier := JS.or_default (contractSize leg) DEFAULT_CONTRACT_SIZE in
  match instrument leg with
  | UNDERLYING =>
      let move := underlyingPrice - premium leg in
      let pnl := if Side_eqb (side leg) BUY then move else - move in
      pnl * quantity leg * multiplier
  | OPTION =>
      match type leg, strike leg with
      | Some ty, Some k =>
          let pnl :=
            match ty with
            | CALL => JS.Math_max 0 (underlyingPrice - k) - premium leg
            | PUT => JS.Math_max 0 (k - underlyingPrice) - premium leg
            end in
          let pnl := if Side_eqb (side leg) SELL then - pnl else pnl in
          pnl * quantity leg * multiplier
      | _, _ => 0
      end
  end.

Definition PAYOFF_RANGE_PCT : JS.number := 40.
Definition PAYOFF_POINTS : nat := 320.

Definition generatePayoffData (legs : list StrategyLeg) (currentPrice : JS.number)
  : list PayoffData.t :=
  if (length legs =? 0)%nat || negb (JS.isFinite currentPrice) || (currentPrice <=? 0)
  then []
  else
    let startPct := - PAYOFF_RANGE_PCT in
    let endPct := PAYOFF_RANGE_PCT in
    let span := endPct - startPct in
    let step := span / JS.of_nat PAYOFF_POINTS in
    map (fun i =>
           let movePct := startPct + step * JS.of_nat i in
           let price := currentPrice * (1 + movePct / 100) in
           let totalProfit :=
             fold_left (fun acc leg => acc + calculateLegPayoff leg price) legs 0 in
           {| PayoffData.movePct := JS.round_fixed 4 movePct;
              PayoffData.profit := JS.round_fixed 4 totalProfit |})
        (seq 0 (S PAYOFF_POINTS)).

(** The test of the break-even loop on two consecutive samples. *)
Definition crosses (left right : PayoffData.t) : bool :=
  ((PayoffData.profit left <=? 0) && (0 <? PayoffData.profit right))
  || ((0 <=? PayoffData.profit left) && (PayoffData.profit right <? 0)).

(** The candidate the loop computes at a crossing, before it is rounded. *)
Definition crossingMove (left right : PayoffData.t) : JS.number :=
  let delta := PayoffData.profit right - PayoffData.profit left in
  let t := if negb (delta =? 0) then (0 - PayoffData.profit left) / delta else 0 in
  PayoffData.movePct left + t * (PayoffData.movePct right - PayoffData.movePct left).

Definition Set_has (key : JS.fixed_string) (keys : list JS.fixed_string) : bool :=
  existsb (JS.fixed_string_eqb key) keys.

(** The break-even loop, with its two accumulators [breakEvenKeys] and
    [breakEvens]. *)
Fixpoint scanBreakEvens (payoffData : list PayoffData.t)
  (breakEvenKeys : list JS.fixed_string) (breakEvens : list JS.number)
  : list JS.number :=
  match payoffData with
  | l :: ((r :: _) as rest) =>
      if crosses l r then
        let movePct := crossingMove l r in
        let rounded := JS.round_fixed 4 movePct in
        let key := JS.toFixed 4 rounded in
        if negb (Set_has key breakEvenKeys)
        then scanBreakEvens rest (key :: breakEvenKeys) (breakEvens ++ [rounded])
        else scanBreakEvens rest breakEvenKeys breakEvens
      else scanBreakEvens rest breakEvenKeys breakEvens
  | _ => breakEvens
  end.

Definition findBreakEvens (payoffData : list PayoffData.t) : list JS.number :=
  JS.Array_sort (fun a b => a - b) (scanBreakEvens payoffData [] []).

Definition netPremiumOf (legs : list StrategyLeg) : JS.number :=
  fold_left
    (fun acc leg =>
       let multiplier := JS.or_default (contractSize leg) DEFAULT_CONTRACT_SIZE in
       let legPremium := premium leg * quantity leg * multiplier in
       acc + (if Side_eqb (side leg) SELL then legPremium else - legPremium))
    legs 0.

Definition calculateStrategyStats (legs : list StrategyLeg)
  (payoffData : list PayoffData.t) (currentPrice : JS.number) : StrategyStats.t :=
  match payoffData with
  | [] =>
      {| StrategyStats.maxProfit := Num 0;
         StrategyStats.maxLoss := Num 0;
         StrategyStats.breakEvens := [];
         StrategyStats.netPremium := 0;
         StrategyStats.capitalAtRisk := None;
         StrategyStats.maxProfitPct := None;
         StrategyStats.maxLossPct := None;
         StrategyStats.spotPnl := 0 |}
  | d0 :: _ =>
      let profits := map PayoffData.profit payoffData in
      let minProfit := JS.Math_min_list profits in
      let maxProfitVal := JS.Math_max_list profits in
      let first := PayoffData.profit d0 in
      let last := List.last profits first in
      let prev :=
        if (length profits <? 2)%nat then last
        else nth (length profits - 2) profits last in
      let second := nth 1 profits first in
      let leftSlope := second - first in
      let rightSlope := last - prev in
      let isMaxProfitUnlimited := (0 <? rightSlope) && (10000 <? last) in
      let isMaxLossUnlimited :=
        ((0 <? leftSlope) && (first <? -10000))
        || ((rightSlope <? 0) && (last <? -10000)) in
      let breakEvens := findBreakEvens payoffData in
      let netPremium := netPremiumOf legs in
      let spotPnl :=
        fold_left (fun acc leg => acc + calculateLegPayoff leg currentPrice) legs 0 in
      let maxProfit := if isMaxProfitUnlimited then Unlimited else Num maxProfitVal in
      let maxLoss :=
        if isMaxLossUnlimited then Unlimited else Num (JS.Math_abs minProfit) in
      let capitalAtRisk :=
        if netPremium <? 0 then Some (JS.Math_abs netPremium)
        else match maxLoss with Num x => Some x | Unlimited => None end in
      let usable :=
        match capitalAtRisk with
        | Some c => if JS.truthy c && (0 <? c) then Some c else None
        | None => None
        end in
      let maxProfitPct :=
        match maxProfit, usable with
        | Num x, Some c => Some (x / c * 100)
        | _, _ => None
        end in
      let maxLossPct :=
        match maxLoss, usable with
        | Num x, Some c => Some ((- x) / c * 100)
        | _, _ => None
        end in
      {| StrategyStats.maxProfit := maxProfit;
         StrategyStats.maxLoss := maxLoss;
         StrategyStats.breakEvens := breakEvens;
         StrategyStats.netPremium := netPremium;
         StrategyStats.capitalAtRisk := capitalAtRisk;
         StrategyStats.maxProfitPct := maxProfitPct;
         StrategyStats.maxLossPct := maxLossPct;
         StrategyStats.spotPnl := spotPnl |}
  end.

End StrategyMath.

(** ** The absolute-price payoff sweep (the other [generatePayoffData] of the
    repository, whose samples carry a price instead of a percentage move) *)

Module AbsolutePriceSweep.

Local Open Scope float_scope.

Module PayoffData.
Record t := { price : JS.number; profit : JS.number }.
End PayoffData.

Definition LegInstrument_eqb (a b : LegInstrument) : bool :=
  match a, b with OPTION, OPTION | UNDERLYING, UNDERLYING => true | _, _ => false end.

(** [.map(leg => leg.strike).filter(typeof val === 'number' && isFinite)]. *)
Definition finiteStrikes (legs : list StrategyLeg) : list JS.number :=
  flat_map (fun leg =>
              match strike leg with
              | Some k => if JS.isFinite k then [k] else []
              | None => []
              end) legs.

(** The local [referencePoints] of [generatePayoffData]. *)
Definition referencePointsOf (legs : list StrategyLeg) (currentPrice : JS.number)
  : list JS.number :=
  let optionStrikes :=
    finiteStrikes (filter (fun leg => LegInstrument_eqb (instrument leg) OPTION) legs) in
  let underlyingEntries :=
    filter JS.isFinite
      (map premium
         (filter (fun leg => LegInstrument_eqb (instrument leg) UNDERLYING) legs)) in
  filter (fun val => JS.isFinite val && (0 <? val))
    (currentPrice :: optionStrikes ++ underlyingEntries).

Definition generatePayoffData (legs : list StrategyLeg) (currentPrice : JS.number)
  : list PayoffData.t :=
  if (length legs =? 0)%nat then []
  else
    let referencePoints := referencePointsOf legs currentPrice in
    if (length referencePoints =? 0)%nat then []
    else
      let minStrike := JS.Math_min_list referencePoints in
      let maxStrike := JS.Math_max_list referencePoints in
      let range := maxStrike - minStrike in
      let buffer :=
        if JS.truthy (range * 0.5) then range * 0.5
        else if JS.truthy (maxStrike * 0.2) then maxStrike * 0.2
        else 1 in
      let start := JS.Math_max 0 (minStrike - buffer) in
      let end_ := maxStrike + buffer in
      let points := 320%nat in
      let span := end_ - start in
      let step := span / JS.of_nat points in
      map (fun i =>
             let p := start + step * JS.of_nat i in
             let totalProfit :=
               fold_left
                 (fun acc leg => acc + StrategyMath.calculateLegPayoff leg p) legs 0 in
             {| PayoffData.price := JS.round_fixed 4 p;
                PayoffData.profit := JS.round_fixed 4 totalProfit |})
          (seq 0 (S points)).

End AbsolutePriceSweep.


(** ** Backtest ([src/utils/backtest.ts]) *)

(** A [Date], through the three methods the backtest calls. *)
Module Date.
Record t := { getFullYear : Z; getMonth : Z; getTime : JS.number }.
End Date.

Module HistoryPoint.
Record t := { time : Date.t; close : JS.number; returnPct : option JS.number }.
End HistoryPoint.

Module PayoffCurve.
Record t := {
  basePrice : JS.number;
  variations : list JS.number;
  returns : list JS.number
}.
End PayoffCurve.

Inductive BacktestFrequency := WEEKLY | MONTHLY.

Module BacktestRow.
Record t := {
  time : Date.t;
  assetReturn : JS.number;
  strategyReturn : JS.number;
  profit : JS.number;
  withdrawal : JS.number;
  investment : JS.number;
  capital : JS.number;
  lossEvent : bool
}.
End BacktestRow.

Module ChartPoint.
Record t := {
  time : JS.number;
  assetReturn : JS.number;
  strategyReturn : JS.number;
  size : JS.number
}.
End ChartPoint.

Module EquityPoint.
Record t := {
  time : JS.number;
  capitalWith : JS.number;
  capitalWithout : JS.number
}.
End EquityPoint.

Module BacktestMetrics.
Record t := {
  initialCapital : JS.number;
  finalCapitalNoWithdrawal : JS.number;
  finalCapitalWithWithdrawal : JS.number;
  totalProfitPct : JS.number;
  avgMonthlyProfit : JS.number;
  monthlyEquivalentRate : JS.number;
  profitWithWithdrawalPct : JS.number;
  monthlyRateWithWithdrawal : JS.number;
  monthlyIrr : JS.number;
  wins : nat;
  losses : nat
}.
End BacktestMetrics.

Module Chart.
Record t := { points : list ChartPoint.t; equity : list EquityPoint.t }.
End Chart.

Module BacktestResult.
Record t := {
  rows : list BacktestRow.t;
  chart : Chart.t;
  metrics : BacktestMetrics.t
}.
End BacktestResult.

Module BacktestInput.
Record t := {
  history : list HistoryPoint.t;
  payoff : PayoffCurve.t;
  baseCapital : JS.number;
  monthlyWithdrawal : JS.number;
  monthlyInvestment : option JS.number;
  applyLosses : bool;
  frequency : BacktestFrequency
}.
End BacktestInput.

Module Backtest.

Local Open Scope float_scope.

Definition DEFAULT_CONTRACT_SIZE : JS.number := 100.
Definition WEEKLY_PERIODS_PER_MONTH : JS.number := 4.33.

Definition calculateStrategyCost (legs : list StrategyLeg) : JS.number :=
  fold_left
    (fun acc leg =>
       let multiplier := JS.or_default (contractSize leg) DEFAULT_CONTRACT_SIZE in
       let legPremium := premium leg * quantity leg * multiplier in
       acc + (if Side_eqb (side leg) SELL then legPremium else - legPremium))
    legs 0.

(** [buildPayoffCurve(legs, basePrice, rangePct = 0.3, points = 250)]; an
    omitted argument is [None], and [points] is a whole number. *)
Definition buildPayoffCurve (legs : list StrategyLeg) (basePrice : JS.number)
  (rangePct_arg : option JS.number) (points_arg : option nat) : PayoffCurve.t :=
  let rangePct := match rangePct_arg with Some r => r | None => 0.3 end in
  let points := match points_arg with Some n => n | None => 250%nat end in
  if (length legs =? 0)%nat || negb (JS.isFinite basePrice) || (basePrice <=? 0)
  then {| PayoffCurve.basePrice := basePrice;
          PayoffCurve.variations := [];
          PayoffCurve.returns := [] |}
  else
    let step := (rangePct * 2) / JS.Math_max 1 (JS.of_nat points - 1) in
    let sample := fun i =>
      let variation := - rangePct + step * JS.of_nat i in
      let price := basePrice * (1 + variation) in
      let profit :=
        fold_left
          (fun acc leg => acc + StrategyMath.calculateLegPayoff leg price) legs 0 in
      (JS.round_fixed 6 variation, JS.round_fixed 4 profit) in
    let samples := map sample (seq 0 points) in
    {| PayoffCurve.basePrice := basePrice;
       PayoffCurve.variations := map fst samples;
       PayoffCurve.returns := map snd samples |}.

Definition deriveBaseCapital (strategyCost : JS.number)
  (payoffReturns : list JS.number) : JS.number :=
  let costAbs := JS.Math_abs strategyCost in
  if (length payoffReturns =? 0)%nat then costAbs
  else
    let minPayoff := JS.Math_min_list payoffReturns in
    if 0 <? strategyCost then
      let risk := JS.Math_abs (JS.Math_min 0 minPayoff) in
      if 0 <? risk then risk else costAbs
    else if 0 <? costAbs then costAbs
    else JS.Math_abs minPayoff.

(** An array read; a missing element is [undefined], which is [NaN] in
    the arithmetic and the comparisons that follow. *)
Definition at_ (xs : list JS.number) (i : Z) : JS.number :=
  if (i <? 0)%Z then nan else nth (Z.to_nat i) xs nan.

(** The binary search of [linearInterpolate]: [inl y] when the loop returns
    [ys[mid]], [inr right] when it ends.  Each round shrinks the interval
    [left..right], so as many rounds as the interval has indices let the
    loop finish ([searchLoop_finishes] below). *)
Fixpoint searchLoop (fuel : nat) (x : JS.number) (xs ys : list JS.number)
  (left right : Z) : JS.number + Z :=
  match fuel with
  | O => inr right
  | S fuel' =>
      if (left <=? right)%Z then
        let mid := ((left + right) / 2)%Z in
        if at_ xs mid =? x then inl (at_ ys mid)
        else if at_ xs mid <? x then searchLoop fuel' x xs ys (mid + 1)%Z right
        else searchLoop fuel' x xs ys left (mid - 1)%Z
      else inr right
  end.

Definition linearInterpolate (x : JS.number) (xs ys : list JS.number) : JS.number :=
  if (length xs =? 0)%nat || negb (length xs =? length ys)%nat then 0
  else if x <=? at_ xs 0 then at_ ys 0
  else if at_ xs (Z.of_nat (length xs) - 1) <=? x then at_ ys (Z.of_nat (length ys) - 1)
  else
    match searchLoop (S (length xs)) x xs ys 0 (Z.of_nat (length xs) - 1) with
    | inl y => y
    | inr hi =>
        let idx := Z.max 0 hi in
        let x0 := at_ xs idx in
        let x1 := at_ xs (idx + 1) in
        let y0 := at_ ys idx in
        let y1 := at_ ys (idx + 1) in
        if x1 =? x0 then y0
        else
          let t := (x - x0) / (x1 - x0) in
          y0 + t * (y1 - y0)
    end.

Definition periodsPerMonth (frequency : BacktestFrequency) : JS.number :=
  match frequency with WEEKLY => WEEKLY_PERIODS_PER_MONTH | MONTHLY => 1 end.

Section WithMathPow.

(** [Math.pow], which ECMAScript leaves to the implementation to
    approximate. *)
Variable Math_pow : JS.number -> JS.number -> JS.number.

(** *** The IRR solver *)

(** [cashFlows.reduce((acc, cf, idx) => ..., 0)] with the index made
    explicit. *)
Fixpoint reduce_indexed {A : Type} (f : A -> JS.number -> nat -> A)
  (l : list JS.number) (idx : nat) (acc : A) : A :=
  match l with
  | [] => acc
  | cf :: l' => reduce_indexed f l' (S idx) (f acc cf idx)
  end.

Definition npv (cashFlows : list JS.number) (rate : JS.number) : JS.number :=
  if rate <=? -0.999999 then infinity
  else
    reduce_indexed
      (fun acc cf idx => acc + cf / Math_pow (1 + rate) (JS.of_nat idx))
      cashFlows 0%nat 0.

(** The inner loop of a Newton iteration: [(npvVal, dNpv)]. *)
Definition newtonSums (cashFlows : list JS.number) (rate : JS.number)
  : JS.number * JS.number :=
  reduce_indexed
    (fun '(npvVal, dNpv) cf t =>
       let denom := Math_pow (1 + rate) (JS.of_nat t) in
       let npvVal := npvVal + cf / denom in
       let dNpv :=
         if (0 <? t)%nat
         then dNpv - (JS.of_nat t * cf) / (denom * (1 + rate))
         else dNpv in
       (npvVal, dNpv))
    cashFlows 0%nat (0, 0).

(** The Newton loop with [iterations] rounds left: [Some rate] when it
    returns, [None] when it breaks or runs out of rounds. *)
Fixpoint newtonLoop (cashFlows : list JS.number) (iterations : nat)
  (rate : JS.number) : option JS.number :=
  match iterations with
  | O => None
  | S iterations' =>
      let '(npvVal, dNpv) := newtonSums cashFlows rate in
      if JS.Math_abs npvVal <? 1e-7 then Some rate
      else if negb (JS.isFinite dNpv) || (dNpv =? 0) then None
      else
        let next := rate - npvVal / dNpv in
        if negb (JS.isFinite next) || (next <=? -0.999) then None
        else newtonLoop cashFlows iterations' next
  end.

(** The bisection loop with [iterations] rounds left. *)
Fixpoint bisectLoop (cashFlows : list JS.number) (iterations : nat)
  (low high npvLow npvHigh : JS.number) : JS.number :=
  match iterations with
  | O => (low + high) / 2
  | S iterations' =>
      let mid := (low + high) / 2 in
      let npvMid := npv cashFlows mid in
      if JS.Math_abs npvMid <? 1e-7 then mid
      else if npvLow * npvMid <? 0
           then bisectLoop cashFlows iterations' low mid npvLow npvMid
           else bisectLoop cashFlows iterations' mid high npvMid npvHigh
  end.

(** The bisection phase: [None] when the net present value is not finite
    at a bound or has the same sign at both. *)
Definition bisection (cashFlows : list JS.number) : option JS.number :=
  let low := -0.999 in
  let high := 10 in
  let npvLow := npv cashFlows low in
  let npvHigh := npv cashFlows high in
  if negb (JS.isFinite npvLow) || negb (JS.isFinite npvHigh) || (0 <? npvLow * npvHigh)
  then None
  else Some (bisectLoop cashFlows 120 low high npvLow npvHigh).

(** [null] is [None]. *)
Definition calculateIrr (cashFlows : list JS.number) : option JS.number :=
  if (length cashFlows <? 2)%nat then None
  else
    match newtonLoop cashFlows 60 0.1 with
    | Some rate => Some rate
    | None => bisection cashFlows
    end.

(** *** The simulation loop *)

(** The variables that the [history.forEach] callback reads and writes. *)
Record LoopState := {
  rows : list BacktestRow.t;
  chartPoints : list ChartPoint.t;
  equityPoints : list EquityPoint.t;
  capitalWith : JS.number;
  capitalWithout : JS.number;
  firstPeriod : bool;
  lossBaseYear : option Z;
  lossBaseMonth : option Z;
  lossMonths : list Z;
  wins : nat;
  losses : nat
}.

Definition initialState (safeCapital : JS.number) : LoopState :=
  {| rows := []; chartPoints := []; equityPoints := [];
     capitalWith := safeCapital; capitalWithout := safeCapital;
     firstPeriod := true;
     lossBaseYear := None; lossBaseMonth := None; lossMonths := [];
     wins := 0; losses := 0 |}.

(** [assetReturn === null || !Number.isFinite(assetReturn)] fails. *)
Definition definedReturn (point : HistoryPoint.t) : option JS.number :=
  match HistoryPoint.returnPct point with
  | Some r => if JS.isFinite r then Some r else None
  | None => None
  end.

Definition Set_has (m : Z) (s : list Z) : bool := existsb (Z.eqb m) s.

(** The [monthsElapsed] of a period. *)
Definition monthsElapsedSince (lossBaseYear lossBaseMonth : Z) (date : Date.t) : Z :=
  ((Date.getFullYear date - lossBaseYear) * 12
   + (Date.getMonth date + 1 - lossBaseMonth) + 1)%Z.

(** The [strategyReturnPct] of a period. *)
Definition strategyReturnPctOf (payoff : PayoffCurve.t) (safeCapital : JS.number)
  (assetReturn : JS.number) : JS.number :=
  let strategyReturnBrl :=
    linearInterpolate assetReturn
      (PayoffCurve.variations payoff) (PayoffCurve.returns payoff) in
  if 0 <? safeCapital then strategyReturnBrl / safeCapital else 0.

(** The synthetic-loss block of a period: [(lossPct, lossEvent, lossMonths)]. *)
Definition syntheticLoss (applyLosses : bool) (lossBaseYear lossBaseMonth : option Z)
  (lossMonths : list Z) (date : Date.t) : JS.number * bool * list Z :=
  match applyLosses, lossBaseYear, lossBaseMonth with
  | true, Some baseYear, Some baseMonth =>
      let monthsElapsed := monthsElapsedSince baseYear baseMonth date in
      if (0 <? monthsElapsed)%Z && negb (Set_has monthsElapsed lossMonths) then
        let lossPct := 0 in
        let lossPct := if (Z.rem monthsElapsed 6 =? 0)%Z then lossPct + 0.02 else lossPct in
        let lossPct := if (Z.rem monthsElapsed 10 =? 0)%Z then lossPct + 0.09 else lossPct in
        if 0 <? lossPct
        then (JS.Math_min lossPct 0.99, true, monthsElapsed :: lossMonths)
        else (lossPct, false, lossMonths)
      else (0, false, lossMonths)
  | _, _, _ => (0, false, lossMonths)
  end.

(** [lossBaseYear] and [lossBaseMonth] after the first statement of the
    callback, which sets them when losses are on and they are still null. *)
Definition lossClockOrigin (applyLosses : bool) (st : LoopState) (date : Date.t)
  : option Z * option Z :=
  match applyLosses, lossBaseYear st with
  | true, None => (Some (Date.getFullYear date), Some (Date.getMonth date + 1)%Z)
  | _, _ => (lossBaseYear st, lossBaseMonth st)
  end.

(** The callback of [history.forEach]. *)
Definition period (applyLosses : bool) (payoff : PayoffCurve.t)
  (safeCapital periodWithdrawal periodInvestment : JS.number)
  (st : LoopState) (point : HistoryPoint.t) : LoopState :=
  let date := HistoryPoint.time point in
  let '(baseYear, baseMonth) := lossClockOrigin applyLosses st date in
  match definedReturn point with
  | None =>
      if firstPeriod st then
        {| rows := rows st ++
             [ {| BacktestRow.time := date;
                  BacktestRow.assetReturn := 0;
                  BacktestRow.strategyReturn := 0;
                  BacktestRow.profit := 0;
                  BacktestRow.withdrawal := 0;
                  BacktestRow.investment := 0;
                  BacktestRow.capital := capitalWith st;
                  BacktestRow.lossEvent := false |} ];
           chartPoints := chartPoints st ++
             [ {| ChartPoint.time := Date.getTime date;
                  ChartPoint.assetReturn := 0;
                  ChartPoint.strategyReturn := 0;
                  ChartPoint.size := 4 |} ];
           equityPoints := equityPoints st ++
             [ {| EquityPoint.time := Date.getTime date;
                  EquityPoint.capitalWith := capitalWith st;
                  EquityPoint.capitalWithout := capitalWithout st |} ];
           capitalWith := capitalWith st;
           capitalWithout := capitalWithout st;
           firstPeriod := false;
           lossBaseYear := baseYear; lossBaseMonth := baseMonth;
           lossMonths := lossMonths st;
           wins := wins st; losses := losses st |}
      else
        {| rows := rows st; chartPoints := chartPoints st;
           equityPoints := equityPoints st;
           capitalWith := capitalWith st; capitalWithout := capitalWithout st;
           firstPeriod := firstPeriod st;
           lossBaseYear := baseYear; lossBaseMonth := baseMonth;
           lossMonths := lossMonths st;
           wins := wins st; losses := losses st |}
  | Some assetReturn =>
      let strategyReturnPct := strategyReturnPctOf payoff safeCapital assetReturn in
      let prevWithout := capitalWithout st in
      let prevWith := capitalWith st in
      let capitalWithout1 := prevWithout * (1 + strategyReturnPct) in
      let capitalWith1 := prevWith * (1 + strategyReturnPct) in
      let '(lossPct, lossEvent, lossMonths') :=
        syntheticLoss applyLosses baseYear baseMonth (lossMonths st) date in
      let capitalWithout2 :=
        if 0 <? lossPct then capitalWithout1 * (1 - lossPct) else capitalWithout1 in
      let capitalWith2 :=
        if 0 <? lossPct then capitalWith1 * (1 - lossPct) else capitalWith1 in
      let profitWithout := capitalWithout2 - prevWithout in
      let capitalWith3 := capitalWith2 - periodWithdrawal + periodInvestment in
      let effectiveReturn :=
        if negb (prevWithout =? 0) then profitWithout / prevWithout else 0 in
      let bubbleSize := JS.Math_min 16 (4 + JS.Math_abs (effectiveReturn * 100) * 0.6) in
      {| rows := rows st ++
           [ {| BacktestRow.time := date;
                BacktestRow.assetReturn := assetReturn;
                BacktestRow.strategyReturn := effectiveReturn;
                BacktestRow.profit := profitWithout;
                BacktestRow.withdrawal := periodWithdrawal;
                BacktestRow.investment := periodInvestment;
                BacktestRow.capital := capitalWith3;
                BacktestRow.lossEvent := lossEvent |} ];
         chartPoints := chartPoints st ++
           [ {| ChartPoint.time := Date.getTime date;
                ChartPoint.assetReturn := assetReturn;
                ChartPoint.strategyReturn := effectiveReturn;
                ChartPoint.size := bubbleSize |} ];
         equityPoints := equityPoints st ++
           [ {| EquityPoint.time := Date.getTime date;
                EquityPoint.capitalWith := capitalWith3;
                EquityPoint.capitalWithout := capitalWithout2 |} ];
         capitalWith := capitalWith3;
         capitalWithout := capitalWithout2;
         firstPeriod := false;
         lossBaseYear := baseYear; lossBaseMonth := baseMonth;
         lossMonths := lossMonths';
         wins := if 0 <? effectiveReturn then S (wins st) else wins st;
         losses := if effectiveReturn <? 0 then S (losses st) else losses st |}
  end.

(** *** Summary metrics *)

Definition emptyMetrics (safeCapital : JS.number) : BacktestMetrics.t :=
  {| BacktestMetrics.initialCapital := safeCapital;
     BacktestMetrics.finalCapitalNoWithdrawal := safeCapital;
     BacktestMetrics.finalCapitalWithWithdrawal := safeCapital;
     BacktestMetrics.totalProfitPct := 0;
     BacktestMetrics.avgMonthlyProfit := 0;
     BacktestMetrics.monthlyEquivalentRate := 0;
     BacktestMetrics.profitWithWithdrawalPct := 0;
     BacktestMetrics.monthlyRateWithWithdrawal := 0;
     BacktestMetrics.monthlyIrr := 0;
     BacktestMetrics.wins := 0;
     BacktestMetrics.losses := 0 |}.

(** [cashFlows[cashFlows.length - 1] += v]. *)
Fixpoint addToLast (cashFlows : list JS.number) (v : JS.number) : list JS.number :=
  match cashFlows with
  | [] => []
  | [x] => [x + v]
  | x :: l => x :: addToLast l v
  end.

Definition monthlyRate (frequency : BacktestFrequency) (numPeriods : nat)
  (safeCapital finalCapital : JS.number) : JS.number :=
  if (0 <? numPeriods)%nat && (0 <? safeCapital) && (0 <? finalCapital) then
    let ratePerPeriod :=
      Math_pow (finalCapital / safeCapital) (1 / JS.of_nat numPeriods) - 1 in
    match frequency with
    | MONTHLY => ratePerPeriod * 100
    | WEEKLY => (Math_pow (1 + ratePerPeriod) (periodsPerMonth frequency) - 1) * 100
    end
  else 0.

Definition irrCashFlows (frequency : BacktestFrequency) (numPeriods : nat)
  (safeCapital netMonthlyFlow finalCapitalWithWithdrawal : JS.number)
  : list JS.number :=
  match frequency with
  | MONTHLY =>
      addToLast (- safeCapital :: repeat netMonthlyFlow numPeriods)
        finalCapitalWithWithdrawal
  | WEEKLY =>
      let perMonth := periodsPerMonth frequency in
      addToLast
        (- safeCapital ::
         map (fun i =>
                let shouldExchange := JS.rem (JS.of_nat i + 1) perMonth <? 1 in
                if shouldExchange then netMonthlyFlow else 0)
             (seq 0 numPeriods))
        finalCapitalWithWithdrawal
  end.

Definition monthlyIrrOf (frequency : BacktestFrequency) (numPeriods : nat)
  (safeCapital netMonthlyFlow finalCapitalWithWithdrawal : JS.number) : JS.number :=
  if (0 <? numPeriods)%nat && (0 <? safeCapital) then
    let irr :=
      calculateIrr
        (irrCashFlows frequency numPeriods safeCapital netMonthlyFlow
           finalCapitalWithWithdrawal) in
    match frequency, irr with
    | _, None => 0
    | MONTHLY, Some irr => irr * 100
    | WEEKLY, Some irr => (Math_pow (1 + irr) (periodsPerMonth frequency) - 1) * 100
    end
  else 0.

(** [safeCapital], the monthly investment with its default, and the two
    per-period amounts. *)
Definition safeCapitalOf (input : BacktestInput.t) : JS.number :=
  if 0 <? BacktestInput.baseCapital input then BacktestInput.baseCapital input else 0.

Definition monthlyInvestmentOf (input : BacktestInput.t) : JS.number :=
  match BacktestInput.monthlyInvestment input with Some v => v | None => 0 end.

Definition perPeriod (frequency : BacktestFrequency) (monthly : JS.number)
  : JS.number :=
  match frequency with
  | WEEKLY => monthly / WEEKLY_PERIODS_PER_MONTH
  | MONTHLY => monthly
  end.

(** The state after [history.forEach] has run over [history]. *)
Definition simulate (input : BacktestInput.t) (history : list HistoryPoint.t)
  : LoopState :=
  fold_left
    (period (BacktestInput.applyLosses input) (BacktestInput.payoff input)
       (safeCapitalOf input)
       (perPeriod (BacktestInput.frequency input)
          (BacktestInput.monthlyWithdrawal input))
       (perPeriod (BacktestInput.frequency input) (monthlyInvestmentOf input)))
    history (initialState (safeCapitalOf input)).

(** The guard of the early return. *)
Definition degenerate (input : BacktestInput.t) : bool :=
  (length (BacktestInput.history input) =? 0)%nat
  || (length (PayoffCurve.variations (BacktestInput.payoff input)) =? 0)%nat
  || (safeCapitalOf input <=? 0).

Definition runBacktest (input : BacktestInput.t) : BacktestResult.t :=
  let monthlyWithdrawal := BacktestInput.monthlyWithdrawal input in
  let monthlyInvestment := monthlyInvestmentOf input in
  let frequency := BacktestInput.frequency input in
  let safeCapital := safeCapitalOf input in
  if degenerate input
  then
    {| BacktestResult.rows := [];
       BacktestResult.chart := {| Chart.points := []; Chart.equity := [] |};
       BacktestResult.metrics := emptyMetrics safeCapital |}
  else
    let final := simulate input (BacktestInput.history input) in
    let finalCapitalNoWithdrawal :=
      match rev (equityPoints final) with
      | e :: _ => EquityPoint.capitalWithout e
      | [] => safeCapital
      end in
    let finalCapitalWithWithdrawal :=
      match rev (equityPoints final) with
      | e :: _ => EquityPoint.capitalWith e
      | [] => safeCapital
      end in
    let totalProfit := finalCapitalNoWithdrawal - safeCapital in
    let totalProfitPct :=
      if 0 <? safeCapital then (totalProfit / safeCapital) * 100 else 0 in
    let numPeriods := (length (rows final) - 1)%nat in
    let numMonths :=
      match rows final, rev (rows final) with
      | r0 :: _ :: _, rl :: _ =>
          let start := Date.getTime (BacktestRow.time r0) in
          let end_ := Date.getTime (BacktestRow.time rl) in
          let daysDiff := (end_ - start) / (1000 * 60 * 60 * 24) in
          daysDiff / 30.44
      | _, _ => 0
      end in
    let avgMonthlyProfit := if 0 <? numMonths then totalProfit / numMonths else 0 in
    let monthlyEquivalentRate :=
      monthlyRate frequency numPeriods safeCapital finalCapitalNoWithdrawal in
    let profitWithWithdrawal := finalCapitalWithWithdrawal - safeCapital in
    let profitWithWithdrawalPct :=
      if 0 <? safeCapital then (profitWithWithdrawal / safeCapital) * 100 else 0 in
    let monthlyRateWithWithdrawal :=
      monthlyRate frequency numPeriods safeCapital finalCapitalWithWithdrawal in
    let monthlyIrr :=
      monthlyIrrOf frequency numPeriods safeCapital
        (monthlyWithdrawal - monthlyInvestment) finalCapitalWithWithdrawal in
    {| BacktestResult.rows := rows final;
       BacktestResult.chart :=
         {| Chart.points := chartPoints final; Chart.equity := equityPoints final |};
       BacktestResult.metrics :=
         {| BacktestMetrics.initialCapital := safeCapital;
            BacktestMetrics.finalCapitalNoWithdrawal := finalCapitalNoWithdrawal;
            BacktestMetrics.finalCapitalWithWithdrawal := finalCapitalWithWithdrawal;
            BacktestMetrics.totalProfitPct := totalProfitPct;
            BacktestMetrics.avgMonthlyProfit := avgMonthlyProfit;
            BacktestMetrics.monthlyEquivalentRate := monthlyEquivalentRate;
            BacktestMetrics.profitWithWithdrawalPct := profitWithWithdrawalPct;
            BacktestMetrics.monthlyRateWithWithdrawal := monthlyRateWithWithdrawal;
            BacktestMetrics.monthlyIrr := monthlyIrr;
            BacktestMetrics.wins := wins final;
            BacktestMetrics.losses := losses final |} |}.

End WithMathPow.

End Backtest.

(** The payoff curve that the backtest panel hands to [runBacktest]:
    [buildPayoffCurve(legs, currentPrice)], with both defaults. *)
Module BacktestPanel.

Definition payoffCurve (legs : list StrategyLeg) (currentPrice : JS.number)
  : PayoffCurve.t :=
  Backtest.buildPayoffCurve legs currentPrice None None.

End BacktestPanel.

(** ** The price history ([parseYahooHistory] of the API service) *)

Module YahooChartResponse.
(** What [parseYahooHistory] reads of a response: [chart.error] with its
    optional description, [chart.result[0].timestamp] and
    [chart.result[0].indicators.quote[0].close].  A link of the optional
    chain that is missing, or a [null], is [None]. *)
Record t := {
  error : option (option String.string);
  timestamp : option (list JS.number);
  close : option (list (option JS.number))
}.
End YahooChartResponse.

Module Api.

Local Open Scope float_scope.

(** An element of the local array [points]. *)
Record Quote := { time : Date.t; close : JS.number }.

(** [points.sort(cmp)] on an array of objects: the stable sort of
    [JS.Array_sort]. *)
Fixpoint insert_by {A : Type} (cmp : A -> A -> JS.number) (x : A) (l : list A)
  : list A :=
  match l with
  | [] => [x]
  | y :: l' => if cmp x y <? 0 then x :: l else y :: insert_by cmp x l'
  end.

Definition Array_sort {A : Type} (cmp : A -> A -> JS.number) (l : list A) : list A :=
  fold_left (fun acc x => insert_by cmp x acc) l [].

(** [s || d] on a string that may be [undefined]: the empty string is
    falsy. *)
Definition or_text (s : option String.string) (d : String.string) : String.string :=
  match s with
  | Some String.EmptyString | None => d
  | Some text => text
  end.

Section WithDate.

(** [new Date(ms)]; the year and the month of a date depend on the time
    zone of the host. *)
Variable Date_new : JS.number -> Date.t.

(** The loop that fills [points]. *)
Definition collectQuotes (timestamps : list JS.number)
  (closes : list (option JS.number)) : list Quote :=
  flat_map
    (fun i =>
       let ts := nth i timestamps nan in
       if negb (JS.isFinite ts) then []
       else
         match nth i closes None with
         | Some c =>
             if negb (JS.isFinite c) then []
             else [ {| time := Date_new (ts * 1000); close := c |} ]
         | None => []
         end)
    (seq 0 (length timestamps)).

(** The final [points.map], with its variable [lastClose]. *)
Fixpoint withReturns (lastClose : option JS.number) (points : list Quote)
  : list HistoryPoint.t :=
  match points with
  | [] => []
  | point :: rest =>
      let returnPct :=
        match lastClose with
        | None => None
        | Some l => Some (close point / l - 1)
        end in
      {| HistoryPoint.time := time point;
         HistoryPoint.close := close point;
         HistoryPoint.returnPct := returnPct |}
      :: withReturns (Some (close point)) rest
  end.

(** [inl message] is the thrown [Error]. *)
Definition parseYahooHistory (data : YahooChartResponse.t)
  : String.string + list HistoryPoint.t :=
  match YahooChartResponse.error data with
  | Some description => inl (or_text description "Erro Yahoo."%string)
  | None =>
      let timestamps :=
        match YahooChartResponse.timestamp data with Some l => l | None => [] end in
      let closes :=
        match YahooChartResponse.close data with Some l => l | None => [] end in
      let points := collectQuotes timestamps closes in
      let points :=
        Array_sort
          (fun a b => Date.getTime (time a) - Date.getTime (time b)) points in
      inr (withReturns None points)
  end.

End WithDate.

End Api.

(** ** The strategy simulator and its backtest panel *)

Module StrategySimulator.

Local Open Scope float_scope.

(** [percentBase], the amount the payoff chart divides profits by. *)
Definition percentBase (stats : StrategyStats.t) : JS.number :=
  let usable :=
    match StrategyStats.capitalAtRisk stats with
    | Some c => JS.truthy c && (0 <? c)
    | None => false
    end in
  if usable
  then match StrategyStats.capitalAtRisk stats with Some c => c | None => 1 end
  else if 0 <? JS.Math_abs (StrategyStats.netPremium stats)
       then JS.Math_abs (StrategyStats.netPremium stats)
       else 1.

Definition strategyCost (legs : list StrategyLeg) : JS.number :=
  Backtest.calculateStrategyCost legs.

Definition baseCapital (legs : list StrategyLeg) (currentPrice : JS.number)
  : JS.number :=
  Backtest.deriveBaseCapital (strategyCost legs)
    (PayoffCurve.returns (BacktestPanel.payoffCurve legs currentPrice)).

(** What [runSimulation] leaves in the state of the panel: an error
    message and no result, or a result and no error. *)
Inductive Outcome :=
| Failed (error : String.string)
| Shown (result : BacktestResult.t).

(** The settings of the panel that [runSimulation] passes on. *)
Record Settings := {
  monthlyWithdrawal : JS.number;
  monthlyInvestment : JS.number;
  applyLosses : bool;
  frequency : BacktestFrequency
}.

Section WithMathPow.

Variable Math_pow : JS.number -> JS.number -> JS.number.

(** [runSimulation].  [range] is what [buildMonthRange] returned ([None]
    for null) and [fetched] what awaiting [fetchYahooHistory] gave: the
    message of a thrown error or the history. *)
Definition runSimulation {Range : Type} (legs : list StrategyLeg)
  (currentPrice : JS.number) (range : option Range)
  (fetched : String.string + list HistoryPoint.t) (settings : Settings) : Outcome :=
  if (length legs =? 0)%nat then Failed "Adicione pernas para rodar o backtest."%string
  else if currentPrice <=? 0
  then Failed "Preco do ativo indisponivel para calcular o payoff."%string
  else
    match range with
    | None => Failed "Periodo invalido."%string
    | Some _ =>
        let payoffCurve := BacktestPanel.payoffCurve legs currentPrice in
        let baseCapital := baseCapital legs currentPrice in
        if (length (PayoffCurve.variations payoffCurve) =? 0)%nat
           || (baseCapital <=? 0)
        then Failed "Nao foi possivel montar a curva de payoff."%string
        else
          match fetched with
          | inl message => Failed (Api.or_text (Some message) "Erro ao buscar historico."%string)
          | inr history =>
              if (length history =? 0)%nat
              then Failed "Sem dados historicos no periodo."%string
              else
                Shown
                  (Backtest.runBacktest Math_pow
                     {| BacktestInput.history := history;
                        BacktestInput.payoff := payoffCurve;
                        BacktestInput.baseCapital := baseCapital;
                        BacktestInput.monthlyWithdrawal := monthlyWithdrawal settings;
                        BacktestInput.monthlyInvestment :=
                          Some (monthlyInvestment settings);
                        BacktestInput.applyLosses := applyLosses settings;
                        BacktestInput.frequency := frequency settings |})
          end
    end.

End WithMathPow.

End StrategySimulator.

(** ** The payoff chart ([src/components/PayoffChart.tsx]) *)

Module PayoffChart.

Local Open Scope float_scope.

Definition PAYOFF_RANGE_PCT : JS.number := 40.

(** An element of [chartData]. *)
Record ChartDatum := {
  movePct : JS.number;
  profit : JS.number;
  profitPct : JS.number
}.

(** [base]; an omitted or null [percentBase] is [None]. *)
Definition baseOf (percentBase : option JS.number) : JS.number :=
  match percentBase with
  | Some b => if JS.truthy b && (0 <? b) then b else 1
  | None => 1
  end.

Definition chartData (data : list PayoffData.t) (percentBase : option JS.number)
  : list ChartDatum :=
  let base := baseOf percentBase in
  map (fun point =>
         let profitPct :=
           if 0 <? base then (PayoffData.profit point / base) * 100 else 0 in
         {| movePct := PayoffData.movePct point;
            profit := PayoffData.profit point;
            profitPct := JS.round_fixed 4 profitPct |})
      data.

(** [{ yDomain, maxProfitPct, maxLossPct }]. *)
Record Domain := {
  yDomain : JS.number * JS.number;
  maxProfitPct : JS.number;
  maxLossPct : JS.number
}.

Definition domainOf (chartData : list ChartDatum) : Domain :=
  let values := map profitPct chartData in
  if (length values =? 0)%nat
  then {| yDomain := (-1, 1); maxProfitPct := 0; maxLossPct := 0 |}
  else
    let rawMin := JS.Math_min_list values in
    let rawMax := JS.Math_max_list values in
    let min := JS.Math_min rawMin 0 in
    let max := JS.Math_max rawMax 0 in
    let range := max - min in
    let pad := if range =? 0 then 1 else range * 0.08 in
    {| yDomain := (min - pad, max + pad);
       maxProfitPct := if 0 <? rawMax then rawMax else 0;
       maxLossPct := if rawMin <? 0 then rawMin else 0 |}.

(** The [forEach] of [breakEvenMarks], with its accumulators [seen] and
    [marks]. *)
Fixpoint scanMarks (breakEvens : list JS.number) (seen : list JS.fixed_string)
  (marks : list JS.number) : list JS.number :=
  match breakEvens with
  | [] => marks
  | value :: rest =>
      if negb (JS.isFinite value) then scanMarks rest seen marks
      else
        let clamped :=
          JS.Math_max (- PAYOFF_RANGE_PCT) (JS.Math_min PAYOFF_RANGE_PCT value) in
        let rounded := JS.round_fixed 2 clamped in
        let key := JS.toFixed 2 rounded in
        if StrategyMath.Set_has key seen then scanMarks rest seen marks
        else scanMarks rest (key :: seen) (marks ++ [rounded])
  end.

(** [breakEvenMarks]; an omitted [breakEvens] is [None]. *)
Definition breakEvenMarks (breakEvens : option (list JS.number)) : list JS.number :=
  match breakEvens with
  | None => []
  | Some l =>
      if (length l =? 0)%nat then []
      else JS.Array_sort (fun a b => a - b) (scanMarks l [] [])
  end.

End PayoffChart.

(** * Reference definitions

    What the specification says, written down from its words, to be
    compared with the functions above, and the notions in which the
    properties below are stated. *)

(** Two specification floats that are the same number: identical, or
    two zeros. *)
Definition sf_same (a b : spec_float) : Prop :=
  a = b \/ exists s t, a = S754_zero s /\ b = S754_zero t.

(** A finite non-zero number or an infinity, of sign [s]. *)
Definition sf_signed_nonzero (s : bool) (x : spec_float) : Prop :=
  (exists m e, x = S754_finite s m e) \/ x = S754_infinity s.

Module Reference.

Local Open Scope float_scope.

(** The payoff of a leg at price [p] as the specification defines it,
    scaled by [quantity] and by a contract size [size]. *)
Definition legPayoff (size : JS.number) (leg : StrategyLeg) (p : JS.number)
  : JS.number :=
  match instrument leg with
  | UNDERLYING =>
      match side leg with
      | BUY => (p - premium leg) * quantity leg * size
      | SELL => (premium leg - p) * quantity leg * size
      end
  | OPTION =>
      match type leg, strike leg with
      | Some CALL, Some k =>
          let perUnit := JS.Math_max 0 (p - k) - premium leg in
          (match side leg with SELL => - perUnit | BUY => perUnit end)
          * quantity leg * size
      | Some PUT, Some k =>
          let perUnit := JS.Math_max 0 (k - p) - premium leg in
          (match side leg with SELL => - perUnit | BUY => perUnit end)
          * quantity leg * size
      | _, _ => 0
      end
  end.

(** The same payoff with the profit of an underlying leg written as the
    specification derives it: the move [p - premium], negated for SELL. *)
Definition legPayoffByMove (size : JS.number) (leg : StrategyLeg) (p : JS.number)
  : JS.number :=
  match instrument leg with
  | UNDERLYING =>
      let move := p - premium leg in
      (match side leg with BUY => move | SELL => - move end) * quantity leg * size
  | OPTION => legPayoff size leg p
  end.

(** The contract size with 100 standing in for an absent, zero or [NaN]
    one. *)
Definition effectiveSize (leg : StrategyLeg) : JS.number :=
  match contractSize leg with
  | None => 100
  | Some c => if is_nan c || is_zero c then 100 else c
  end.

(** A contract size that is absent or not positive. *)
Definition sizeAbsentOrNonPositive (leg : StrategyLeg) : bool :=
  match contractSize leg with None => true | Some c => c <=? 0 end.

(** A contract size that is absent, zero or [NaN]. *)
Definition sizeAbsentOrZero (leg : StrategyLeg) : bool :=
  match contractSize leg with None => true | Some c => is_nan c || is_zero c end.

Definition withContractSize (leg : StrategyLeg) (c : JS.number) : StrategyLeg :=
  {| id := id leg; instrument := instrument leg; side := side leg;
     type := type leg; strike := strike leg; premium := premium leg;
     quantity := quantity leg; symbol := symbol leg; contractSize := Some c |}.

(** The points of a history whose return is defined, and the number of
    placeholder rows a history can produce: one when its first point has
    no defined return. *)
Definition hasReturn (point : HistoryPoint.t) : bool :=
  match Backtest.definedReturn point with Some _ => true | None => false end.

Definition placeholderCount (history : list HistoryPoint.t) : nat :=
  match history with
  | point :: _ => if hasReturn point then 0 else 1
  | [] => 0
  end.

(** The origin of the loss clock, [(year, month)] with the month counted
    from 1: read off the first point of the history. *)
Definition lossOrigin (history : list HistoryPoint.t) : option (Z * Z) :=
  match history with
  | first :: _ =>
      Some (Date.getFullYear (HistoryPoint.time first),
            (Date.getMonth (HistoryPoint.time first) + 1)%Z)
  | [] => None
  end.

(** The origin as the claim has it: read off the first point that has a
    defined return. *)
Definition statedOrigin (history : list HistoryPoint.t) : option (Z * Z) :=
  lossOrigin (filter hasReturn history).

(** Whole months since the origin, the month of the origin being 1. *)
Definition monthCount (origin : Z * Z) (date : Date.t) : Z :=
  ((Date.getFullYear date - fst origin) * 12
   + (Date.getMonth date + 1 - snd origin) + 1)%Z.

(** The haircut of a month count: 2% at a multiple of 6 plus 9% at a
    multiple of 10, capped at 99%. *)
Definition scheduledLoss (m : Z) : JS.number :=
  JS.Math_min
    ((if (m mod 6 =? 0)%Z then 0.02 else 0) + (if (m mod 10 =? 0)%Z then 0.09 else 0))
    0.99.

(** The haircut as the claim has it: 2% at a multiple of 6, plus 9% when
    that month count is also a multiple of 10. *)
Definition statedLoss (m : Z) : JS.number :=
  if (m mod 6 =? 0)%Z
  then JS.Math_min (0.02 + (if (m mod 10 =? 0)%Z then 0.09 else 0)) 0.99
  else 0.

(** A period triggers a loss when losses are on, its month count is
    positive and has not triggered before, and the schedule has a haircut
    for it. *)
Definition lossDue (applyLosses : bool) (m : Z) (triggered : list Z) : bool :=
  applyLosses && (0 <? m)%Z && negb (existsb (Z.eqb m) triggered)
  && ((m mod 6 =? 0)%Z || (m mod 10 =? 0)%Z).

(** Two samples that follow one another in a curve. *)
Definition consecutive {A : Type} (l r : A) (data : list A) : Prop :=
  exists before after, data = before ++ l :: r :: after.

(** The profit changes sign between two samples, a left profit of
    exactly zero included: from at or below zero to above it, or from at
    or above zero to below it. *)
Definition signChange (l r : PayoffData.t) : Prop :=
  ((PayoffData.profit l <=? 0) = true /\ (0 <? PayoffData.profit r) = true)
  \/ ((0 <=? PayoffData.profit l) = true /\ (PayoffData.profit r <? 0) = true).

(** The linear interpolation of the move at which the profit is zero. *)
Definition zeroCrossing (l r : PayoffData.t) : JS.number :=
  let t := (0 - PayoffData.profit l) / (PayoffData.profit r - PayoffData.profit l) in
  PayoffData.movePct l + t * (PayoffData.movePct r - PayoffData.movePct l).

(** Ascending order: the next element is never smaller than the
    previous one (for numbers other than NaN, [a <= b]). *)
Definition ascending (a b : JS.number) : Prop := (b <? a) = false.

(** The same order as the comparator [(a, b) => a - b] sees it: the next
    element minus the previous one is never negative. *)
Definition comparatorAscending (a b : JS.number) : Prop := (b - a <? 0) = false.

(** The net present value of the cash flows at a rate, the flow of
    period [t] discounted by [(1 + rate)^t], and its derivative with respect
    to the rate, both summed from the first flow on. *)
Definition presentValue (Math_pow : JS.number -> JS.number -> JS.number)
  (cashFlows : list JS.number) (rate : JS.number) : JS.number :=
  Backtest.reduce_indexed
    (fun acc cf t => acc + cf / Math_pow (1 + rate) (JS.of_nat t))
    cashFlows 0%nat 0.

Definition presentValueSlope (Math_pow : JS.number -> JS.number -> JS.number)
  (cashFlows : list JS.number) (rate : JS.number) : JS.number :=
  Backtest.reduce_indexed
    (fun acc cf t =>
       match t with
       | O => acc
       | S _ => acc - (JS.of_nat t * cf) / (Math_pow (1 + rate) (JS.of_nat t) * (1 + rate))
       end)
    cashFlows 0%nat 0.

(** One Newton-Raphson update of a rate: the rate minus the net present
    value over its derivative. *)
Definition newtonNext (Math_pow : JS.number -> JS.number -> JS.number)
  (cashFlows : list JS.number) (rate : JS.number) : JS.number :=
  rate - presentValue Math_pow cashFlows rate
         / presentValueSlope Math_pow cashFlows rate.

(** The net present value at a rate is within [1e-7] of zero. *)
Definition newtonConverged (Math_pow : JS.number -> JS.number -> JS.number)
  (cashFlows : list JS.number) (rate : JS.number) : bool :=
  JS.Math_abs (presentValue Math_pow cashFlows rate) <? 1e-7.

(** The rate after [k] Newton-Raphson updates of the start rate 0.1. *)
Definition newtonIterate (Math_pow : JS.number -> JS.number -> JS.number)
  (cashFlows : list JS.number) (k : nat) : JS.number :=
  Nat.iter k (newtonNext Math_pow cashFlows) 0.1.

(** A rate can be updated: the derivative there is finite and not zero,
    and the updated rate is finite and above -0.999. *)
Definition newtonUsable (Math_pow : JS.number -> JS.number -> JS.number)
  (cashFlows : list JS.number) (rate : JS.number) : bool :=
  let dNpv := presentValueSlope Math_pow cashFlows rate in
  let next := newtonNext Math_pow cashFlows rate in
  JS.isFinite dNpv && negb (dNpv =? 0)
  && JS.isFinite next && negb (next <=? -0.999).

(** From [start], the Newton-Raphson iteration finds a root at its
    update [k]: the net present value is within [1e-7] of zero there, and
    at every earlier rate it is not and the rate can be updated. *)
Definition newtonRun (Math_pow : JS.number -> JS.number -> JS.number)
  (cashFlows : list JS.number) (start : JS.number) (k : nat) : Prop :=
  let x j := Nat.iter j (newtonNext Math_pow cashFlows) start in
  newtonConverged Math_pow cashFlows (x k) = true
  /\ forall j, (j < k)%nat ->
       newtonConverged Math_pow cashFlows (x j) = false
       /\ newtonUsable Math_pow cashFlows (x j) = true.

Definition newtonReturnsAt (Math_pow : JS.number -> JS.number -> JS.number)
  (cashFlows : list JS.number) (k : nat) : Prop :=
  newtonRun Math_pow cashFlows 0.1 k.

(** Newton-Raphson finds no root within its 60 rounds. *)
Definition newtonGivesUp (Math_pow : JS.number -> JS.number -> JS.number)
  (cashFlows : list JS.number) : Prop :=
  forall k, (k < 60)%nat -> ~ newtonReturnsAt Math_pow cashFlows k.

(** Bisection on a bracket [(low, high)]: the half that is kept is the
    lower one when the net present value changes sign between [low] and
    the midpoint, the upper one otherwise. *)
Definition midpoint (b : JS.number * JS.number) : JS.number := (fst b + snd b) / 2.

Definition halve (Math_pow : JS.number -> JS.number -> JS.number)
  (cashFlows : list JS.number) (b : JS.number * JS.number) : JS.number * JS.number :=
  if Backtest.npv Math_pow cashFlows (fst b)
     * Backtest.npv Math_pow cashFlows (midpoint b) <? 0
  then (fst b, midpoint b)
  else (midpoint b, snd b).

Definition bisectConverged (Math_pow : JS.number -> JS.number -> JS.number)
  (cashFlows : list JS.number) (b : JS.number * JS.number) : bool :=
  JS.Math_abs (Backtest.npv Math_pow cashFlows (midpoint b)) <? 1e-7.

(** From the bracket [start], bisection with [rounds] rounds stops after
    [k] halvings: at no earlier bracket is the net present value of the
    midpoint within [1e-7] of zero, and it is at this one unless the rounds
    are used up. *)
Definition bisectRun (Math_pow : JS.number -> JS.number -> JS.number)
  (cashFlows : list JS.number) (start : JS.number * JS.number) (rounds k : nat)
  : Prop :=
  let b j := Nat.iter j (halve Math_pow cashFlows) start in
  (k <= rounds)%nat
  /\ ((k < rounds)%nat -> bisectConverged Math_pow cashFlows (b k) = true)
  /\ forall j, (j < k)%nat -> bisectConverged Math_pow cashFlows (b j) = false.

(** The bracket after [k] halvings of the rate bounds [(-0.999, 10)]. *)
Definition bracketAfter (Math_pow : JS.number -> JS.number -> JS.number)
  (cashFlows : list JS.number) (k : nat) : JS.number * JS.number :=
  Nat.iter k (halve Math_pow cashFlows) (-0.999, 10).

Definition bisectReturnsAt (Math_pow : JS.number -> JS.number -> JS.number)
  (cashFlows : list JS.number) (k : nat) : Prop :=
  bisectRun Math_pow cashFlows (-0.999, 10) 120 k.

(** No sign change of the net present value across the rate bounds, or a
    value there that is not finite. *)
Definition noSignChange (Math_pow : JS.number -> JS.number -> JS.number)
  (cashFlows : list JS.number) : bool :=
  negb (JS.isFinite (Backtest.npv Math_pow cashFlows (-0.999)))
  || negb (JS.isFinite (Backtest.npv Math_pow cashFlows 10))
  || (0 <? Backtest.npv Math_pow cashFlows (-0.999) * Backtest.npv Math_pow cashFlows 10).

(** The placeholder row, chart point and equity point of a date. *)
Definition anchorRow (date : Date.t) (capital : JS.number) : BacktestRow.t :=
  {| BacktestRow.time := date;
     BacktestRow.assetReturn := 0;
     BacktestRow.strategyReturn := 0;
     BacktestRow.profit := 0;
     BacktestRow.withdrawal := 0;
     BacktestRow.investment := 0;
     BacktestRow.capital := capital;
     BacktestRow.lossEvent := false |}.

Definition anchorChartPoint (date : Date.t) : ChartPoint.t :=
  {| ChartPoint.time := Date.getTime date;
     ChartPoint.assetReturn := 0;
     ChartPoint.strategyReturn := 0;
     ChartPoint.size := 4 |}.

Definition anchorEquityPoint (date : Date.t) (capital : JS.number) : EquityPoint.t :=
  {| EquityPoint.time := Date.getTime date;
     EquityPoint.capitalWith := capital;
     EquityPoint.capitalWithout := capital |}.

(** The sample points of the default backtest curve: 250 uniform points
    from -0.3 to 0.3. *)
Definition defaultVariations : list JS.number :=
  map (fun i => JS.round_fixed 6 (- 0.3 + (0.3 * 2 / 249) * JS.of_nat i)) (seq 0 250).

(** The months that triggered are those of the rows marked with a loss
    event, and no month is among them twice. *)
Definition lossLedger (origin : Z * Z) (st : Backtest.LoopState) : Prop :=
  map (fun row => monthCount origin (BacktestRow.time row))
    (filter BacktestRow.lossEvent (Backtest.rows st))
  = rev (Backtest.lossMonths st)
  /\ NoDup (Backtest.lossMonths st).

(** What holds of the loop state throughout a run without cash flows
    and losses. *)
Definition tracksCoincide (st : Backtest.LoopState) : Prop :=
  JS.SameValueZero (Backtest.capitalWith st) (Backtest.capitalWithout st) = true
  /\ Forall (fun e => JS.SameValueZero (EquityPoint.capitalWith e)
                       (EquityPoint.capitalWithout e) = true)
       (Backtest.equityPoints st)
  /\ map BacktestRow.capital (Backtest.rows st)
     = map EquityPoint.capitalWith (Backtest.equityPoints st).

(** The 4-decimal text under which a break-even is remembered, and the
    rounded candidate of two samples. *)
Definition keyOf (x : JS.number) : JS.fixed_string := JS.toFixed 4 x.

Definition candidate (l r : PayoffData.t) : JS.number :=
  JS.round_fixed 4 (StrategyMath.crossingMove l r).

(** The place of a number in the order of the numbers: an integer that
    grows with the number, 0 for both zeros (and for NaN, which has no
    place in the order). *)
Definition ord_sf (x : spec_float) : Z :=
  match x with
  | S754_zero _ | S754_nan => 0%Z
  | S754_infinity s => cond_Zopp s (4096 * 2 ^ 53)%Z
  | S754_finite s m e => cond_Zopp s ((e + 1075) * 2 ^ 53 + Z.pos m)%Z
  end.

Definition ord (x : JS.number) : Z := ord_sf (Prim2SF x).

(** A table of abscissas in strictly increasing order. *)
Definition increasing (xs : list JS.number) : Prop :=
  Sorted (fun a b => (a <? b) = true) xs.

(** The value at [x] of the line through [(x0, y0)] and [(x1, y1)]. *)
Definition lineThrough (x0 y0 x1 y1 x : JS.number) : JS.number :=
  y0 + ((x - x0) / (x1 - x0)) * (y1 - y0).

(** The same order, decided. *)
Fixpoint increasingb (xs : list JS.number) : bool :=
  match xs with
  | a :: ((b :: _) as rest) => (a <? b) && increasingb rest
  | _ => true
  end.

(** The points of a history that produce a row: the first one, and
    every later one with a defined return. *)
Definition rowPoints (history : list HistoryPoint.t) : list HistoryPoint.t :=
  match history with
  | first :: rest => first :: filter hasReturn rest
  | [] => []
  end.

(** The defined returns of a history, in its order. *)
Definition definedReturns (history : list HistoryPoint.t) : list JS.number :=
  flat_map (fun point =>
              match Backtest.definedReturn point with
              | Some r => [r]
              | None => []
              end) history.

(** The asset return that the row of a point shows. *)
Definition shownReturn (point : HistoryPoint.t) : JS.number :=
  match Backtest.definedReturn point with Some r => r | None => 0 end.

(** Rows, chart points and equity points that describe the same
    periods: entry by entry the same time, the same two returns, and the
    capital of the row on the with-withdrawal track. *)
Definition aligned (rows : list BacktestRow.t) (points : list ChartPoint.t)
  (equity : list EquityPoint.t) : Prop :=
  map (fun row => (Date.getTime (BacktestRow.time row),
                   BacktestRow.assetReturn row, BacktestRow.strategyReturn row)) rows
  = map (fun p => (ChartPoint.time p, ChartPoint.assetReturn p,
                   ChartPoint.strategyReturn p)) points
  /\ map (fun row => (Date.getTime (BacktestRow.time row), BacktestRow.capital row)) rows
     = map (fun e => (EquityPoint.time e, EquityPoint.capitalWith e)) equity.

(** Two requests that differ at most in the monthly withdrawal and the
    monthly investment. *)
Definition sameButCashFlows (a b : BacktestInput.t) : Prop :=
  BacktestInput.history a = BacktestInput.history b
  /\ BacktestInput.payoff a = BacktestInput.payoff b
  /\ BacktestInput.baseCapital a = BacktestInput.baseCapital b
  /\ BacktestInput.applyLosses a = BacktestInput.applyLosses b
  /\ BacktestInput.frequency a = BacktestInput.frequency b.

(** What a row says apart from the cash flows and the capital after
    them. *)
Definition withoutCashFlows (row : BacktestRow.t)
  : Date.t * JS.number * JS.number * JS.number * bool :=
  (BacktestRow.time row, BacktestRow.assetReturn row, BacktestRow.strategyReturn row,
   BacktestRow.profit row, BacktestRow.lossEvent row).

(** Two states of the loop that agree in everything but the
    with-withdrawal capital and the cash flows of the rows. *)
Definition agreeButCashFlows (a b : Backtest.LoopState) : Prop :=
  map withoutCashFlows (Backtest.rows a) = map withoutCashFlows (Backtest.rows b)
  /\ Backtest.chartPoints a = Backtest.chartPoints b
  /\ map (fun e => (EquityPoint.time e, EquityPoint.capitalWithout e))
       (Backtest.equityPoints a)
     = map (fun e => (EquityPoint.time e, EquityPoint.capitalWithout e))
         (Backtest.equityPoints b)
  /\ Backtest.capitalWithout a = Backtest.capitalWithout b
  /\ Backtest.firstPeriod a = Backtest.firstPeriod b
  /\ Backtest.lossBaseYear a = Backtest.lossBaseYear b
  /\ Backtest.lossBaseMonth a = Backtest.lossBaseMonth b
  /\ Backtest.lossMonths a = Backtest.lossMonths b
  /\ Backtest.wins a = Backtest.wins b
  /\ Backtest.losses a = Backtest.losses b.

(** The same leg on the other side of the trade. *)
Definition opposite (leg : StrategyLeg) : StrategyLeg :=
  {| id := id leg; instrument := instrument leg;
     side := match side leg with BUY => SELL | SELL => BUY end;
     type := type leg; strike := strike leg; premium := premium leg;
     quantity := quantity leg; symbol := symbol leg;
     contractSize := contractSize leg |}.

(** The moves of the payoff curve: from -40% to 40% in steps of a
    quarter of a percent. *)
Definition moveGrid : list JS.number :=
  map (fun i => -40 + 0.25 * JS.of_nat i) (seq 0 321).

(** A break-even moved into the window of the chart, from -40% to 40%,
    and the mark drawn for it: that move rounded to 2 decimals. *)
Definition clampOf (value : JS.number) : JS.number :=
  JS.Math_max (- PayoffChart.PAYOFF_RANGE_PCT)
    (JS.Math_min PayoffChart.PAYOFF_RANGE_PCT value).

Definition markOf (value : JS.number) : JS.number :=
  JS.round_fixed 2 (clampOf value).

(** The quote that a history point was made of. *)
Definition quoteOf (point : HistoryPoint.t) : Api.Quote :=
  {| Api.time := HistoryPoint.time point; Api.close := HistoryPoint.close point |}.

(** A history point is not earlier than the one before it. *)
Definition notEarlier (a b : HistoryPoint.t) : Prop :=
  ascending (Date.getTime (HistoryPoint.time a)) (Date.getTime (HistoryPoint.time b)).

(** The capital before and after each entry of a series of capitals
    that starts from [start]. *)
Fixpoint capitalSteps (start : JS.number) (capitals : list JS.number)
  : list (JS.number * JS.number) :=
  match capitals with
  | [] => []
  | c :: rest => (start, c) :: capitalSteps c rest
  end.

(** A row that accounts for the step of the no-withdrawal capital from
    [fst step] to [snd step]: its profit is the difference and its
    strategy return the profit over the capital before (0 when that is
    0); or, for the row of a point without a return, profit and return
    are 0 and the capital did not move. *)
Definition accountsFor (row : BacktestRow.t) (step : JS.number * JS.number) : Prop :=
  (BacktestRow.profit row = snd step - fst step
   /\ BacktestRow.strategyReturn row
      = if negb (fst step =? 0) then BacktestRow.profit row / fst step else 0)
  \/ (BacktestRow.profit row = 0 /\ BacktestRow.strategyReturn row = 0
      /\ snd step = fst step).

End Reference.

(** Sample inputs. *)
Module Sample.

Local Open Scope float_scope.

Definition leg (i : LegInstrument) (s : Side) (t : option OptionType)
  (k : option JS.number) (prem qty : JS.number) (c : option JS.number)
  : StrategyLeg :=
  {| id := String.EmptyString; instrument := i; side := s; type := t;
     strike := k; premium := prem; quantity := qty;
     symbol := String.EmptyString; contractSize := c |}.

(** A hundred shares sold short at 10. *)
Definition shortStock : StrategyLeg := leg UNDERLYING SELL None None 10 1 (Some 100).

(** One share bought at 10, with a negative contract size. *)
Definition stockSizeNegative : StrategyLeg :=
  leg UNDERLYING BUY None None 10 1 (Some (-1)).

(** One share bought at 10, restored without a contract size. *)
Definition stockSizeAbsent : StrategyLeg := leg UNDERLYING BUY None None 10 1 None.

(** A call at strike 30 sold for 1.50. *)
Definition shortCall : StrategyLeg :=
  leg OPTION SELL (Some CALL) (Some 30) 1.5 1 (Some 100).

(** A call at strike 32 bought for 0.50. *)
Definition longCall : StrategyLeg :=
  leg OPTION BUY (Some CALL) (Some 32) 0.5 1 (Some 100).

(** A curve whose profit crosses zero between -1 and 1, and again
    between the two infinities. *)
Definition divergingCurve : list PayoffData.t :=
  [ {| PayoffData.movePct := -10; PayoffData.profit := -1 |};
    {| PayoffData.movePct := 0; PayoffData.profit := 1 |};
    {| PayoffData.movePct := 10; PayoffData.profit := infinity |};
    {| PayoffData.movePct := 20; PayoffData.profit := neg_infinity |} ].

(** The bear call spread of the specification. *)
Definition bearCallSpread : list StrategyLeg := [shortCall; longCall].

(** A stand-in for [Math.pow] in examples: repeated multiplication for
    a whole exponent up to 1000, [NaN] otherwise. *)
Fixpoint powNat (b : JS.number) (n : nat) : JS.number :=
  match n with
  | O => 1
  | S n' => b * powNat b n'
  end.

Definition Math_pow (b e : JS.number) : JS.number :=
  match find (fun n => JS.of_nat n =? e) (seq 0 1001) with
  | Some n => powNat b n
  | None => nan
  end.

Definition date (year month : Z) (time : JS.number) : Date.t :=
  {| Date.getFullYear := year; Date.getMonth := month; Date.getTime := time |}.

Definition point (year month : Z) (time : JS.number) (returnPct : option JS.number)
  : HistoryPoint.t :=
  {| HistoryPoint.time := date year month time;
     HistoryPoint.close := 10;
     HistoryPoint.returnPct := returnPct |}.

Definition day : JS.number := 86400000.

(** A curve that pays 50 at every move. *)
Definition flatCurve : PayoffCurve.t :=
  {| PayoffCurve.basePrice := 30; PayoffCurve.variations := [-0.3; 0.3];
     PayoffCurve.returns := [50; 50] |}.

Definition request (history : list HistoryPoint.t) (applyLosses : bool)
  : BacktestInput.t :=
  {| BacktestInput.history := history;
     BacktestInput.payoff := flatCurve;
     BacktestInput.baseCapital := 1000;
     BacktestInput.monthlyWithdrawal := 0;
     BacktestInput.monthlyInvestment := None;
     BacktestInput.applyLosses := applyLosses;
     BacktestInput.frequency := MONTHLY |}.

(** January 2020 without a return, then October 2020. *)
Definition januaryOctober : list HistoryPoint.t :=
  [point 2020 0 0 None; point 2020 9 (day * 274) (Some 0.01)].

(** January and February 2020, both with a return. *)
Definition bothWithReturns : list HistoryPoint.t :=
  [point 2020 0 0 (Some 0.01); point 2020 1 (day * 31) (Some 0.01)].

(** January 2020 without a return, then June 2020. *)
Definition januaryJune : list HistoryPoint.t :=
  [point 2020 0 0 None; point 2020 5 (day * 152) (Some 0.01)].

(** January without a return, June, then two July samples, the first
    without a return. *)
Definition withGap : list HistoryPoint.t :=
  [point 2020 0 0 None; point 2020 5 (day * 152) (Some 0.01);
   point 2020 6 (day * 182) None; point 2020 6 (day * 189) (Some 0.02)].

(** A backtest request with no history and a base capital of 1000. *)
Definition noHistory : BacktestInput.t :=
  {| BacktestInput.history := [];
     BacktestInput.payoff := BacktestPanel.payoffCurve bearCallSpread 30;
     BacktestInput.baseCapital := 1000;
     BacktestInput.monthlyWithdrawal := 0;
     BacktestInput.monthlyInvestment := None;
     BacktestInput.applyLosses := false;
     BacktestInput.frequency := MONTHLY |}.

(** A stand-in for [new Date(ms)]: every date in January 2020. *)
Definition Date_new (ms : JS.number) : Date.t := date 2020 0 ms.

(** A response with three quotes, the last one without a close. *)
Definition response : YahooChartResponse.t :=
  {| YahooChartResponse.error := None;
     YahooChartResponse.timestamp := Some [1577923200; 1577836800; 1578009600];
     YahooChartResponse.close := Some [Some 11; Some 10; None] |}.

(** Monthly periods, no cash flows and no losses. *)
Definition settings : StrategySimulator.Settings :=
  {| StrategySimulator.monthlyWithdrawal := 0;
     StrategySimulator.monthlyInvestment := 0;
     StrategySimulator.applyLosses := false;
     StrategySimulator.frequency := MONTHLY |}.

(** The history with a gap, run monthly without losses, with 10 taken
    out and 3 put in every month. *)
Definition withCashFlows : BacktestInput.t :=
  {| BacktestInput.history := withGap;
     BacktestInput.payoff := flatCurve;
     BacktestInput.baseCapital := 1000;
     BacktestInput.monthlyWithdrawal := 10;
     BacktestInput.monthlyInvestment := Some 3;
     BacktestInput.applyLosses := false;
     BacktestInput.frequency := MONTHLY |}.

End Sample.

(** * Properties *)

(** ** Facts about numbers *)

Module JSFacts.

Local Open Scope float_scope.

Lemma SFcompare_refl_finite s m e :
  SFcompare (S754_finite s m e) (S754_finite s m e) = Some Eq.
Proof.
  simpl. rewrite Z.compare_refl.
  change (Pos.compare_cont Eq m m) with (Pos.compare m m).
  rewrite Pos.compare_refl. destruct s; reflexivity.
Qed.

Lemma SFeqb_true a b : SFeqb a b = true -> sf_same a b.
Proof.
  unfold SFeqb, sf_same.
  destruct a as [s|s| |s m e], b as [t|t| |t n f]; simpl;
    try discriminate; try (destruct s; discriminate);
    try (destruct t; discriminate).
  - intros _. right. eauto.
  - destruct s, t; try discriminate; intros _; left; reflexivity.
  - destruct s, t; try discriminate.
    + destruct (Z.compare e f) eqn:E; try discriminate.
      apply Z.compare_eq in E. subst f.
      change (Pos.compare_cont Eq m n) with (Pos.compare m n).
      destruct (Pos.compare m n) eqn:M; try discriminate.
      apply Pos.compare_eq in M. subst n. intros _. left. reflexivity.
    + destruct (Z.compare e f) eqn:E; try discriminate.
      apply Z.compare_eq in E. subst f.
      change (Pos.compare_cont Eq m n) with (Pos.compare m n).
      destruct (Pos.compare m n) eqn:M; try discriminate.
      apply Pos.compare_eq in M. subst n. intros _. left. reflexivity.
Qed.

Lemma SFeqb_refl a : a <> S754_nan -> SFeqb a a = true.
Proof.
  unfold SFeqb. destruct a as [s|s| |s m e]; intros H.
  - reflexivity.
  - destruct s; reflexivity.
  - contradiction.
  - rewrite SFcompare_refl_finite. reflexivity.
Qed.

Lemma is_nan_spec x : is_nan x = true <-> Prim2SF x = S754_nan.
Proof.
  unfold is_nan. rewrite eqb_spec. split.
  - destruct (Prim2SF x) as [s|s| |s m e] eqn:E; try reflexivity.
    all: rewrite SFeqb_refl by discriminate; discriminate.
  - intros ->. reflexivity.
Qed.

Lemma SameValueZero_spec x y :
  JS.SameValueZero x y = true <-> sf_same (Prim2SF x) (Prim2SF y).
Proof.
  unfold JS.SameValueZero. split.
  - intros H. apply orb_true_iff in H. destruct H as [H|H].
    + rewrite eqb_spec in H. apply SFeqb_true. exact H.
    + apply andb_true_iff in H. destruct H as [Hx Hy].
      apply is_nan_spec in Hx. apply is_nan_spec in Hy.
      left. congruence.
  - intros [H|(s & t & Hx & Hy)].
    + destruct (is_nan x) eqn:Nx.
      * assert (Ny : is_nan y = true).
        { apply is_nan_spec. apply is_nan_spec in Nx. congruence. }
        rewrite Ny. apply orb_true_r.
      * rewrite eqb_spec, <- H, SFeqb_refl; [reflexivity|].
        intros E. apply is_nan_spec in E. congruence.
    + rewrite eqb_spec, Hx, Hy. reflexivity.
Qed.

Lemma SameValueZero_refl x : JS.SameValueZero x x = true.
Proof. apply SameValueZero_spec. left. reflexivity. Qed.

Lemma sf_same_sym a b : sf_same a b -> sf_same b a.
Proof.
  intros [H|(s & t & Ha & Hb)]; [left; congruence|right; eauto].
Qed.

Lemma sf_same_trans a b c : sf_same a b -> sf_same b c -> sf_same a c.
Proof.
  intros [H|(s & t & Ha & Hb)] [K|(u & v & Hb' & Hc)]; subst.
  - left; reflexivity.
  - right; eauto.
  - right; eauto.
  - right; eauto.
Qed.

(** Multiplication respects [sf_same]. *)
Lemma SFmul_same a b c :
  sf_same a b -> sf_same (SF64mul a c) (SF64mul b c).
Proof.
  intros [H|(s & t & Ha & Hb)]; subst.
  - left; reflexivity.
  - unfold SF64mul. destruct c as [u|u| |u m e]; simpl.
    + right; eauto.
    + left; reflexivity.
    + left; reflexivity.
    + right; eauto.
Qed.

Lemma mul_same x y z :
  JS.SameValueZero x y = true -> JS.SameValueZero (x * z) (y * z) = true.
Proof.
  rewrite !SameValueZero_spec, !mul_spec. apply SFmul_same.
Qed.

(** *** Rounding never loses a non-zero value

    A positive mantissa at an exponent of at least [emin] rounds to a
    finite non-zero number or to infinity, with the sign it was given. *)

(** Linear arithmetic over the exponent functions of [SpecFloat]. *)
Ltac sf_lia :=
  unfold fexp, SpecFloat.emin, prec, emax in *;
  change IntDef.Z.max with Z.max in *;
  change IntDef.Z.min with Z.min in *;
  lia.

Lemma shr_1_pos mrs p :
  shr_m mrs = Z.pos p -> (1 < Z.pos (digits2_pos p))%Z ->
  exists q, shr_m (shr_1 mrs) = Z.pos q
            /\ Z.pos (digits2_pos q) = (Z.pos (digits2_pos p) - 1)%Z.
Proof.
  destruct mrs as [m r t]. cbn [shr_m]. intros -> H.
  destruct p as [p|p|]; cbn [shr_1 shr_m digits2_pos] in *.
  - exists p. split; [reflexivity|lia].
  - exists p. split; [reflexivity|lia].
  - lia.
Qed.

Lemma iter_shr_1_pos n : forall mrs p,
  shr_m mrs = Z.pos p -> (Z.pos n < Z.pos (digits2_pos p))%Z ->
  exists q, shr_m (iter_pos shr_1 n mrs) = Z.pos q
            /\ Z.pos (digits2_pos q) = (Z.pos (digits2_pos p) - Z.pos n)%Z.
Proof.
  induction n as [n IH|n IH|]; intros mrs p Hm Hn; cbn [iter_pos].
  - destruct (shr_1_pos mrs p Hm) as (q1 & H1 & D1); [lia|].
    destruct (IH _ _ H1) as (q2 & H2 & D2); [lia|].
    destruct (IH _ _ H2) as (q3 & H3 & D3); [lia|].
    exists q3. split; [exact H3|lia].
  - destruct (IH _ _ Hm) as (q2 & H2 & D2); [lia|].
    destruct (IH _ _ H2) as (q3 & H3 & D3); [lia|].
    exists q3. split; [exact H3|lia].
  - apply shr_1_pos; assumption.
Qed.

Lemma shr_fexp_pos p e l :
  (emin <= e)%Z ->
  exists mrs e' q,
    shr_fexp prec emax (Z.pos p) e l = (mrs, e')
    /\ shr_m mrs = Z.pos q /\ (emin <= e')%Z.
Proof.
  intros He. unfold shr_fexp, shr.
  assert (H0 : shr_m (shr_record_of_loc (Z.pos p) l) = Z.pos p).
  { destruct l as [|[]]; reflexivity. }
  destruct (fexp prec emax (Zdigits2 (Z.pos p) + e) - e)%Z as [|k|k] eqn:K.
  - eauto 6.
  - destruct (iter_shr_1_pos k _ p H0) as (q & Hq & _).
    { revert K. cbn [Zdigits2]. sf_lia. }
    do 3 eexists. split; [reflexivity|]. split; [exact Hq|lia].
  - eauto 6.
Qed.

Lemma round_nearest_even_pos q l :
  exists q', round_nearest_even (Z.pos q) l = Z.pos q'.
Proof.
  destruct l as [|[]]; simpl; eauto.
  destruct q; simpl; eauto.
Qed.

Lemma binary_round_aux_pos s p e l :
  (emin <= e)%Z ->
  sf_signed_nonzero s (binary_round_aux prec emax s (Z.pos p) e l).
Proof.
  intros He. unfold binary_round_aux.
  destruct (shr_fexp_pos p e l He) as (mrs1 & e1 & q1 & -> & Hq1 & He1).
  rewrite Hq1.
  destruct (round_nearest_even_pos q1 (loc_of_shr_record mrs1)) as (q2 & ->).
  destruct (shr_fexp_pos q2 e1 loc_Exact He1) as (mrs3 & e3 & q3 & -> & Hq3 & _).
  rewrite Hq3.
  destruct (e3 <=? emax - prec)%Z; [left; eauto|right; reflexivity].
Qed.

Lemma binary_round_pos s p e :
  (emin <= e)%Z -> sf_signed_nonzero s (binary_round prec emax s p e).
Proof.
  intros He. unfold binary_round, shl_align.
  destruct (fexp prec emax (Z.pos (digits2_pos p) + e) - e)%Z eqn:K.
  - apply binary_round_aux_pos. exact He.
  - apply binary_round_aux_pos. exact He.
  - apply binary_round_aux_pos. sf_lia.
Qed.

(** A valid finite number has an exponent of at least [emin]. *)
Lemma valid_exponent x s m e :
  Prim2SF x = S754_finite s m e -> (emin <= e)%Z.
Proof.
  intros H. pose proof (Prim2SF_valid x) as V. rewrite H in V.
  simpl in V. unfold bounded, canonical_mantissa in V.
  apply andb_true_iff in V. destruct V as [V _].
  apply Z.eqb_eq in V. revert V. sf_lia.
Qed.

(** *** Negation and subtraction *)

Lemma binary_round_aux_opp s m e l :
  SFopp (binary_round_aux prec emax s m e l)
  = binary_round_aux prec emax (negb s) m e l.
Proof.
  unfold binary_round_aux.
  destruct (shr_fexp prec emax m e l) as [mrs1 e1].
  destruct (shr_fexp prec emax _ e1 loc_Exact) as [mrs2 e2].
  destruct (shr_m mrs2); [reflexivity| |reflexivity].
  destruct (IntDef.Z.leb e2 (IntDef.Z.sub emax prec)); reflexivity.
Qed.

Lemma binary_round_opp s m e :
  SFopp (binary_round prec emax s m e) = binary_round prec emax (negb s) m e.
Proof.
  unfold binary_round.
  destruct (shl_align m e _) as [mz ez]. apply binary_round_aux_opp.
Qed.

Lemma binary_normalize_opp d e :
  sf_same (SFopp (binary_normalize prec emax d e false))
          (binary_normalize prec emax (- d) e false).
Proof.
  destruct d as [|p|p]; simpl.
  - right. eauto.
  - left. apply binary_round_opp.
  - left. apply binary_round_opp.
Qed.

Lemma SFsub_opp a b : sf_same (SFopp (SF64sub a b)) (SF64sub b a).
Proof.
  unfold SF64sub.
  destruct a as [s|s| |s m e], b as [t|t| |t n f];
    try (left; reflexivity);
    try solve [destruct s, t; simpl; solve [left; reflexivity | right; eauto]].
  unfold SFsub.
  change IntDef.Z.min with Z.min. change IntDef.Z.sub with Z.sub.
  rewrite (Z.min_comm f e).
  match goal with
  | |- sf_same (SFopp (binary_normalize _ _ (?A - ?B)%Z _ _)) _ =>
      replace (B - A)%Z with (- (A - B))%Z by lia
  end.
  apply binary_normalize_opp.
Qed.

Lemma opp_sub_same a b : JS.SameValueZero (- (a - b)) (b - a) = true.
Proof.
  apply SameValueZero_spec. rewrite opp_spec, !sub_spec. apply SFsub_opp.
Qed.

(** *** Subtracting and adding zero *)

Lemma Prim2SF_zero : Prim2SF 0 = S754_zero false.
Proof. reflexivity. Qed.

Lemma SF_sub0_add0 a :
  sf_same (SF64add (SF64sub a (S754_zero false)) (S754_zero false)) a.
Proof.
  destruct a as [s|s| |s m e]; try (left; reflexivity).
  destruct s; right; simpl; eauto.
Qed.

Lemma sub0_add0_same x : JS.SameValueZero (x - 0 + 0) x = true.
Proof.
  apply SameValueZero_spec. rewrite add_spec, sub_spec, Prim2SF_zero.
  apply SF_sub0_add0.
Qed.

Lemma SameValueZero_sym x y :
  JS.SameValueZero x y = true -> JS.SameValueZero y x = true.
Proof. rewrite !SameValueZero_spec. apply sf_same_sym. Qed.

Lemma SameValueZero_trans x y z :
  JS.SameValueZero x y = true -> JS.SameValueZero y z = true ->
  JS.SameValueZero x z = true.
Proof. rewrite !SameValueZero_spec. apply sf_same_trans. Qed.

(** *** A positive number minus a non-positive one is never zero *)

Lemma SFsub_pos_nonpos r l :
  valid_binary r = true -> valid_binary l = true ->
  SFltb (S754_zero false) r = true -> SFleb l (S754_zero false) = true ->
  sf_signed_nonzero false (SF64sub r l).
Proof.
  intros Vr Vl Hr Hl. unfold SF64sub.
  destruct r as [s|s| |s m e]; try discriminate;
    destruct s; try discriminate;
    destruct l as [t|t| |t n f]; try discriminate;
    try (destruct t; try discriminate);
    try (right; reflexivity); try (left; simpl; eauto; fail).
  unfold SFsub. cbn [cond_Zopp].
  change IntDef.Z.sub with Z.sub. change IntDef.Z.opp with Z.opp.
  match goal with
  | |- context [(Z.pos ?a - - Z.pos ?b)%Z] =>
      replace (Z.pos a - - Z.pos b)%Z with (Z.pos (a + b)) by lia
  end.
  cbn [binary_normalize]. apply binary_round_pos.
  simpl in Vr, Vl. unfold bounded, canonical_mantissa in Vr, Vl.
  apply andb_true_iff in Vr, Vl. destruct Vr as [Vr _], Vl as [Vl _].
  apply Z.eqb_eq in Vr, Vl. revert Vr Vl. sf_lia.
Qed.

Lemma signed_nonzero_eqb_zero s x :
  sf_signed_nonzero s x -> SFeqb x (S754_zero false) = false.
Proof.
  intros [(m & e & ->)| ->]; unfold SFeqb; simpl; destruct s; reflexivity.
Qed.

Lemma sub_pos_nonpos_nonzero r l :
  (0 <? r) = true -> (l <=? 0) = true -> (r - l =? 0) = false.
Proof.
  rewrite ltb_spec, leb_spec, eqb_spec, sub_spec, Prim2SF_zero.
  intros Hr Hl.
  apply (signed_nonzero_eqb_zero false).
  apply SFsub_pos_nonpos; auto using Prim2SF_valid.
Qed.

Lemma sub_neg_nonneg_nonzero r l :
  (r <? 0) = true -> (0 <=? l) = true -> (r - l =? 0) = false.
Proof.
  intros Hr Hl.
  pose proof (opp_sub_same l r) as S.
  apply SameValueZero_spec in S. rewrite opp_spec, !sub_spec in S.
  rewrite ltb_spec, Prim2SF_zero in Hr. rewrite leb_spec, Prim2SF_zero in Hl.
  assert (N : sf_signed_nonzero false (SF64sub (Prim2SF l) (Prim2SF r))).
  { pose proof (Prim2SF_valid l) as Vl. pose proof (Prim2SF_valid r) as Vr.
    unfold SF64sub.
    destruct (Prim2SF l) as [s|s| |s m e]; try discriminate;
      try (destruct s; try discriminate);
      destruct (Prim2SF r) as [t|t| |t n f]; try discriminate;
      try (destruct t; try discriminate);
      try (right; reflexivity); try (left; simpl; eauto; fail).
    - unfold SFsub. cbn [cond_Zopp].
      change IntDef.Z.sub with Z.sub. change IntDef.Z.opp with Z.opp.
      match goal with
      | |- context [(Z.pos ?a - - Z.pos ?b)%Z] =>
          replace (Z.pos a - - Z.pos b)%Z with (Z.pos (a + b)) by lia
      end.
      cbn [binary_normalize]. apply binary_round_pos.
      simpl in Vr, Vl. unfold bounded, canonical_mantissa in Vr, Vl.
      apply andb_true_iff in Vr, Vl. destruct Vr as [Vr _], Vl as [Vl _].
      apply Z.eqb_eq in Vr, Vl. revert Vr Vl. sf_lia. }
  rewrite eqb_spec, sub_spec, Prim2SF_zero.
  destruct S as [S|(s & t & S1 & S2)].
  - destruct N as [(m & e & N)| N]; rewrite N in S; simpl in S;
      rewrite <- S; reflexivity.
  - destruct N as [(m & e & N)| N]; rewrite N in S1; discriminate.
Qed.

(** *** A smaller number minus a larger one is negative *)

Lemma digits2_size p : digits2_pos p = Pos.size p.
Proof. induction p as [p IH|p IH|]; cbn; rewrite ?IH; reflexivity. Qed.

Lemma mantissa_upper p : (Z.pos p < 2 ^ Z.pos (digits2_pos p))%Z.
Proof.
  rewrite digits2_size. pose proof (Pos.size_gt p) as H.
  apply Pos2Z.pos_lt_pos in H. rewrite Pos2Z.inj_pow in H. exact H.
Qed.

Lemma mantissa_lower p : (2 ^ Z.pos (digits2_pos p) <= 2 * Z.pos p)%Z.
Proof.
  rewrite digits2_size. pose proof (Pos.size_le p) as H.
  apply Pos2Z.pos_le_pos in H. rewrite Pos2Z.inj_pow in H. exact H.
Qed.

Lemma iter_xO_value p d : Z.pos (Pos.iter xO p d) = (Z.pos p * 2 ^ Z.pos d)%Z.
Proof.
  apply (Pos.iter_ind _ xO p (fun d q => Z.pos q = (Z.pos p * 2 ^ Z.pos d)%Z)).
  - rewrite Z.pow_1_r. lia.
  - intros d' q IH. rewrite Pos2Z.inj_succ, Z.pow_succ_r by lia.
    rewrite Pos2Z.inj_xO, IH. lia.
Qed.

Lemma shl_align_value m e e' :
  (e' <= e)%Z -> Z.pos (fst (shl_align m e e')) = (Z.pos m * 2 ^ (e - e'))%Z.
Proof.
  intros H. unfold shl_align. change IntDef.Z.sub with Z.sub.
  destruct (e' - e)%Z as [|d|d] eqn:D; cbn [fst].
  - replace (e - e')%Z with 0%Z by lia. lia.
  - lia.
  - rewrite iter_xO_value. replace (e - e')%Z with (Z.pos d) by lia. reflexivity.
Qed.

(** The mantissa of a valid number has at most [prec] digits, and
    exactly [prec] above the smallest exponent. *)
Lemma bounded_digits m e :
  bounded prec emax m e = true ->
  (Z.pos (digits2_pos m) <= prec)%Z
  /\ (emin <= e)%Z
  /\ (emin < e -> Z.pos (digits2_pos m) = prec)%Z.
Proof.
  unfold bounded, canonical_mantissa. intros H.
  apply andb_true_iff in H. destruct H as [H _].
  apply Z.eqb_eq in H. revert H. sf_lia.
Qed.

(** Aligned to the smaller exponent, the smaller of two valid positive
    numbers has the smaller mantissa. *)
Lemma aligned_lt mx ex my ey :
  bounded prec emax mx ex = true -> bounded prec emax my ey = true ->
  (ex < ey \/ (ex = ey /\ Z.pos mx < Z.pos my))%Z ->
  (Z.pos (fst (shl_align mx ex (Z.min ex ey)))
   < Z.pos (fst (shl_align my ey (Z.min ex ey))))%Z.
Proof.
  intros Bx By H. rewrite !shl_align_value by lia.
  destruct H as [H|[-> H]].
  - rewrite Z.min_l by lia. rewrite Z.sub_diag, Z.pow_0_r, Z.mul_1_r.
    destruct (bounded_digits mx ex Bx) as (Dx & Ex & _).
    destruct (bounded_digits my ey By) as (_ & _ & Dy).
    pose proof (mantissa_upper mx) as Ux.
    pose proof (mantissa_lower my) as Ly. rewrite Dy in Ly by lia.
    assert (P : (2 ^ Z.pos (digits2_pos mx) <= 2 ^ prec)%Z).
    { apply Z.pow_le_mono_r; lia. }
    assert (Q : (2 ^ 1 <= 2 ^ (ey - ex))%Z).
    { apply Z.pow_le_mono_r; lia. }
    rewrite Z.pow_1_r in Q. nia.
  - rewrite Z.min_id, Z.sub_diag, Z.pow_0_r. lia.
Qed.

Lemma compare_lt_cases (e f : Z) (m n : positive) :
  match (e ?= f)%Z with
  | Lt => Lt
  | Gt => Gt
  | Eq => Pos.compare_cont Eq m n
  end = Lt ->
  (e < f \/ (e = f /\ Z.pos m < Z.pos n))%Z.
Proof.
  destruct (e ?= f)%Z eqn:E; try discriminate.
  - apply Z.compare_eq in E. subst f.
    change (Pos.compare_cont Eq m n) with (Pos.compare m n). intros H.
    right. split; [reflexivity|]. apply Pos2Z.pos_lt_pos. exact H.
  - intros _. left. apply Z.compare_lt_iff. exact E.
Qed.

Lemma compare_gt_cases (e f : Z) (m n : positive) :
  match (e ?= f)%Z with
  | Lt => Gt
  | Gt => Lt
  | Eq => CompOpp (Pos.compare_cont Eq m n)
  end = Lt ->
  (f < e \/ (f = e /\ Z.pos n < Z.pos m))%Z.
Proof.
  destruct (e ?= f)%Z eqn:E; try discriminate.
  - apply Z.compare_eq in E. subst f.
    change (Pos.compare_cont Eq m n) with (Pos.compare m n). intros H.
    right. split; [reflexivity|].
    destruct (Pos.compare m n) eqn:C; try discriminate.
    apply Pos2Z.pos_lt_pos. apply Pos.compare_gt_iff. exact C.
  - intros _. left. apply Z.compare_gt_iff in E. lia.
Qed.

Lemma is_Lt (c : comparison) :
  match c with Lt => true | _ => false end = true -> c = Lt.
Proof. destruct c; [discriminate|reflexivity|discriminate]. Qed.

Lemma binary_normalize_neg p e :
  (emin <= e)%Z ->
  sf_signed_nonzero true (binary_normalize prec emax (Z.neg p) e false).
Proof. intros H. cbn [binary_normalize]. apply binary_round_pos. exact H. Qed.

Lemma SFsub_lt x y :
  valid_binary x = true -> valid_binary y = true ->
  SFltb x y = true -> sf_signed_nonzero true (SF64sub x y).
Proof.
  intros Vx Vy H. unfold SFltb in H. unfold SF64sub.
  destruct x as [s|s| |s m e], y as [t|t| |t n f]; cbn in H;
    try discriminate;
    try (destruct s; try discriminate); try (destruct t; try discriminate);
    try (right; reflexivity); try (left; cbn; eauto; fail).
  - (* both negative *)
    cbn in Vx, Vy.
    apply is_Lt in H. apply compare_gt_cases in H.
    pose proof (aligned_lt n f m e Vy Vx H) as A.
    unfold SFsub. cbn [cond_Zopp].
    change IntDef.Z.sub with Z.sub. change IntDef.Z.opp with Z.opp.
    change IntDef.Z.min with Z.min. rewrite (Z.min_comm f e) in A.
    destruct (- Z.pos (fst (shl_align m e (Z.min e f)))
              - - Z.pos (fst (shl_align n f (Z.min e f))))%Z as [|p|p] eqn:D;
      try lia.
    apply binary_normalize_neg.
    destruct (bounded_digits m e Vx) as (_ & Em & _).
    destruct (bounded_digits n f Vy) as (_ & En & _). lia.
  - (* negative minus positive *)
    cbn in Vx, Vy.
    unfold SFsub. cbn [cond_Zopp].
    change IntDef.Z.sub with Z.sub. change IntDef.Z.opp with Z.opp.
    change IntDef.Z.min with Z.min.
    destruct (- Z.pos (fst (shl_align m e (Z.min e f)))
              - Z.pos (fst (shl_align n f (Z.min e f))))%Z as [|p|p] eqn:D;
      try lia.
    apply binary_normalize_neg.
    destruct (bounded_digits m e Vx) as (_ & Em & _).
    destruct (bounded_digits n f Vy) as (_ & En & _). lia.
  - (* both positive *)
    cbn in Vx, Vy.
    apply is_Lt in H. apply compare_lt_cases in H.
    pose proof (aligned_lt m e n f Vx Vy H) as A.
    unfold SFsub. cbn [cond_Zopp].
    change IntDef.Z.sub with Z.sub. change IntDef.Z.min with Z.min.
    destruct (Z.pos (fst (shl_align m e (Z.min e f)))
              - Z.pos (fst (shl_align n f (Z.min e f))))%Z as [|p|p] eqn:D;
      try lia.
    apply binary_normalize_neg.
    destruct (bounded_digits m e Vx) as (_ & Em & _).
    destruct (bounded_digits n f Vy) as (_ & En & _). lia.
Qed.

Lemma ltb_sub x y : (x <? y) = true -> (x - y <? 0) = true.
Proof.
  rewrite !ltb_spec, sub_spec, Prim2SF_zero. intros H.
  destruct (SFsub_lt _ _ (Prim2SF_valid x) (Prim2SF_valid y) H)
    as [(m & e & ->)| ->]; reflexivity.
Qed.

(** *** Comparisons of numbers other than NaN *)

Lemma SFcompare_antisym x y :
  SFcompare y x = option_map CompOpp (SFcompare x y).
Proof.
  destruct x as [s|s| |s m e], y as [t|t| |t n f]; cbn;
    try reflexivity; try (destruct s; reflexivity); try (destruct t; reflexivity);
    try (destruct s, t; reflexivity).
  change IntDef.Z.compare with Z.compare.
  change (PosDef.Pos.compare_cont Eq n m) with (Pos.compare n m).
  change (PosDef.Pos.compare_cont Eq m n) with (Pos.compare m n).
  rewrite (Z.compare_antisym e f), (Pos.compare_antisym m n).
  destruct s, t; try reflexivity;
    destruct (e ?= f)%Z; cbn; try reflexivity;
    destruct (Pos.compare m n); reflexivity.
Qed.

Lemma not_ltb_leb a b :
  is_nan a = false -> is_nan b = false -> (b <? a) = false -> (a <=? b) = true.
Proof.
  intros Na Nb. rewrite ltb_spec, leb_spec. unfold SFltb, SFleb.
  rewrite (SFcompare_antisym (Prim2SF a) (Prim2SF b)).
  assert (Ha : Prim2SF a <> S754_nan).
  { intros E. apply is_nan_spec in E. congruence. }
  assert (Hb : Prim2SF b <> S754_nan).
  { intros E. apply is_nan_spec in E. congruence. }
  destruct (SFcompare (Prim2SF a) (Prim2SF b)) as [[| |]|] eqn:C; cbn;
    try reflexivity; try discriminate.
  exfalso.
  destruct (Prim2SF a) as [s|s| |s m e], (Prim2SF b) as [t|t| |t n f];
    cbn in C; try discriminate; try (apply Ha; reflexivity);
    apply Hb; reflexivity.
Qed.

End JSFacts.

(** ** The order of the numbers *)

Module OrderFacts.

Local Open Scope float_scope.

Lemma bounded_upper m e : bounded prec emax m e = true -> (e <= emax - prec)%Z.
Proof.
  unfold bounded. intros H. apply andb_true_iff in H. destruct H as [_ H].
  apply Z.leb_le. exact H.
Qed.

Lemma mantissa_bound m e : bounded prec emax m e = true -> (Z.pos m < 2 ^ 53)%Z.
Proof.
  intros H. destruct (JSFacts.bounded_digits m e H) as (D & _ & _).
  pose proof (JSFacts.mantissa_upper m) as U.
  assert (Q : (2 ^ Z.pos (digits2_pos m) <= 2 ^ 53)%Z).
  { apply Z.pow_le_mono_r; [lia|]. exact D. }
  lia.
Qed.

Lemma ord_sf_compare x y :
  valid_binary x = true -> valid_binary y = true ->
  x <> S754_nan -> y <> S754_nan ->
  SFcompare x y = Some (Reference.ord_sf x ?= Reference.ord_sf y)%Z.
Proof.
  intros Vx Vy Nx Ny.
  destruct x as [s|s| |s m e], y as [t|t| |t n f];
    try (exfalso; apply Nx; reflexivity); try (exfalso; apply Ny; reflexivity);
    cbn [valid_binary] in Vx, Vy.
  all: try (pose proof (mantissa_bound _ _ Vx));
       try (pose proof (mantissa_bound _ _ Vy));
       try (pose proof (bounded_upper _ _ Vx));
       try (pose proof (bounded_upper _ _ Vy));
       try (destruct (JSFacts.bounded_digits _ _ Vx) as (_ & ? & _));
       try (destruct (JSFacts.bounded_digits _ _ Vy) as (_ & ? & _)).
  all: unfold emax, prec, SpecFloat.emin in *.
  all: cbn [SFcompare Reference.ord_sf]; f_equal; symmetry.
  all: try (destruct s); try (destruct t); cbn [cond_Zopp].
  all: try (apply Z.compare_eq_iff; lia);
       try (apply Z.compare_lt_iff; lia);
       try (apply Z.compare_gt_iff; lia).
  - change IntDef.Z.compare with Z.compare.
    change (PosDef.Pos.compare_cont Eq m n) with (Pos.compare m n).
    destruct (Z.compare_spec e f) as [E|E|E].
    + subst f. destruct (Pos.compare_spec m n) as [F|F|F]; cbn [CompOpp].
      * subst n. apply Z.compare_eq_iff. reflexivity.
      * apply Z.compare_gt_iff. lia.
      * apply Z.compare_lt_iff. lia.
    + apply Z.compare_gt_iff. lia.
    + apply Z.compare_lt_iff. lia.
  - change IntDef.Z.compare with Z.compare.
    change (PosDef.Pos.compare_cont Eq m n) with (Pos.compare m n).
    destruct (Z.compare_spec e f) as [E|E|E].
    + subst f. destruct (Pos.compare_spec m n) as [F|F|F].
      * subst n. apply Z.compare_eq_iff. reflexivity.
      * apply Z.compare_lt_iff. lia.
      * apply Z.compare_gt_iff. lia.
    + apply Z.compare_lt_iff. lia.
    + apply Z.compare_gt_iff. lia.
Qed.

Lemma not_nan x : is_nan x = false -> Prim2SF x <> S754_nan.
Proof. intros H E. apply JSFacts.is_nan_spec in E. congruence. Qed.

Lemma compare_ord x y :
  is_nan x = false -> is_nan y = false ->
  SFcompare (Prim2SF x) (Prim2SF y) = Some (Reference.ord x ?= Reference.ord y)%Z.
Proof.
  intros Nx Ny. apply ord_sf_compare; auto using Prim2SF_valid, not_nan.
Qed.

Lemma ltb_ord x y :
  is_nan x = false -> is_nan y = false ->
  (x <? y) = (Reference.ord x <? Reference.ord y)%Z.
Proof.
  intros Nx Ny. rewrite ltb_spec. unfold SFltb, Z.ltb.
  rewrite (compare_ord x y Nx Ny). reflexivity.
Qed.

Lemma leb_ord x y :
  is_nan x = false -> is_nan y = false ->
  (x <=? y) = (Reference.ord x <=? Reference.ord y)%Z.
Proof.
  intros Nx Ny. rewrite leb_spec. unfold SFleb, Z.leb.
  rewrite (compare_ord x y Nx Ny).
  destruct (Reference.ord x ?= Reference.ord y)%Z; reflexivity.
Qed.

Lemma eqb_ord x y :
  is_nan x = false -> is_nan y = false ->
  (x =? y) = (Reference.ord x =? Reference.ord y)%Z.
Proof.
  intros Nx Ny. rewrite eqb_spec. unfold SFeqb.
  rewrite (compare_ord x y Nx Ny).
  destruct (Z.compare_spec (Reference.ord x) (Reference.ord y)) as [E|E|E]; symmetry.
  - apply Z.eqb_eq. exact E.
  - apply Z.eqb_neq. lia.
  - apply Z.eqb_neq. lia.
Qed.

(** A comparison with NaN is false. *)
Lemma compare_nan x y :
  is_nan x = true \/ is_nan y = true -> SFcompare (Prim2SF x) (Prim2SF y) = None.
Proof.
  intros [H|H]; apply JSFacts.is_nan_spec in H; rewrite H;
    [reflexivity|destruct (Prim2SF x); reflexivity].
Qed.

Lemma ltb_nan x y : is_nan x = true \/ is_nan y = true -> (x <? y) = false.
Proof. intros H. rewrite ltb_spec. unfold SFltb. rewrite (compare_nan x y H). reflexivity. Qed.

Lemma leb_nan x y : is_nan x = true \/ is_nan y = true -> (x <=? y) = false.
Proof. intros H. rewrite leb_spec. unfold SFleb. rewrite (compare_nan x y H). reflexivity. Qed.

Lemma eqb_nan x y : is_nan x = true \/ is_nan y = true -> (x =? y) = false.
Proof. intros H. rewrite eqb_spec. unfold SFeqb. rewrite (compare_nan x y H). reflexivity. Qed.

Lemma ltb_true x y :
  (x <? y) = true ->
  is_nan x = false /\ is_nan y = false /\ (Reference.ord x < Reference.ord y)%Z.
Proof.
  intros H.
  destruct (is_nan x) eqn:Nx; [rewrite ltb_nan in H; [discriminate|auto]|].
  destruct (is_nan y) eqn:Ny; [rewrite ltb_nan in H; [discriminate|auto]|].
  rewrite (ltb_ord x y Nx Ny) in H. apply Z.ltb_lt in H. auto.
Qed.

Lemma leb_true x y :
  (x <=? y) = true ->
  is_nan x = false /\ is_nan y = false /\ (Reference.ord x <= Reference.ord y)%Z.
Proof.
  intros H.
  destruct (is_nan x) eqn:Nx; [rewrite leb_nan in H; [discriminate|auto]|].
  destruct (is_nan y) eqn:Ny; [rewrite leb_nan in H; [discriminate|auto]|].
  rewrite (leb_ord x y Nx Ny) in H. apply Z.leb_le in H. auto.
Qed.

Lemma eqb_true x y :
  (x =? y) = true ->
  is_nan x = false /\ is_nan y = false /\ Reference.ord x = Reference.ord y.
Proof.
  intros H.
  destruct (is_nan x) eqn:Nx; [rewrite eqb_nan in H; [discriminate|auto]|].
  destruct (is_nan y) eqn:Ny; [rewrite eqb_nan in H; [discriminate|auto]|].
  rewrite (eqb_ord x y Nx Ny) in H. apply Z.eqb_eq in H. auto.
Qed.

Lemma ord_zero : Reference.ord 0 = 0%Z.
Proof. reflexivity. Qed.

Lemma is_zero_ord x : is_nan x = false -> is_zero x = (Reference.ord x =? 0)%Z.
Proof.
  intros N. unfold is_zero. change zero with 0%float.
  rewrite (eqb_ord x 0 N eq_refl). reflexivity.
Qed.

Lemma ord_opp x : Reference.ord (- x) = (- Reference.ord x)%Z.
Proof.
  unfold Reference.ord. rewrite opp_spec.
  destruct (Prim2SF x) as [s|s| |s m e]; cbn [SFopp Reference.ord_sf];
    try reflexivity; destruct s; cbn [cond_Zopp negb];
    change IntDef.Z.opp with Z.opp; lia.
Qed.

Lemma is_nan_opp x : is_nan (- x) = is_nan x.
Proof.
  destruct (is_nan x) eqn:N.
  - apply JSFacts.is_nan_spec. apply JSFacts.is_nan_spec in N.
    rewrite opp_spec, N. reflexivity.
  - destruct (is_nan (- x)) eqn:M; [|reflexivity].
    apply JSFacts.is_nan_spec in M. rewrite opp_spec in M.
    apply not_nan in N. destruct (Prim2SF x); try discriminate. congruence.
Qed.

Lemma ord_abs x : Reference.ord (abs x) = Z.abs (Reference.ord x).
Proof.
  unfold Reference.ord. rewrite abs_spec.
  pose proof (Prim2SF_valid x) as V.
  destruct (Prim2SF x) as [s|s| |s m e]; cbn [SFabs Reference.ord_sf];
    try reflexivity.
  - destruct s; cbn [cond_Zopp]; change IntDef.Z.opp with Z.opp; lia.
  - cbn [valid_binary] in V.
    destruct (JSFacts.bounded_digits _ _ V) as (_ & E & _).
    unfold SpecFloat.emin, emax, prec in E.
    destruct s; cbn [cond_Zopp]; change IntDef.Z.opp with Z.opp; lia.
Qed.

Lemma is_nan_abs x : is_nan (abs x) = is_nan x.
Proof.
  destruct (is_nan x) eqn:N.
  - apply JSFacts.is_nan_spec. apply JSFacts.is_nan_spec in N.
    rewrite abs_spec, N. reflexivity.
  - destruct (is_nan (abs x)) eqn:M; [|reflexivity].
    apply JSFacts.is_nan_spec in M. rewrite abs_spec in M.
    apply not_nan in N. destruct (Prim2SF x); try discriminate. congruence.
Qed.

(** [Math.max] and [Math.min] of two numbers other than NaN. *)
Lemma Math_max_nan a b : is_nan (JS.Math_max a b) = is_nan a || is_nan b.
Proof.
  unfold JS.Math_max. destruct (is_nan a) eqn:Na; [reflexivity|].
  destruct (is_nan b) eqn:Nb; [reflexivity|]. cbn [orb].
  destruct (a <? b); [exact Nb|]. destruct (b <? a); [exact Na|].
  destruct (get_sign a); assumption.
Qed.

Lemma Math_min_nan a b : is_nan (JS.Math_min a b) = is_nan a || is_nan b.
Proof.
  unfold JS.Math_min. destruct (is_nan a) eqn:Na; [reflexivity|].
  destruct (is_nan b) eqn:Nb; [reflexivity|]. cbn [orb].
  destruct (a <? b); [exact Na|]. destruct (b <? a); [exact Nb|].
  destruct (get_sign a); assumption.
Qed.

Lemma ord_Math_max a b :
  is_nan a = false -> is_nan b = false ->
  Reference.ord (JS.Math_max a b) = Z.max (Reference.ord a) (Reference.ord b).
Proof.
  intros Na Nb. unfold JS.Math_max. rewrite Na, Nb. cbn [orb].
  rewrite (ltb_ord a b Na Nb), (ltb_ord b a Nb Na).
  destruct (Z.ltb_spec (Reference.ord a) (Reference.ord b)); [lia|].
  destruct (Z.ltb_spec (Reference.ord b) (Reference.ord a)); [lia|].
  destruct (get_sign a); lia.
Qed.

Lemma ord_Math_min a b :
  is_nan a = false -> is_nan b = false ->
  Reference.ord (JS.Math_min a b) = Z.min (Reference.ord a) (Reference.ord b).
Proof.
  intros Na Nb. unfold JS.Math_min. rewrite Na, Nb. cbn [orb].
  rewrite (ltb_ord a b Na Nb), (ltb_ord b a Nb Na).
  destruct (Z.ltb_spec (Reference.ord a) (Reference.ord b)); [lia|].
  destruct (Z.ltb_spec (Reference.ord b) (Reference.ord a)); [lia|].
  destruct (get_sign a); lia.
Qed.

(** A positive number is truthy. *)
Lemma truthy_positive c : (0 <? c) = true -> JS.truthy c = true.
Proof.
  intros H. apply ltb_true in H. destruct H as (N0 & Nc & H).
  unfold JS.truthy. rewrite Nc, (is_zero_ord c Nc).
  destruct (Z.eqb_spec (Reference.ord c) 0); [rewrite ord_zero in H; lia|].
  reflexivity.
Qed.

End OrderFacts.

(** ** Leg payoff and contract size *)

Module LegPayoffProps.

Import StrategyMath.
Local Open Scope float_scope.

Lemma or_default_effective leg :
  JS.or_default (contractSize leg) DEFAULT_CONTRACT_SIZE = Reference.effectiveSize leg.
Proof.
  unfold JS.or_default, JS.truthy, Reference.effectiveSize.
  destruct (contractSize leg) as [c|]; [|reflexivity].
  destruct (is_nan c || is_zero c); reflexivity.
Qed.

(** For every leg, whatever its contract size, [calculateLegPayoff]
    is the reference payoff scaled by the contract size, or by 100 when the
    contract size is absent, zero or NaN. *)
Lemma calculateLegPayoff_any_size leg p :
  JS.SameValueZero
    (calculateLegPayoff leg p)
    (Reference.legPayoff (Reference.effectiveSize leg) leg p) = true.
Proof.
  unfold calculateLegPayoff, Reference.legPayoff.
  rewrite or_default_effective.
  destruct (instrument leg).
  - destruct (type leg) as [[|]|], (strike leg) as [k|];
      try apply JSFacts.SameValueZero_refl;
      destruct (side leg); apply JSFacts.SameValueZero_refl.
  - destruct (side leg); cbn [Side_eqb].
    + apply JSFacts.SameValueZero_refl.
    + do 2 apply JSFacts.mul_same. apply JSFacts.opp_sub_same.
Qed.

Lemma or_default_positive (c : JS.number) :
  (0 <? c) = true -> JS.or_default (Some c) DEFAULT_CONTRACT_SIZE = c.
Proof.
  intros H. unfold JS.or_default. rewrite (OrderFacts.truthy_positive c H). reflexivity.
Qed.

(** Away from [a == b], negating [a - b] gives [b - a] bit for bit: the
    difference of two distinct numbers is not a zero. *)
Lemma opp_sub a b : (a =? b) = false -> - (a - b) = b - a.
Proof.
  intros E. apply Prim2SF_inj. rewrite opp_spec, !sub_spec.
  destruct (JSFacts.SFsub_opp (Prim2SF a) (Prim2SF b)) as [H|(s & t & Hs & Ht)];
    [exact H|exfalso].
  destruct (is_nan a) eqn:Na.
  { apply JSFacts.is_nan_spec in Na. rewrite Na in Ht.
    destruct (Prim2SF b); discriminate. }
  destruct (is_nan b) eqn:Nb.
  { apply JSFacts.is_nan_spec in Nb. rewrite Nb in Ht. discriminate. }
  rewrite (OrderFacts.eqb_ord a b Na Nb) in E. apply Z.eqb_neq in E.
  destruct (Z.lt_total (Reference.ord a) (Reference.ord b)) as [L|[L|L]]; [|lia|].
  - assert (A : (a <? b) = true).
    { rewrite (OrderFacts.ltb_ord a b Na Nb). apply Z.ltb_lt. exact L. }
    apply JSFacts.ltb_sub in A. rewrite ltb_spec, sub_spec in A.
    destruct (SF64sub (Prim2SF a) (Prim2SF b)); try discriminate Hs.
    rewrite JSFacts.Prim2SF_zero in A. discriminate A.
  - assert (A : (b <? a) = true).
    { rewrite (OrderFacts.ltb_ord b a Nb Na). apply Z.ltb_lt. exact L. }
    apply JSFacts.ltb_sub in A. rewrite ltb_spec, sub_spec, Ht in A.
    rewrite JSFacts.Prim2SF_zero in A. discriminate A.
Qed.

(** C1: for every leg with a positive contract size [c], as the data
    model requires, and every price [p], [calculateLegPayoff] returns
    exactly the reference payoff, bit for bit: for an UNDERLYING leg the
    move [p - premium], negated for SELL, times the quantity times [c]; for
    an OPTION leg the intrinsic value minus the premium, negated for SELL,
    times the quantity times [c]; and exactly 0 for an OPTION leg without
    type or strike.  With the profit of a short underlying leg written
    [premium - p] the result is the same number, and it is the same bit for
    bit unless [p == premium], where the code returns the move 0 negated. *)
Theorem C1_calculateLegPayoff_reference leg c p :
  contractSize leg = Some c -> (0 <? c) = true ->
  calculateLegPayoff leg p = Reference.legPayoffByMove c leg p
  /\ JS.SameValueZero (calculateLegPayoff leg p) (Reference.legPayoff c leg p) = true
  /\ ((instrument leg = UNDERLYING -> side leg = SELL -> (p =? premium leg) = false) ->
      calculateLegPayoff leg p = Reference.legPayoff c leg p)
  /\ (instrument leg = OPTION -> type leg = None \/ strike leg = None ->
      calculateLegPayoff leg p = 0).
Proof.
  intros Size Positive.
  unfold calculateLegPayoff, Reference.legPayoffByMove, Reference.legPayoff.
  cbv zeta. rewrite Size, (or_default_positive c Positive).
  destruct (instrument leg).
  - destruct (type leg) as [[|]|], (strike leg) as [k|], (side leg); cbn [Side_eqb];
      (split; [reflexivity|]; split; [apply JSFacts.SameValueZero_refl|];
       split; [reflexivity|]);
      intros _ [H|H]; try reflexivity; discriminate H.
  - destruct (side leg); cbn [Side_eqb].
    + split; [reflexivity|]. split; [apply JSFacts.SameValueZero_refl|].
      split; [reflexivity|]. discriminate.
    + split; [reflexivity|].
      split; [do 2 apply JSFacts.mul_same; apply JSFacts.opp_sub_same|].
      split; [|discriminate].
      intros Off. rewrite (opp_sub _ _ (Off eq_refl eq_refl)). reflexivity.
Qed.

Lemma C1_calculateLegPayoff_reference_witness :
  calculateLegPayoff Sample.shortStock 11
  = Reference.legPayoffByMove 100 Sample.shortStock 11
  /\ JS.SameValueZero (calculateLegPayoff Sample.shortStock 11)
       (Reference.legPayoff 100 Sample.shortStock 11) = true
  /\ ((instrument Sample.shortStock = UNDERLYING -> side Sample.shortStock = SELL ->
       (11 =? premium Sample.shortStock) = false) ->
      calculateLegPayoff Sample.shortStock 11
      = Reference.legPayoff 100 Sample.shortStock 11)
  /\ (instrument Sample.shortStock = OPTION ->
      type Sample.shortStock = None \/ strike Sample.shortStock = None ->
      calculateLegPayoff Sample.shortStock 11 = 0).
Proof.
  exact (C1_calculateLegPayoff_reference Sample.shortStock 100 11 eq_refl eq_refl).
Defined.

(** C8, as stated: a leg with contract size -1 is scaled by -1, not by
    100, in the payoff, in the net premium and in the strategy cost. *)
Lemma C8_negative_size_counterexample :
  Reference.sizeAbsentOrNonPositive Sample.stockSizeNegative = true
  /\ calculateLegPayoff Sample.stockSizeNegative 11 = -1
  /\ calculateLegPayoff (Reference.withContractSize Sample.stockSizeNegative 100) 11
     = 100
  /\ netPremiumOf [Sample.stockSizeNegative] = 10
  /\ netPremiumOf [Reference.withContractSize Sample.stockSizeNegative 100] = -1000
  /\ Backtest.calculateStrategyCost [Sample.stockSizeNegative] = 10
  /\ Backtest.calculateStrategyCost
       [Reference.withContractSize Sample.stockSizeNegative 100] = -1000.
Proof. repeat split; vm_compute; reflexivity. Qed.

Lemma or_default_missing leg :
  Reference.sizeAbsentOrZero leg = true ->
  JS.or_default (contractSize leg) DEFAULT_CONTRACT_SIZE
  = JS.or_default (contractSize (Reference.withContractSize leg 100))
      DEFAULT_CONTRACT_SIZE.
Proof.
  unfold Reference.sizeAbsentOrZero, JS.or_default, JS.truthy.
  cbn [Reference.withContractSize contractSize].
  destruct (contractSize leg) as [c|]; [|reflexivity].
  intros ->. reflexivity.
Qed.

Lemma fold_left_replace {A B : Type} (f : A -> B -> A) (x y : B) :
  (forall a, f a x = f a y) ->
  forall before after a,
    fold_left f (before ++ x :: after) a = fold_left f (before ++ y :: after) a.
Proof.
  intros H before after a. rewrite !fold_left_app. cbn [fold_left].
  rewrite H. reflexivity.
Qed.

(** C8, amended: for every leg whose contract size is absent, zero or
    NaN, the leg payoff, the net premium of the statistics and the
    strategy cost of the backtest are those of the same leg with contract
    size 100. *)
Theorem C8_default_contract_size leg :
  Reference.sizeAbsentOrZero leg = true ->
  (forall p,
     calculateLegPayoff leg p
     = calculateLegPayoff (Reference.withContractSize leg 100) p)
  /\ (forall before after payoffData currentPrice,
       StrategyStats.netPremium
         (calculateStrategyStats (before ++ leg :: after) payoffData currentPrice)
       = StrategyStats.netPremium
           (calculateStrategyStats
              (before ++ Reference.withContractSize leg 100 :: after)
              payoffData currentPrice))
  /\ (forall before after,
       Backtest.calculateStrategyCost (before ++ leg :: after)
       = Backtest.calculateStrategyCost
           (before ++ Reference.withContractSize leg 100 :: after)).
Proof.
  intros H. pose proof (or_default_missing leg H) as E.
  split; [|split].
  - intros p. unfold calculateLegPayoff. rewrite E. reflexivity.
  - intros before after payoffData currentPrice.
    destruct payoffData as [|d0 rest]; [reflexivity|].
    cbn [calculateStrategyStats StrategyStats.netPremium].
    unfold netPremiumOf. apply fold_left_replace.
    intros a. rewrite E. reflexivity.
  - intros before after. unfold Backtest.calculateStrategyCost.
    apply fold_left_replace. intros a.
    change Backtest.DEFAULT_CONTRACT_SIZE with DEFAULT_CONTRACT_SIZE.
    rewrite E. reflexivity.
Qed.

(** A leg restored without a contract size is priced with 100. *)
Lemma C8_default_contract_size_witness :
  Reference.sizeAbsentOrZero Sample.stockSizeAbsent = true
  /\ calculateLegPayoff Sample.stockSizeAbsent 11
     = calculateLegPayoff (Reference.withContractSize Sample.stockSizeAbsent 100) 11.
Proof.
  split; [reflexivity|].
  exact (proj1 (C8_default_contract_size Sample.stockSizeAbsent eq_refl) 11).
Defined.

End LegPayoffProps.

(** ** Payoff curves *)

Module CurveProps.

Local Open Scope float_scope.

Lemma buildPayoffCurve_variations legs basePrice :
  (length legs =? 0)%nat = false -> JS.isFinite basePrice = true ->
  (basePrice <=? 0) = false ->
  PayoffCurve.variations (BacktestPanel.payoffCurve legs basePrice)
  = Reference.defaultVariations.
Proof.
  intros Hl Hf Hp. unfold BacktestPanel.payoffCurve, Backtest.buildPayoffCurve.
  rewrite Hl, Hf, Hp. cbn [negb orb PayoffCurve.variations].
  rewrite map_map. cbn [fst]. reflexivity.
Qed.

Lemma buildPayoffCurve_returns_length legs basePrice :
  (length legs =? 0)%nat = false -> JS.isFinite basePrice = true ->
  (basePrice <=? 0) = false ->
  length (PayoffCurve.returns (BacktestPanel.payoffCurve legs basePrice)) = 250%nat.
Proof.
  intros Hl Hf Hp. unfold BacktestPanel.payoffCurve, Backtest.buildPayoffCurve.
  rewrite Hl, Hf, Hp. cbn [negb orb PayoffCurve.returns].
  rewrite !length_map, length_seq. reflexivity.
Qed.

(** C5, as stated: the curve handed to the backtest for the bear call
    spread at price 30 has 250 points from -0.3 to 0.3, not 321 points
    over a window of 40%. *)
Lemma C5_default_curve_counterexample :
  let curve := BacktestPanel.payoffCurve Sample.bearCallSpread 30 in
  length (PayoffCurve.variations curve) = 250%nat
  /\ (length (PayoffCurve.variations curve) =? 321)%nat = false
  /\ hd nan (PayoffCurve.variations curve) = -0.3
  /\ last (PayoffCurve.variations curve) nan = 0.3.
Proof. repeat split; vm_compute; reflexivity. Qed.

(** C5, amended: the percentage-move curve used as the interpolation
    table of the backtest spans a fixed symmetric window of 30% on each
    side of the current price ([rangePct = 0.3]), sampled at 249 uniform
    intervals, which gives 250 points. *)
Theorem C5_backtest_curve_window legs currentPrice :
  legs <> [] -> JS.isFinite currentPrice = true -> (currentPrice <=? 0) = false ->
  let curve := BacktestPanel.payoffCurve legs currentPrice in
  length (PayoffCurve.variations curve) = 250%nat
  /\ length (PayoffCurve.returns curve) = 250%nat
  /\ hd nan (PayoffCurve.variations curve) = -0.3
  /\ last (PayoffCurve.variations curve) nan = 0.3
  /\ PayoffCurve.variations curve
     = map (fun i => JS.round_fixed 6 (- 0.3 + (0.3 * 2 / 249) * JS.of_nat i))
         (seq 0 250).
Proof.
  intros Hl Hf Hp.
  assert (Hl' : (length legs =? 0)%nat = false).
  { destruct legs; [contradiction|reflexivity]. }
  cbv zeta.
  rewrite (buildPayoffCurve_variations legs currentPrice Hl' Hf Hp).
  rewrite (buildPayoffCurve_returns_length legs currentPrice Hl' Hf Hp).
  repeat split; vm_compute; reflexivity.
Qed.

(** The bear call spread at price 30. *)
Lemma C5_backtest_curve_window_witness :
  Sample.bearCallSpread <> []
  /\ length (PayoffCurve.variations
               (BacktestPanel.payoffCurve Sample.bearCallSpread 30)) = 250%nat.
Proof.
  split; [discriminate|].
  exact (proj1 (C5_backtest_curve_window Sample.bearCallSpread 30
                  ltac:(discriminate) eq_refl eq_refl)).
Defined.

(** C6, as stated: the absolute-price sweep of a short call at strike 30
    still has its 321 samples when the current price is 0, negative or
    NaN. *)
Lemma C6_absolute_sweep_counterexample :
  length (AbsolutePriceSweep.generatePayoffData [Sample.shortCall] 0) = 321%nat
  /\ length (AbsolutePriceSweep.generatePayoffData [Sample.shortCall] (-5)) = 321%nat
  /\ length (AbsolutePriceSweep.generatePayoffData [Sample.shortCall] nan) = 321%nat.
Proof. repeat split; vm_compute; reflexivity. Qed.

Lemma length_zero_iff {A : Type} (l : list A) : (length l =? 0)%nat = true <-> l = [].
Proof. destruct l; split; intros H; try reflexivity; discriminate. Qed.

(** C6, amended: the two percentage-move builders ([generatePayoffData]
    of strategyMath and [buildPayoffCurve]) return an empty curve for an
    empty leg set, a non-finite current price or a current price that is
    not positive.  The absolute-price sweep returns an empty curve exactly
    when the leg set is empty or no reference point (the current price, an
    option strike, an underlying entry price) is finite and positive. *)
Theorem C6_empty_curves legs currentPrice :
  (legs = [] \/ JS.isFinite currentPrice = false \/ (currentPrice <=? 0) = true ->
   StrategyMath.generatePayoffData legs currentPrice = []
   /\ forall rangePct points,
       PayoffCurve.variations
         (Backtest.buildPayoffCurve legs currentPrice rangePct points) = []
       /\ PayoffCurve.returns
            (Backtest.buildPayoffCurve legs currentPrice rangePct points) = [])
  /\ (AbsolutePriceSweep.generatePayoffData legs currentPrice = []
      <-> legs = [] \/ AbsolutePriceSweep.referencePointsOf legs currentPrice = []).
Proof.
  split.
  - intros H.
    assert (E : (length legs =? 0)%nat || negb (JS.isFinite currentPrice)
                || (currentPrice <=? 0) = true).
    { destruct H as [->|[->| ->]]; [reflexivity| |apply orb_true_r].
      rewrite orb_true_r. reflexivity. }
    unfold StrategyMath.generatePayoffData, Backtest.buildPayoffCurve.
    rewrite E. split; [reflexivity|]. intros; split; reflexivity.
  - unfold AbsolutePriceSweep.generatePayoffData.
    destruct (length legs =? 0)%nat eqn:L.
    + apply length_zero_iff in L. tauto.
    + destruct (length (AbsolutePriceSweep.referencePointsOf legs currentPrice) =? 0)%nat
        eqn:R.
      * apply length_zero_iff in R. tauto.
      * split; [discriminate|].
        intros [->|E]; [discriminate|]. rewrite E in R. discriminate.
Qed.

End CurveProps.

(** ** Degenerate backtest requests *)

Module EmptyResultProps.

Import Backtest.
Local Open Scope float_scope.

Section WithMathPow.

Variable Math_pow : JS.number -> JS.number -> JS.number.

Lemma runBacktest_degenerate input :
  BacktestInput.history input = []
  \/ PayoffCurve.variations (BacktestInput.payoff input) = []
  \/ (0 <? BacktestInput.baseCapital input) = false ->
  runBacktest Math_pow input
  = {| BacktestResult.rows := [];
       BacktestResult.chart := {| Chart.points := []; Chart.equity := [] |};
       BacktestResult.metrics :=
         emptyMetrics
           (if 0 <? BacktestInput.baseCapital input
            then BacktestInput.baseCapital input else 0) |}.
Proof.
  intros H. unfold runBacktest.
  assert (D : degenerate input = true).
  { unfold degenerate, safeCapitalOf. destruct H as [H|[H|H]]; rewrite H.
    - reflexivity.
    - cbn [length Nat.eqb]. rewrite orb_true_r. reflexivity.
    - apply orb_true_r. }
  rewrite D. reflexivity.
Qed.

(** C7, amended: with an empty history, an empty payoff curve or a base
    capital that is not positive, [runBacktest] returns no rows, empty
    chart series, and metrics whose three capital fields are the base
    capital (0 when it is not positive) and whose other fields are
    zero; when the base capital is not positive every metric is zero. *)
Theorem C7_degenerate_request_is_empty input :
  BacktestInput.history input = []
  \/ PayoffCurve.variations (BacktestInput.payoff input) = []
  \/ (0 <? BacktestInput.baseCapital input) = false ->
  let result := runBacktest Math_pow input in
  let safeCapital :=
    if 0 <? BacktestInput.baseCapital input
    then BacktestInput.baseCapital input else 0 in
  BacktestResult.rows result = []
  /\ Chart.points (BacktestResult.chart result) = []
  /\ Chart.equity (BacktestResult.chart result) = []
  /\ BacktestResult.metrics result
     = {| BacktestMetrics.initialCapital := safeCapital;
          BacktestMetrics.finalCapitalNoWithdrawal := safeCapital;
          BacktestMetrics.finalCapitalWithWithdrawal := safeCapital;
          BacktestMetrics.totalProfitPct := 0;
          BacktestMetrics.avgMonthlyProfit := 0;
          BacktestMetrics.monthlyEquivalentRate := 0;
          BacktestMetrics.profitWithWithdrawalPct := 0;
          BacktestMetrics.monthlyRateWithWithdrawal := 0;
          BacktestMetrics.monthlyIrr := 0;
          BacktestMetrics.wins := 0;
          BacktestMetrics.losses := 0 |}
  /\ ((0 <? BacktestInput.baseCapital input) = false -> safeCapital = 0).
Proof.
  intros H. cbv zeta. rewrite (runBacktest_degenerate input H).
  repeat split. intros ->. reflexivity.
Qed.

End WithMathPow.

(** C7, as stated: with no history and a base capital of 1000 the
    metrics are not zero-filled; the three capital fields are 1000. *)
Lemma C7_zero_filled_counterexample :
  let metrics := BacktestResult.metrics (runBacktest Sample.Math_pow Sample.noHistory) in
  BacktestMetrics.initialCapital metrics = 1000
  /\ BacktestMetrics.finalCapitalNoWithdrawal metrics = 1000
  /\ BacktestMetrics.finalCapitalWithWithdrawal metrics = 1000
  /\ (BacktestMetrics.initialCapital metrics =? 0) = false.
Proof. repeat split; vm_compute; reflexivity. Qed.

(** The request without history meets the first condition and gets no
    rows. *)
Lemma C7_degenerate_request_is_empty_witness :
  BacktestInput.history Sample.noHistory = []
  /\ BacktestResult.rows (runBacktest Sample.Math_pow Sample.noHistory) = [].
Proof.
  split; [reflexivity|].
  exact (proj1 (C7_degenerate_request_is_empty Sample.Math_pow Sample.noHistory
                  (or_introl eq_refl))).
Defined.

End EmptyResultProps.

(** ** The simulation loop *)

Module LoopProps.

Import Backtest.
Local Open Scope float_scope.

Lemma fold_left_invariant {S A : Type} (P : S -> Prop) (f : S -> A -> S) :
  (forall s a, P s -> P (f s a)) ->
  forall l s, P s -> P (fold_left f l s).
Proof.
  intros H l. induction l as [|a l IH]; intros s Hs; [exact Hs|].
  cbn [fold_left]. apply IH. apply H. exact Hs.
Qed.

Lemma runBacktest_loop Math_pow input :
  let result := runBacktest Math_pow input in
  let final := simulate input (BacktestInput.history input) in
  BacktestResult.rows result = (if degenerate input then [] else rows final)
  /\ Chart.points (BacktestResult.chart result)
     = (if degenerate input then [] else chartPoints final)
  /\ Chart.equity (BacktestResult.chart result)
     = (if degenerate input then [] else equityPoints final).
Proof.
  cbv zeta. unfold runBacktest.
  destruct (degenerate input); repeat split; reflexivity.
Qed.

(** *** Placeholder rows *)

Section Placeholder.

Variables (applyLosses : bool) (payoff : PayoffCurve.t).
Variables (safeCapital periodWithdrawal periodInvestment : JS.number).

Local Abbreviation step :=
  (period applyLosses payoff safeCapital periodWithdrawal periodInvestment).

Lemma period_firstPeriod st point : firstPeriod (step st point) = false.
Proof.
  unfold period.
  destruct (lossClockOrigin applyLosses st _) as [baseYear baseMonth].
  destruct (definedReturn point) as [r|].
  - destruct (syntheticLoss _ _ _ _ _) as [[lossPct lossEvent] lossMonths'].
    reflexivity.
  - destruct (firstPeriod st); reflexivity.
Qed.

Lemma period_rows_length st point :
  length (rows (step st point))
  = (length (rows st)
     + (if Reference.hasReturn point then 1
        else if firstPeriod st then 1 else 0))%nat.
Proof.
  unfold period, Reference.hasReturn.
  destruct (lossClockOrigin applyLosses st _) as [baseYear baseMonth].
  destruct (definedReturn point) as [r|].
  - destruct (syntheticLoss _ _ _ _ _) as [[lossPct lossEvent] lossMonths'].
    cbn [rows]. rewrite length_app. reflexivity.
  - destruct (firstPeriod st); cbn [rows].
    + rewrite length_app. reflexivity.
    + lia.
Qed.

Lemma fold_rows_length history : forall st,
  length (rows (fold_left step history st))
  = (length (rows st) + length (filter Reference.hasReturn history)
     + (if firstPeriod st then Reference.placeholderCount history else 0))%nat.
Proof.
  induction history as [|point history IH]; intros st.
  - cbn. destruct (firstPeriod st); lia.
  - cbn [fold_left]. rewrite IH, period_firstPeriod, period_rows_length.
    cbn [filter Reference.placeholderCount].
    destruct (Reference.hasReturn point), (firstPeriod st); cbn [length]; lia.
Qed.

(** The state in which no row has been emitted is the initial one. *)
Lemma no_row_yet before :
  rows (fold_left step before (initialState safeCapital)) = [] -> before = [].
Proof.
  intros H. apply (f_equal (@length _)) in H.
  rewrite fold_rows_length in H. cbn in H.
  destruct before as [|point before]; [reflexivity|].
  cbn [filter Reference.placeholderCount] in H.
  destruct (Reference.hasReturn point); cbn [length] in H; lia.
Qed.

Lemma firstPeriod_after before :
  before <> [] -> firstPeriod (fold_left step before (initialState safeCapital)) = false.
Proof.
  intros H. destruct (@exists_last _ before H) as (front & point & ->).
  rewrite fold_left_app. cbn [fold_left]. apply period_firstPeriod.
Qed.

Lemma placeholder_step before point :
  definedReturn point = None ->
  let st := fold_left step before (initialState safeCapital) in
  let st' := step st point in
  (rows st = [] ->
   rows st' = [Reference.anchorRow (HistoryPoint.time point) safeCapital]
   /\ chartPoints st' = [Reference.anchorChartPoint (HistoryPoint.time point)]
   /\ equityPoints st'
      = [Reference.anchorEquityPoint (HistoryPoint.time point) safeCapital])
  /\ (rows st <> [] ->
      rows st' = rows st
      /\ chartPoints st' = chartPoints st
      /\ equityPoints st' = equityPoints st
      /\ capitalWith st' = capitalWith st
      /\ capitalWithout st' = capitalWithout st).
Proof.
  intros Hp. cbv zeta. split.
  - intros Hr. apply no_row_yet in Hr. subst before. cbn [fold_left].
    unfold period. rewrite Hp. cbn [initialState firstPeriod].
    destruct (lossClockOrigin applyLosses _ _) as [baseYear baseMonth].
    repeat split; reflexivity.
  - intros Hr.
    assert (F : firstPeriod (fold_left step before (initialState safeCapital)) = false).
    { apply firstPeriod_after. intros ->. apply Hr. reflexivity. }
    set (st := fold_left step before (initialState safeCapital)) in *.
    unfold period. rewrite Hp, F.
    destruct (lossClockOrigin applyLosses st _) as [baseYear baseMonth].
    repeat split; reflexivity.
Qed.

End Placeholder.

(** C10: a history point whose return is null or not finite produces
    the anchor row (zero returns, profit and cash flows, no loss event,
    the starting capital), its chart point and its equity point when no
    row has been emitted yet; when a row has already been emitted it
    leaves the rows, the chart points, the equity points and both equity
    tracks unchanged.  Hence a run has as many rows as it has points with a
    defined return, plus at most one placeholder row. *)
Theorem C10_single_placeholder_row Math_pow input :
  (forall before point,
     definedReturn point = None ->
     let st := simulate input before in
     let st' := simulate input (before ++ [point]) in
     (rows st = [] ->
      rows st'
      = [Reference.anchorRow (HistoryPoint.time point) (safeCapitalOf input)]
      /\ chartPoints st' = [Reference.anchorChartPoint (HistoryPoint.time point)]
      /\ equityPoints st'
         = [Reference.anchorEquityPoint (HistoryPoint.time point)
              (safeCapitalOf input)])
     /\ (rows st <> [] ->
         rows st' = rows st
         /\ chartPoints st' = chartPoints st
         /\ equityPoints st' = equityPoints st
         /\ capitalWith st' = capitalWith st
         /\ capitalWithout st' = capitalWithout st))
  /\ (degenerate input = false ->
      length (BacktestResult.rows (runBacktest Math_pow input))
      = (length (filter Reference.hasReturn (BacktestInput.history input))
         + Reference.placeholderCount (BacktestInput.history input))%nat)
  /\ (Reference.placeholderCount (BacktestInput.history input) <= 1)%nat.
Proof.
  split; [|split].
  - intros before point Hp. cbv zeta. unfold simulate.
    rewrite fold_left_app. cbn [fold_left].
    apply placeholder_step. exact Hp.
  - intros D. destruct (runBacktest_loop Math_pow input) as (R & _ & _).
    rewrite R, D. unfold simulate. rewrite fold_rows_length. reflexivity.
  - unfold Reference.placeholderCount.
    destruct (BacktestInput.history input) as [|point rest]; [lia|].
    destruct (Reference.hasReturn point); lia.
Qed.

(** *** The loss clock *)

Lemma syntheticLoss_off baseYear baseMonth lossMonths date :
  syntheticLoss false baseYear baseMonth lossMonths date = (0, false, lossMonths).
Proof. reflexivity. Qed.

Lemma syntheticLoss_schedule applyLosses baseYear baseMonth triggered date :
  syntheticLoss applyLosses (Some baseYear) (Some baseMonth) triggered date
  = let m := Reference.monthCount (baseYear, baseMonth) date in
    if Reference.lossDue applyLosses m triggered
    then (Reference.scheduledLoss m, true, m :: triggered)
    else (0, false, triggered).
Proof.
  unfold syntheticLoss, Reference.lossDue, Reference.scheduledLoss, Set_has.
  change (monthsElapsedSince baseYear baseMonth date)
    with (Reference.monthCount (baseYear, baseMonth) date).
  cbv zeta. set (m := Reference.monthCount (baseYear, baseMonth) date).
  destruct applyLosses; [|reflexivity]. cbn [andb].
  destruct (0 <? m)%Z eqn:Hm; [|reflexivity]. cbn [andb].
  destruct (existsb (Z.eqb m) triggered); [reflexivity|]. cbn [negb andb].
  apply Z.ltb_lt in Hm.
  rewrite !Z.rem_mod_nonneg by lia.
  destruct (m mod 6 =? 0)%Z, (m mod 10 =? 0)%Z; reflexivity.
Qed.

Lemma scheduledLoss_positive applyLosses m triggered :
  Reference.lossDue applyLosses m triggered = true ->
  (0 <? Reference.scheduledLoss m) = true.
Proof.
  unfold Reference.lossDue, Reference.scheduledLoss. intros H.
  apply andb_true_iff in H. destruct H as [_ H].
  destruct (m mod 6 =? 0)%Z, (m mod 10 =? 0)%Z; try reflexivity; discriminate.
Qed.

Section LossClock.

Variables (applyLosses : bool) (payoff : PayoffCurve.t).
Variables (safeCapital periodWithdrawal periodInvestment : JS.number).

Local Abbreviation step :=
  (period applyLosses payoff safeCapital periodWithdrawal periodInvestment).

Local Abbreviation run := (fun h => fold_left step h (initialState safeCapital)).

Lemma period_origin st point :
  (lossBaseYear (step st point), lossBaseMonth (step st point))
  = lossClockOrigin applyLosses st (HistoryPoint.time point).
Proof.
  unfold period.
  destruct (lossClockOrigin applyLosses st _) as [baseYear baseMonth].
  destruct (definedReturn point) as [r|].
  - destruct (syntheticLoss _ _ _ _ _) as [[lossPct lossEvent] lossMonths'].
    reflexivity.
  - destruct (firstPeriod st); reflexivity.
Qed.

Lemma origin_kept st y m date :
  lossBaseYear st = Some y -> lossBaseMonth st = Some m ->
  lossClockOrigin applyLosses st date = (Some y, Some m).
Proof.
  intros Hy Hm. unfold lossClockOrigin. rewrite Hy, Hm.
  destruct applyLosses; reflexivity.
Qed.

Lemma origin_established first rest :
  applyLosses = true ->
  lossBaseYear (run (first :: rest))
  = Some (Date.getFullYear (HistoryPoint.time first))
  /\ lossBaseMonth (run (first :: rest))
     = Some (Date.getMonth (HistoryPoint.time first) + 1)%Z.
Proof.
  intros A. cbn [fold_left].
  apply (fold_left_invariant
           (fun st => lossBaseYear st = Some (Date.getFullYear (HistoryPoint.time first))
                      /\ lossBaseMonth st
                         = Some (Date.getMonth (HistoryPoint.time first) + 1)%Z)).
  - intros st point [Hy Hm].
    pose proof (period_origin st point) as E.
    rewrite (origin_kept st _ _ _ Hy Hm) in E.
    inversion E. split; reflexivity.
  - pose proof (period_origin (initialState safeCapital) first) as E.
    assert (X : lossClockOrigin applyLosses (initialState safeCapital)
                  (HistoryPoint.time first)
                = (Some (Date.getFullYear (HistoryPoint.time first)),
                   Some (Date.getMonth (HistoryPoint.time first) + 1)%Z)).
    { unfold lossClockOrigin. rewrite A. reflexivity. }
    rewrite X in E. inversion E. split; reflexivity.
Qed.

Lemma origin_at before point origin :
  applyLosses = true ->
  Reference.lossOrigin (before ++ [point]) = Some origin ->
  lossClockOrigin applyLosses (run before) (HistoryPoint.time point)
  = (Some (fst origin), Some (snd origin)).
Proof.
  intros A O. destruct before as [|first rest].
  - cbn in O. inversion O. subst origin.
    unfold lossClockOrigin. rewrite A. reflexivity.
  - cbn in O. inversion O. subst origin.
    destruct (origin_established first rest A) as [Hy Hm].
    apply origin_kept; assumption.
Qed.

Lemma losses_off_state history :
  applyLosses = false -> lossMonths (run history) = [].
Proof.
  intros A.
  apply (fold_left_invariant (fun st => lossMonths st = [])); [|reflexivity].
  intros st point H. unfold period.
  destruct (lossClockOrigin applyLosses st _) as [baseYear baseMonth].
  destruct (definedReturn point) as [r|].
  - rewrite A, syntheticLoss_off. exact H.
  - destruct (firstPeriod st); exact H.
Qed.

(** The effect of a period with a defined return, in terms of the
    schedule. *)
Lemma period_schedule before point r origin :
  definedReturn point = Some r ->
  Reference.lossOrigin (before ++ [point]) = Some origin ->
  let st := run before in
  let st' := step st point in
  let m := Reference.monthCount origin (HistoryPoint.time point) in
  let due := Reference.lossDue applyLosses m (lossMonths st) in
  let pct := strategyReturnPctOf payoff safeCapital r in
  let haircut := fun x => if due then x * (1 - Reference.scheduledLoss m) else x in
  capitalWithout st' = haircut (capitalWithout st * (1 + pct))
  /\ capitalWith st'
     = haircut (capitalWith st * (1 + pct)) - periodWithdrawal + periodInvestment
  /\ (exists row,
        rows st' = rows st ++ [row]
        /\ BacktestRow.time row = HistoryPoint.time point
        /\ BacktestRow.lossEvent row = due)
  /\ lossMonths st' = (if due then m :: lossMonths st else lossMonths st).
Proof.
  intros Hr O. cbv zeta.
  pose proof (fun A => origin_at before point origin A O) as OA.
  set (st := fold_left step before (initialState safeCapital)) in *.
  unfold period. rewrite Hr.
  destruct (Bool.bool_dec applyLosses true) as [A|A].
  - rewrite (OA A).
    rewrite syntheticLoss_schedule. cbv zeta.
    replace (fst origin, snd origin) with origin by (destruct origin; reflexivity).
    destruct (Reference.lossDue applyLosses _ _) eqn:D.
    + rewrite (scheduledLoss_positive _ _ _ D).
      repeat split. eexists. repeat split.
    + replace (0 <? 0) with false by reflexivity.
      repeat split. eexists. repeat split.
  - apply not_true_is_false in A. rewrite A.
    destruct (lossClockOrigin false _ _) as [baseYear baseMonth].
    rewrite syntheticLoss_off.
    replace (0 <? 0) with false by reflexivity.
    cbn [Reference.lossDue andb].
    repeat split. eexists. repeat split.
Qed.

Lemma lossLedger_run history : forall origin,
  Reference.lossOrigin history = Some origin -> Reference.lossLedger origin (run history).
Proof.
  induction history as [|point before IH] using rev_ind; intros origin O.
  - discriminate.
  - assert (L : Reference.lossLedger origin (run before)).
    { destruct before as [|first rest].
      - split; [reflexivity|constructor].
      - apply IH. exact O. }
    rewrite fold_left_app. cbn [fold_left].
    destruct L as [Lm Ln].
    pose proof (fun r Hr => period_schedule before point r origin Hr O) as PS.
    cbv zeta in PS.
    set (st := fold_left step before (initialState safeCapital)) in *.
    destruct (definedReturn point) as [r|] eqn:Hr.
    + destruct (PS r eq_refl) as (_ & _ & (row & Rr & Rt & Re) & Rl).
      unfold Reference.lossLedger. rewrite Rr, Rl, filter_app, map_app, Lm.
      cbn [filter]. rewrite Re.
      destruct (Reference.lossDue _ _ _) eqn:D.
      * cbn [map rev]. rewrite Rt.
        split; [reflexivity|]. constructor; [|exact Ln].
        unfold Reference.lossDue in D.
        apply andb_true_iff in D. destruct D as [D _].
        apply andb_true_iff in D. destruct D as [_ D].
        apply negb_true_iff in D. intros I.
        assert (X : existsb (Z.eqb (Reference.monthCount origin (HistoryPoint.time point)))
                      (lossMonths st) = true).
        { apply existsb_exists. eexists. split; [exact I|apply Z.eqb_refl]. }
        rewrite X in D. discriminate.
      * cbn [map]. rewrite app_nil_r. split; [reflexivity|exact Ln].
    + unfold period. rewrite Hr.
      destruct (lossClockOrigin applyLosses _ _) as [baseYear baseMonth].
      destruct (firstPeriod st); unfold Reference.lossLedger; cbn [rows lossMonths].
      * rewrite filter_app, map_app, Lm. cbn. rewrite app_nil_r.
        split; [reflexivity|exact Ln].
      * split; assumption.
Qed.

End LossClock.

(** C3, as stated.  First, a loss does not need a multiple of 6: with
    the clock started in January 2020, October is month 10, and its row has
    a loss event and a 9% haircut (1000 grown by 5% and cut to 955.5).
    Second, the clock starts at the first history point even though it has
    no defined return: June is month 6 and triggers, while counted from the
    first point with a defined return it would be month 1. *)
Lemma C3_loss_clock_counterexample :
  map BacktestRow.lossEvent
    (BacktestResult.rows
       (runBacktest Sample.Math_pow (Sample.request Sample.januaryOctober true)))
  = [false; true]
  /\ map EquityPoint.capitalWithout
       (Chart.equity
          (BacktestResult.chart
             (runBacktest Sample.Math_pow (Sample.request Sample.januaryOctober true))))
     = [1000; 955.5]
  /\ Reference.statedLoss 10 = 0
  /\ map BacktestRow.lossEvent
       (BacktestResult.rows
          (runBacktest Sample.Math_pow (Sample.request Sample.januaryJune true)))
     = [false; true]
  /\ Reference.statedOrigin Sample.januaryJune = Some (2020, 6)%Z
  /\ Reference.monthCount (2020, 6)%Z (Sample.date 2020 5 (Sample.day * 152)) = 1%Z
  /\ Reference.statedLoss 1 = 0.
Proof. repeat split; vm_compute; reflexivity. Qed.

(** C3, amended: with synthetic losses enabled, the first history point,
    whether or not its return is defined, establishes the origin (year,
    month) of the loss clock.  For each period with a defined return the
    whole months since the origin are counted from 1; a period whose month
    count is positive and has not triggered yet applies 2% when the count
    is a multiple of 6 plus 9% when the count is a multiple of 10 (both at
    a multiple of 30), capped at 99%: both equity tracks are multiplied by
    [1 - lossPct], the row is marked with a loss event and the month is
    recorded.  No month count marks two rows of a run. *)
Theorem C3_loss_clock Math_pow input :
  (BacktestInput.applyLosses input = true ->
   forall first rest,
     lossBaseYear (simulate input (first :: rest))
     = Some (Date.getFullYear (HistoryPoint.time first))
     /\ lossBaseMonth (simulate input (first :: rest))
        = Some (Date.getMonth (HistoryPoint.time first) + 1)%Z)
  /\ (forall before point r origin,
       definedReturn point = Some r ->
       Reference.lossOrigin (before ++ [point]) = Some origin ->
       let st := simulate input before in
       let st' := simulate input (before ++ [point]) in
       let m := Reference.monthCount origin (HistoryPoint.time point) in
       let due := Reference.lossDue (BacktestInput.applyLosses input) m (lossMonths st) in
       let pct :=
         strategyReturnPctOf (BacktestInput.payoff input) (safeCapitalOf input) r in
       let haircut := fun x => if due then x * (1 - Reference.scheduledLoss m) else x in
       capitalWithout st' = haircut (capitalWithout st * (1 + pct))
       /\ capitalWith st'
          = haircut (capitalWith st * (1 + pct))
            - perPeriod (BacktestInput.frequency input)
                (BacktestInput.monthlyWithdrawal input)
            + perPeriod (BacktestInput.frequency input) (monthlyInvestmentOf input)
       /\ (exists row,
             rows st' = rows st ++ [row]
             /\ BacktestRow.time row = HistoryPoint.time point
             /\ BacktestRow.lossEvent row = due)
       /\ lossMonths st' = (if due then m :: lossMonths st else lossMonths st))
  /\ (forall origin,
       Reference.lossOrigin (BacktestInput.history input) = Some origin ->
       NoDup
         (map (fun row => Reference.monthCount origin (BacktestRow.time row))
            (filter BacktestRow.lossEvent
               (BacktestResult.rows (runBacktest Math_pow input))))).
Proof.
  split; [|split].
  - intros A first rest. unfold simulate. apply origin_established. exact A.
  - intros before point r origin Hr O. cbv zeta. unfold simulate.
    rewrite fold_left_app. cbn [fold_left].
    apply period_schedule; assumption.
  - intros origin O.
    destruct (runBacktest_loop Math_pow input) as (R & _ & _). rewrite R.
    destruct (degenerate input); [constructor|].
    destruct (lossLedger_run (BacktestInput.applyLosses input)
                (BacktestInput.payoff input) (safeCapitalOf input)
                (perPeriod (BacktestInput.frequency input)
                   (BacktestInput.monthlyWithdrawal input))
                (perPeriod (BacktestInput.frequency input) (monthlyInvestmentOf input))
                (BacktestInput.history input) origin O) as [Lm Ln].
    unfold simulate. rewrite Lm. apply NoDup_rev. exact Ln.
Qed.

(** *** The two equity tracks without cash flows and losses *)

Lemma perPeriod_zero frequency : perPeriod frequency 0 = 0.
Proof. destruct frequency; reflexivity. Qed.

Lemma period_tracksCoincide payoff safeCapital st point :
  Reference.tracksCoincide st -> Reference.tracksCoincide (period false payoff safeCapital 0 0 st point).
Proof.
  intros (Hc & He & Hr). unfold period, lossClockOrigin.
  destruct (definedReturn point) as [r|].
  - rewrite syntheticLoss_off.
    replace (0 <? 0) with false by reflexivity.
    set (pct := strategyReturnPctOf payoff safeCapital r).
    assert (S : JS.SameValueZero (capitalWith st * (1 + pct) - 0 + 0)
                  (capitalWithout st * (1 + pct)) = true).
    { eapply JSFacts.SameValueZero_trans.
      - apply JSFacts.sub0_add0_same.
      - apply JSFacts.mul_same. exact Hc. }
    unfold Reference.tracksCoincide.
    cbn [capitalWith capitalWithout equityPoints rows].
    split; [exact S|]. split.
    + apply Forall_app. split; [exact He|].
      constructor; [exact S|constructor].
    + rewrite !map_app, Hr. reflexivity.
  - destruct (firstPeriod st); unfold Reference.tracksCoincide;
      cbn [capitalWith capitalWithout equityPoints rows].
    + split; [exact Hc|]. split.
      * apply Forall_app. split; [exact He|].
        constructor; [exact Hc|constructor].
      * rewrite !map_app, Hr. reflexivity.
    + auto.
Qed.

(** C9: with no monthly withdrawal, no monthly investment and synthetic
    losses off, [capitalWith] and [capitalWithout] are the same number
    at every equity point of the run, and the capital of every row is
    the [capitalWith] of its equity point. *)
Theorem C9_tracks_coincide Math_pow input :
  BacktestInput.monthlyWithdrawal input = 0 ->
  monthlyInvestmentOf input = 0 ->
  BacktestInput.applyLosses input = false ->
  let result := runBacktest Math_pow input in
  Forall (fun e => JS.SameValueZero (EquityPoint.capitalWith e)
                     (EquityPoint.capitalWithout e) = true)
    (Chart.equity (BacktestResult.chart result))
  /\ map BacktestRow.capital (BacktestResult.rows result)
     = map EquityPoint.capitalWith (Chart.equity (BacktestResult.chart result)).
Proof.
  intros Hw Hi Hl. cbv zeta.
  destruct (runBacktest_loop Math_pow input) as (R & _ & E).
  rewrite R, E. destruct (degenerate input); [split; [constructor|reflexivity]|].
  assert (T : Reference.tracksCoincide (simulate input (BacktestInput.history input))).
  { unfold simulate. rewrite Hw, Hi, Hl, !perPeriod_zero.
    apply fold_left_invariant.
    - intros st point. apply period_tracksCoincide.
    - unfold Reference.tracksCoincide. cbn [initialState capitalWith capitalWithout
                                    equityPoints rows map].
      split; [apply JSFacts.SameValueZero_refl|]. split; [constructor|reflexivity]. }
  destruct T as (_ & He & Hr). split; assumption.
Qed.

(** The history with a gap, run monthly without cash flows and losses. *)
Lemma C9_tracks_coincide_witness :
  BacktestInput.monthlyWithdrawal (Sample.request Sample.withGap false) = 0
  /\ Forall (fun e => JS.SameValueZero (EquityPoint.capitalWith e)
                        (EquityPoint.capitalWithout e) = true)
       (Chart.equity
          (BacktestResult.chart
             (runBacktest Sample.Math_pow (Sample.request Sample.withGap false)))).
Proof.
  split; [reflexivity|].
  exact (proj1 (C9_tracks_coincide Sample.Math_pow
                  (Sample.request Sample.withGap false) eq_refl eq_refl eq_refl)).
Defined.

End LoopProps.

(** ** Interpolation *)

Module InterpolationProps.

Import Backtest.
Local Open Scope float_scope.

(** Once the rounds cover the interval, a further round changes nothing. *)
Lemma searchLoop_one_more x xs ys : forall fuel left right,
  (right - left + 1 <= Z.of_nat fuel)%Z ->
  searchLoop (S fuel) x xs ys left right = searchLoop fuel x xs ys left right.
Proof.
  induction fuel as [|fuel IH]; intros left right H.
  - cbn [searchLoop]. destruct (left <=? right)%Z eqn:L; [|reflexivity].
    apply Z.leb_le in L. lia.
  - change (searchLoop (S (S fuel)) x xs ys left right)
      with (if (left <=? right)%Z then
              if at_ xs ((left + right) / 2) =? x
              then inl (at_ ys ((left + right) / 2))
              else if at_ xs ((left + right) / 2) <? x
                   then searchLoop (S fuel) x xs ys ((left + right) / 2 + 1) right
                   else searchLoop (S fuel) x xs ys left ((left + right) / 2 - 1)
            else inr right).
    change (searchLoop (S fuel) x xs ys left right)
      with (if (left <=? right)%Z then
              if at_ xs ((left + right) / 2) =? x
              then inl (at_ ys ((left + right) / 2))
              else if at_ xs ((left + right) / 2) <? x
                   then searchLoop fuel x xs ys ((left + right) / 2 + 1) right
                   else searchLoop fuel x xs ys left ((left + right) / 2 - 1)
            else inr right).
    destruct (left <=? right)%Z eqn:L; [|reflexivity].
    apply Z.leb_le in L.
    assert (M : (left <= (left + right) / 2 <= right)%Z).
    { split; [apply Z.div_le_lower_bound|apply Z.div_le_upper_bound]; lia. }
    rewrite !IH by lia. reflexivity.
Qed.

(** The rounds that [linearInterpolate] allows are enough: with any
    number of further rounds the search gives the same result. *)
Lemma searchLoop_finishes x xs ys extra :
  searchLoop (S (length xs) + extra) x xs ys 0 (Z.of_nat (length xs) - 1)
  = searchLoop (S (length xs)) x xs ys 0 (Z.of_nat (length xs) - 1).
Proof.
  induction extra as [|extra IH].
  - rewrite Nat.add_0_r. reflexivity.
  - rewrite Nat.add_succ_r, searchLoop_one_more by lia. exact IH.
Qed.

End InterpolationProps.

(** ** The IRR solver *)

Module IrrProps.

Import Backtest.
Local Open Scope float_scope.

Section WithMathPow.

Variable Math_pow : JS.number -> JS.number -> JS.number.
Variable cashFlows : list JS.number.

Local Abbreviation next := (Reference.newtonNext Math_pow cashFlows).

(** *** The net present value *)

Lemma reduce_indexed_pair {A B : Type} (f : A * B -> JS.number -> nat -> A * B)
  (g : A -> JS.number -> nat -> A) (h : B -> JS.number -> nat -> B) :
  (forall a b cf idx, f (a, b) cf idx = (g a cf idx, h b cf idx)) ->
  forall l idx a b,
    reduce_indexed f l idx (a, b) = (reduce_indexed g l idx a, reduce_indexed h l idx b).
Proof.
  intros H. induction l as [|cf l IH]; intros idx a b; cbn [reduce_indexed].
  - reflexivity.
  - rewrite H. apply IH.
Qed.

(** The two sums of a Newton round are the net present value and its
    derivative; above -0.999999 the [npv] of the bisection is the same net
    present value. *)
Lemma newtonSums_presentValue rate :
  newtonSums Math_pow cashFlows rate
  = (Reference.presentValue Math_pow cashFlows rate,
     Reference.presentValueSlope Math_pow cashFlows rate).
Proof.
  unfold newtonSums, Reference.presentValue, Reference.presentValueSlope.
  apply reduce_indexed_pair. intros a b cf [|t]; reflexivity.
Qed.

Lemma npv_presentValue rate :
  (rate <=? -0.999999) = false ->
  npv Math_pow cashFlows rate = Reference.presentValue Math_pow cashFlows rate.
Proof. intros H. unfold npv. rewrite H. reflexivity. Qed.

(** *** The Newton-Raphson phase *)

(** One round of the Newton loop. *)
Lemma newtonLoop_step iterations rate :
  newtonLoop Math_pow cashFlows (S iterations) rate
  = if Reference.newtonConverged Math_pow cashFlows rate then Some rate
    else if Reference.newtonUsable Math_pow cashFlows rate
         then newtonLoop Math_pow cashFlows iterations (next rate)
         else None.
Proof.
  cbn [newtonLoop]. rewrite newtonSums_presentValue.
  unfold Reference.newtonConverged, Reference.newtonUsable, Reference.newtonNext.
  cbv zeta.
  set (npvVal := Reference.presentValue Math_pow cashFlows rate).
  set (dNpv := Reference.presentValueSlope Math_pow cashFlows rate).
  destruct (JS.Math_abs npvVal <? 1e-7); [reflexivity|].
  destruct (JS.isFinite dNpv), (dNpv =? 0); try reflexivity.
  cbn [negb orb andb].
  destruct (JS.isFinite (rate - npvVal / dNpv)),
           (rate - npvVal / dNpv <=? -0.999); reflexivity.
Qed.

(** The loop returns a rate exactly when the iteration finds a root
    within its rounds, and the rate is that root. *)
Lemma newtonLoop_some : forall iterations rate result,
  newtonLoop Math_pow cashFlows iterations rate = Some result
  <-> exists k, (k < iterations)%nat
                /\ Reference.newtonRun Math_pow cashFlows rate k
                /\ result = Nat.iter k next rate.
Proof.
  induction iterations as [|n IH]; intros rate result.
  - split; [discriminate|]. intros (k & Hk & _). lia.
  - rewrite newtonLoop_step. split.
    + destruct (Reference.newtonConverged Math_pow cashFlows rate) eqn:C.
      * intros H. inversion H. subst result. exists 0%nat.
        split; [lia|]. split; [|reflexivity].
        split; [exact C|]. intros j Hj. lia.
      * destruct (Reference.newtonUsable Math_pow cashFlows rate) eqn:U; [|discriminate].
        intros H. apply IH in H. destruct H as (k & Hk & (Hc & Hg) & Hr).
        exists (S k). split; [lia|]. split.
        -- split.
           ++ cbv zeta. rewrite Nat.iter_succ_r. exact Hc.
           ++ intros [|j] Hj; [split; [exact C|exact U]|].
              cbv zeta. rewrite Nat.iter_succ_r. apply Hg. lia.
        -- rewrite Nat.iter_succ_r. exact Hr.
    + intros ([|k] & Hk & (Hc & Hg) & Hr).
      * change (Reference.newtonConverged Math_pow cashFlows rate = true) in Hc.
        change (result = rate) in Hr. rewrite Hc. congruence.
      * destruct (Hg 0%nat ltac:(lia)) as [C U].
        change (Reference.newtonConverged Math_pow cashFlows rate = false) in C.
        change (Reference.newtonUsable Math_pow cashFlows rate = true) in U.
        rewrite C, U. apply IH. exists k. split; [lia|]. split.
        -- split.
           ++ cbv zeta in Hc. rewrite Nat.iter_succ_r in Hc. exact Hc.
           ++ intros j Hj. specialize (Hg (S j) ltac:(lia)).
              cbv zeta in Hg. rewrite Nat.iter_succ_r in Hg. exact Hg.
        -- rewrite Nat.iter_succ_r in Hr. exact Hr.
Qed.

Lemma newtonLoop_none :
  newtonLoop Math_pow cashFlows 60 0.1 = None <-> Reference.newtonGivesUp Math_pow cashFlows.
Proof.
  split.
  - intros N k Hk R.
    assert (S : newtonLoop Math_pow cashFlows 60 0.1 = Some (Nat.iter k next 0.1)).
    { apply newtonLoop_some. exists k. split; [exact Hk|]. split; [exact R|reflexivity]. }
    congruence.
  - intros G. destruct (newtonLoop Math_pow cashFlows 60 0.1) as [r|] eqn:N; [|reflexivity].
    apply newtonLoop_some in N. destruct N as (k & Hk & R & _).
    exfalso. exact (G k Hk R).
Qed.

Local Abbreviation half := (Reference.halve Math_pow cashFlows).

(** *** The bisection phase *)

(** One round of the bisection loop, whose [npvLow] is the net present
    value at [low]. *)
Lemma bisectLoop_step iterations low high npvHigh :
  bisectLoop Math_pow cashFlows (S iterations) low high
    (npv Math_pow cashFlows low) npvHigh
  = if Reference.bisectConverged Math_pow cashFlows (low, high) then Reference.midpoint (low, high)
    else bisectLoop Math_pow cashFlows iterations
           (fst (half (low, high))) (snd (half (low, high)))
           (npv Math_pow cashFlows (fst (half (low, high))))
           (if npv Math_pow cashFlows low
               * npv Math_pow cashFlows (Reference.midpoint (low, high)) <? 0
            then npv Math_pow cashFlows (Reference.midpoint (low, high)) else npvHigh).
Proof.
  cbn [bisectLoop].
  unfold Reference.bisectConverged, half, Reference.halve, Reference.midpoint.
  cbn [fst snd]. cbv zeta.
  destruct (JS.Math_abs (npv Math_pow cashFlows ((low + high) / 2)) <? 1e-7);
    [reflexivity|].
  destruct (npv Math_pow cashFlows low * npv Math_pow cashFlows ((low + high) / 2) <? 0);
    reflexivity.
Qed.

(** The loop returns the midpoint of the bracket at which bisection
    stops. *)
Lemma bisectLoop_run : forall rounds b npvHigh,
  exists k, Reference.bisectRun Math_pow cashFlows b rounds k
            /\ bisectLoop Math_pow cashFlows rounds (fst b) (snd b)
                 (npv Math_pow cashFlows (fst b)) npvHigh
               = Reference.midpoint (Nat.iter k half b).
Proof.
  induction rounds as [|n IH]; intros [low high] npvHigh; cbn [fst snd].
  - exists 0%nat. split; [|reflexivity].
    split; [lia|]. split; intros; lia.
  - rewrite bisectLoop_step.
    destruct (Reference.bisectConverged Math_pow cashFlows (low, high)) eqn:C.
    + exists 0%nat. split; [|reflexivity].
      split; [lia|]. split; [intros _; exact C|intros j Hj; lia].
    + match goal with
      | |- context [bisectLoop _ _ _ _ _ _ ?h] =>
          destruct (IH (half (low, high)) h) as (k & (Hk & Hc & Hn) & E)
      end.
      exists (S k). split.
      * split; [lia|]. split.
        -- intros L. cbv zeta. rewrite Nat.iter_succ_r. apply Hc. lia.
        -- intros [|j] Hj; [exact C|].
           cbv zeta. rewrite Nat.iter_succ_r. apply Hn. lia.
      * rewrite E, Nat.iter_succ_r. reflexivity.
Qed.

Lemma bisectRun_unique b rounds k k' :
  Reference.bisectRun Math_pow cashFlows b rounds k ->
  Reference.bisectRun Math_pow cashFlows b rounds k' -> k = k'.
Proof.
  intros (Hk & Hc & Hn) (Hk' & Hc' & Hn').
  destruct (Nat.lt_trichotomy k k') as [L|[E|L]]; [|exact E|].
  - rewrite (Hn' k L) in Hc. specialize (Hc ltac:(lia)). discriminate.
  - rewrite (Hn k' L) in Hc'. specialize (Hc' ltac:(lia)). discriminate.
Qed.

Lemma bisection_some rate :
  bisection Math_pow cashFlows = Some rate
  <-> Reference.noSignChange Math_pow cashFlows = false
      /\ exists k, Reference.bisectReturnsAt Math_pow cashFlows k
                   /\ rate = Reference.midpoint (Reference.bracketAfter Math_pow cashFlows k).
Proof.
  unfold bisection, Reference.noSignChange. cbv zeta.
  destruct (negb (JS.isFinite (npv Math_pow cashFlows (-0.999)))
            || negb (JS.isFinite (npv Math_pow cashFlows 10))
            || (0 <? npv Math_pow cashFlows (-0.999) * npv Math_pow cashFlows 10)).
  - split; [discriminate|]. intros [H _]. discriminate.
  - destruct (bisectLoop_run 120 (-0.999, 10) (npv Math_pow cashFlows 10))
      as (k & R & E).
    cbn [fst snd] in E. rewrite E. split.
    + intros H. injection H as H. split; [reflexivity|].
      exists k. split; [exact R|]. symmetry. exact H.
    + intros (_ & k' & R' & ->).
      rewrite (bisectRun_unique _ _ _ _ R R'). reflexivity.
Qed.

Lemma bisection_none :
  bisection Math_pow cashFlows = None
  <-> Reference.noSignChange Math_pow cashFlows = true.
Proof.
  unfold bisection, Reference.noSignChange. cbv zeta.
  destruct (negb (JS.isFinite (npv Math_pow cashFlows (-0.999)))
            || negb (JS.isFinite (npv Math_pow cashFlows 10))
            || (0 <? npv Math_pow cashFlows (-0.999) * npv Math_pow cashFlows 10));
    split; intros H; try reflexivity; discriminate.
Qed.

Lemma monthlyIrrOf_null frequency numPeriods safeCapital flow finalCapital :
  calculateIrr Math_pow
    (irrCashFlows frequency numPeriods safeCapital flow finalCapital) = None ->
  monthlyIrrOf Math_pow frequency numPeriods safeCapital flow finalCapital = 0.
Proof.
  intros H. unfold monthlyIrrOf. rewrite H.
  destruct ((0 <? numPeriods)%nat && (0 <? safeCapital)); [|reflexivity].
  destruct frequency; reflexivity.
Qed.

(** C4: [calculateIrr] is a total function of the cash flows: it
    returns a rate or null and has no other outcome.  It returns a rate
    exactly in two cases, and the rate is then the one named.  Either the
    Newton-Raphson iteration from 0.1 finds a root at an update [k] below
    60 (the net present value is within [1e-7] of zero at the iterate [k];
    at every earlier iterate it is not, the derivative is finite and not
    zero and the next rate is finite and above -0.999), and the rate is the
    iterate [k].  Or Newton-Raphson gives up, the net present value is
    finite at the bounds -0.999 and 10 and changes sign across them, and
    the rate is the midpoint of the bracket at which bisection from
    (-0.999, 10) stops: the first, after at most 120 halvings, whose
    midpoint has a net present value within [1e-7] of zero, or the 120th;
    a halving keeps the lower half when the net present value changes sign
    between the lower bound and the midpoint, else the upper half.  Null
    is returned exactly when there are fewer than two cash flows, or
    Newton-Raphson gives up and the net present value has no sign change
    across the bounds (or is not finite there).  The sums of a Newton round
    are the net present value and its derivative.  In [runBacktest] the
    monthly IRR is 0 for a degenerate request and otherwise computed from
    the cash flows of the [rows.length - 1] periods and of the final capital
    with withdrawals; when [calculateIrr] returns null on these cash flows
    the monthly IRR is 0. *)
Theorem C4_irr_solver :
  (forall rate,
     calculateIrr Math_pow cashFlows = Some rate
     <-> (2 <= length cashFlows)%nat
         /\ ((exists k, (k < 60)%nat
                        /\ Reference.newtonReturnsAt Math_pow cashFlows k
                        /\ rate = Reference.newtonIterate Math_pow cashFlows k)
             \/ (Reference.newtonGivesUp Math_pow cashFlows
                 /\ Reference.noSignChange Math_pow cashFlows = false
                 /\ exists k,
                      Reference.bisectReturnsAt Math_pow cashFlows k
                      /\ rate = Reference.midpoint
                                  (Reference.bracketAfter Math_pow cashFlows k))))
  /\ (calculateIrr Math_pow cashFlows = None
      <-> (length cashFlows < 2)%nat
          \/ (Reference.newtonGivesUp Math_pow cashFlows
              /\ Reference.noSignChange Math_pow cashFlows = true))
  /\ (forall rate,
       newtonSums Math_pow cashFlows rate
       = (Reference.presentValue Math_pow cashFlows rate,
          Reference.presentValueSlope Math_pow cashFlows rate)
       /\ ((rate <=? -0.999999) = false ->
           npv Math_pow cashFlows rate
           = Reference.presentValue Math_pow cashFlows rate))
  /\ (forall input,
       let result := runBacktest Math_pow input in
       let metrics := BacktestResult.metrics result in
       let numPeriods := (length (BacktestResult.rows result) - 1)%nat in
       let netMonthlyFlow :=
         BacktestInput.monthlyWithdrawal input - monthlyInvestmentOf input in
       let finalCapital := BacktestMetrics.finalCapitalWithWithdrawal metrics in
       BacktestMetrics.monthlyIrr metrics
       = (if degenerate input then 0
          else monthlyIrrOf Math_pow (BacktestInput.frequency input) numPeriods
                 (safeCapitalOf input) netMonthlyFlow finalCapital)
       /\ (cashFlows
           = irrCashFlows (BacktestInput.frequency input) numPeriods
               (safeCapitalOf input) netMonthlyFlow finalCapital ->
           calculateIrr Math_pow cashFlows = None ->
           BacktestMetrics.monthlyIrr metrics = 0)).
Proof.
  split; [|split; [|split]].
  - intros rate. unfold calculateIrr.
    destruct (length cashFlows <? 2)%nat eqn:L.
    { apply Nat.ltb_lt in L. split; [discriminate|]. intros [H _]. lia. }
    apply Nat.ltb_ge in L.
    destruct (newtonLoop Math_pow cashFlows 60 0.1) as [found|] eqn:N.
    + split.
      * intros H. injection H as <-. split; [exact L|]. left.
        apply newtonLoop_some in N. exact N.
      * intros (_ & [(k & Hk & R & ->)|(G & _)]).
        -- assert (S : newtonLoop Math_pow cashFlows 60 0.1
                       = Some (Reference.newtonIterate Math_pow cashFlows k)).
           { apply newtonLoop_some. exists k. split; [exact Hk|].
             split; [exact R|reflexivity]. }
           congruence.
        -- apply newtonLoop_none in G. congruence.
    + rewrite bisection_some. split.
      * intros (Sg & B). split; [exact L|]. right.
        split; [apply newtonLoop_none; exact N|]. split; assumption.
      * intros (_ & [(k & Hk & R & _)|(_ & Sg & B)]).
        -- apply newtonLoop_none in N. exfalso. exact (N k Hk R).
        -- split; assumption.
  - unfold calculateIrr.
    destruct (length cashFlows <? 2)%nat eqn:L.
    + apply Nat.ltb_lt in L. tauto.
    + apply Nat.ltb_ge in L.
      destruct (newtonLoop Math_pow cashFlows 60 0.1) as [found|] eqn:N.
      * split; [discriminate|]. intros [H|[G _]]; [lia|].
        apply newtonLoop_none in G. congruence.
      * rewrite bisection_none. apply newtonLoop_none in N. split; [tauto|].
        intros [H|[_ H]]; [lia|exact H].
  - intros rate. split; [apply newtonSums_presentValue|apply npv_presentValue].
  - intros input. cbv zeta.
    assert (E : BacktestMetrics.monthlyIrr
                  (BacktestResult.metrics (runBacktest Math_pow input))
                = if degenerate input then 0
                  else monthlyIrrOf Math_pow (BacktestInput.frequency input)
                         (length (BacktestResult.rows (runBacktest Math_pow input)) - 1)
                         (safeCapitalOf input)
                         (BacktestInput.monthlyWithdrawal input - monthlyInvestmentOf input)
                         (BacktestMetrics.finalCapitalWithWithdrawal
                            (BacktestResult.metrics (runBacktest Math_pow input)))).
    { unfold runBacktest. cbv zeta. destruct (degenerate input); reflexivity. }
    split; [exact E|].
    intros -> H. rewrite E. destruct (degenerate input); [reflexivity|].
    apply monthlyIrrOf_null. exact H.
Qed.

End WithMathPow.

End IrrProps.

(** ** Break-evens *)

Module BreakEvenProps.

Import StrategyMath.
Local Open Scope float_scope.

Lemma fixed_string_eqb_eq a b : JS.fixed_string_eqb a b = true <-> a = b.
Proof.
  destruct a as [|s|s x|s n], b as [|t|t y|t m]; cbn [JS.fixed_string_eqb];
    try (split; [discriminate|intros H; discriminate H]).
  - tauto.
  - rewrite Bool.eqb_true_iff. split; [intros ->; reflexivity|congruence].
  - rewrite andb_true_iff, Bool.eqb_true_iff, Leibniz.eqb_spec.
    split; [intros [-> ->]; reflexivity|intros H; inversion H; tauto].
  - rewrite andb_true_iff, Bool.eqb_true_iff, Z.eqb_eq.
    split; [intros [-> ->]; reflexivity|intros H; inversion H; tauto].
Qed.

Lemma Set_has_In key keys : Set_has key keys = true <-> In key keys.
Proof.
  unfold Set_has. rewrite existsb_exists. split.
  - intros (k & Hk & E). apply fixed_string_eqb_eq in E. subst k. exact Hk.
  - intros H. exists key. split; [exact H|]. apply fixed_string_eqb_eq. reflexivity.
Qed.

Lemma crosses_signChange l r : crosses l r = true <-> Reference.signChange l r.
Proof.
  unfold crosses, Reference.signChange.
  rewrite orb_true_iff, !andb_true_iff. reflexivity.
Qed.

(** At a sign change the difference of the two profits is not zero, so
    the guard [delta !== 0] of the loop always holds there. *)
Lemma crossingMove_zeroCrossing l r :
  crosses l r = true -> crossingMove l r = Reference.zeroCrossing l r.
Proof.
  intros H. unfold crossingMove, Reference.zeroCrossing. cbv zeta.
  assert (D : (PayoffData.profit r - PayoffData.profit l =? 0) = false).
  { apply crosses_signChange in H. destruct H as [[Hl Hr]|[Hl Hr]].
    - apply JSFacts.sub_pos_nonpos_nonzero; assumption.
    - apply JSFacts.sub_neg_nonneg_nonzero; assumption. }
  rewrite D. reflexivity.
Qed.

Lemma consecutive_cons {A : Type} (a b x : A) data :
  Reference.consecutive a b (x :: data)
  <-> (a = x /\ exists rest, data = b :: rest) \/ Reference.consecutive a b data.
Proof.
  unfold Reference.consecutive. split.
  - intros ([|y before] & after & E); cbn in E; inversion E; subst.
    + left. eauto.
    + right. eauto.
  - intros [[-> (rest & ->)]|(before & after & ->)].
    + exists [], rest. reflexivity.
    + exists (x :: before), after. reflexivity.
Qed.

Lemma scanBreakEvens_step l r rest keys acc :
  scanBreakEvens (l :: r :: rest) keys acc
  = if crosses l r then
      if negb (Set_has (Reference.keyOf (Reference.candidate l r)) keys)
      then scanBreakEvens (r :: rest) (Reference.keyOf (Reference.candidate l r) :: keys)
             (acc ++ [Reference.candidate l r])
      else scanBreakEvens (r :: rest) keys acc
    else scanBreakEvens (r :: rest) keys acc.
Proof. reflexivity. Qed.

(** What the scan guarantees of its result, given accumulators that
    agree with one another. *)
Lemma scanBreakEvens_spec payoffData : forall breakEvenKeys breakEvens,
  (forall k, In k breakEvenKeys <-> In k (map Reference.keyOf breakEvens)) ->
  NoDup (map Reference.keyOf breakEvens) ->
  let result := scanBreakEvens payoffData breakEvenKeys breakEvens in
  NoDup (map Reference.keyOf result)
  /\ (forall x, In x breakEvens -> In x result)
  /\ (forall x, In x result ->
       In x breakEvens
       \/ exists l r, Reference.consecutive l r payoffData
                      /\ crosses l r = true /\ x = Reference.candidate l r)
  /\ (forall l r, Reference.consecutive l r payoffData -> crosses l r = true ->
       In (Reference.keyOf (Reference.candidate l r)) (map Reference.keyOf result)).
Proof.
  induction payoffData as [|l data IH]; intros keys acc K N; cbv zeta.
  - cbn [scanBreakEvens]. repeat split; auto.
    intros l r (before & after & E). destruct before; discriminate.
  - destruct data as [|r rest].
    + cbn [scanBreakEvens]. repeat split; auto.
      intros a b (before & after & E).
      destruct before as [|? [|? ?]]; discriminate.
    + rewrite scanBreakEvens_step.
      destruct (crosses l r) eqn:C.
      * destruct (Set_has (Reference.keyOf (Reference.candidate l r)) keys) eqn:Hs; cbn [negb].
        -- destruct (IH keys acc K N) as (R1 & R2 & R3 & R4).
           split; [exact R1|]. split; [exact R2|]. split.
           ++ intros x Hx. destruct (R3 x Hx) as [H|(a & b & Hc & Hx1 & Hx2)];
                [left; exact H|].
              right. exists a, b. split; [|split; assumption].
              apply consecutive_cons. right. exact Hc.
           ++ intros a b Hc Hab. apply consecutive_cons in Hc.
              destruct Hc as [[-> (rest' & E)]|Hc].
              ** injection E as <- <-.
                 apply Set_has_In in Hs. apply K in Hs.
                 apply in_map_iff in Hs. destruct Hs as (y & Hy & Iy).
                 rewrite <- Hy. apply in_map. apply R2. exact Iy.
              ** apply R4; assumption.
        -- assert (Hn : ~ In (Reference.keyOf (Reference.candidate l r)) keys).
           { intros I. apply Set_has_In in I. rewrite I in Hs. discriminate. }
           destruct (IH (Reference.keyOf (Reference.candidate l r) :: keys) (acc ++ [Reference.candidate l r]))
             as (R1 & R2 & R3 & R4).
           { intros k. rewrite map_app, in_app_iff. cbn [map In].
             rewrite (K k). tauto. }
           { rewrite map_app. cbn [map].
             apply NoDup_app_remove_l with (l := []).
             apply Permutation_NoDup with (l := Reference.keyOf (Reference.candidate l r) :: map Reference.keyOf acc).
             - apply Permutation_cons_append.
             - constructor; [|exact N]. rewrite <- K. exact Hn. }
           split; [exact R1|]. split.
           ++ intros x Hx. apply R2. apply in_app_iff. left. exact Hx.
           ++ split.
              ** intros x Hx. destruct (R3 x Hx) as [H|(a & b & Hc & Hx1 & Hx2)].
                 --- apply in_app_iff in H. destruct H as [H|[H|[]]].
                     +++ left. exact H.
                     +++ right. exists l, r. split; [|split; [exact C|congruence]].
                         exists [], rest. reflexivity.
                 --- right. exists a, b. split; [|split; assumption].
                     apply consecutive_cons. right. exact Hc.
              ** intros a b Hc Hab. apply consecutive_cons in Hc.
                 destruct Hc as [[-> (rest' & E)]|Hc].
                 --- injection E as <- <-. apply in_map. apply R2.
                     apply in_app_iff. right. left. reflexivity.
                 --- apply R4; assumption.
      * destruct (IH keys acc K N) as (R1 & R2 & R3 & R4).
        split; [exact R1|]. split; [exact R2|]. split.
        -- intros x Hx. destruct (R3 x Hx) as [H|(a & b & Hc & Hx1 & Hx2)];
             [left; exact H|].
           right. exists a, b. split; [|split; assumption].
           apply consecutive_cons. right. exact Hc.
        -- intros a b Hc Hab. apply consecutive_cons in Hc.
           destruct Hc as [[-> (rest' & E)]|Hc].
           ++ injection E as <- <-. rewrite C in Hab. discriminate.
           ++ apply R4; assumption.
Qed.

(** *** Sorting *)

Lemma sub_antisym x y : (x - y <? 0) = true -> (y - x <? 0) = false.
Proof.
  rewrite !ltb_spec, JSFacts.Prim2SF_zero.
  pose proof (JSFacts.opp_sub_same x y) as S.
  apply JSFacts.SameValueZero_spec in S. rewrite opp_spec in S.
  destruct (Prim2SF (x - y)) as [s|s| |s m e]; cbn; try discriminate;
    destruct s; try discriminate; intros _;
    (destruct S as [S|(s & t & S1 & S2)]; [|discriminate]);
    cbn in S; rewrite <- S; reflexivity.
Qed.

Lemma insert_by_perm cmp x l : Permutation (JS.insert_by cmp x l) (x :: l).
Proof.
  induction l as [|y l IH]; cbn [JS.insert_by]; [reflexivity|].
  destruct (cmp x y <? 0); [reflexivity|].
  rewrite IH. apply perm_swap.
Qed.

Lemma Array_sort_perm cmp l : Permutation (JS.Array_sort cmp l) l.
Proof.
  unfold JS.Array_sort.
  assert (G : forall acc,
             Permutation (fold_left (fun acc x => JS.insert_by cmp x acc) l acc)
               (l ++ acc)).
  { induction l as [|x l IH]; intros acc; cbn [fold_left app]; [reflexivity|].
    rewrite IH, insert_by_perm. symmetry. apply Permutation_middle. }
  rewrite G, app_nil_r. reflexivity.
Qed.

Lemma insert_by_sorted x l :
  Sorted Reference.comparatorAscending l ->
  Sorted Reference.comparatorAscending (JS.insert_by (fun a b => a - b) x l).
Proof.
  induction l as [|y l IH]; intros H; cbn [JS.insert_by].
  - repeat constructor.
  - destruct (x - y <? 0) eqn:C.
    + constructor; [exact H|]. constructor.
      unfold Reference.comparatorAscending. apply sub_antisym. exact C.
    + inversion H as [|? ? Hs Hh]; subst.
      constructor; [apply IH; exact Hs|].
      destruct l as [|z l]; cbn [JS.insert_by].
      * constructor. exact C.
      * destruct (x - z <? 0).
        -- constructor. exact C.
        -- inversion Hh; subst. constructor. assumption.
Qed.

Lemma Array_sort_comparator l :
  Sorted Reference.comparatorAscending (JS.Array_sort (fun a b => a - b) l).
Proof.
  unfold JS.Array_sort.
  assert (G : forall acc,
             Sorted Reference.comparatorAscending acc ->
             Sorted Reference.comparatorAscending
               (fold_left (fun acc x => JS.insert_by (fun a b => a - b) x acc) l acc)).
  { induction l as [|x l IH]; intros acc H; cbn [fold_left]; [exact H|].
    apply IH. apply insert_by_sorted. exact H. }
  apply G. constructor.
Qed.

Lemma comparatorAscending_ascending a b :
  Reference.comparatorAscending a b -> Reference.ascending a b.
Proof.
  unfold Reference.comparatorAscending, Reference.ascending. intros H.
  destruct (b <? a) eqn:L; [|reflexivity].
  apply JSFacts.ltb_sub in L. congruence.
Qed.

Lemma Sorted_weaken {A : Type} (R R' : A -> A -> Prop) l :
  (forall a b, R a b -> R' a b) -> Sorted R l -> Sorted R' l.
Proof.
  intros W H. induction H as [|a l Hs IH Hh]; constructor; [exact IH|].
  destruct Hh; constructor. apply W. assumption.
Qed.

Lemma Array_sort_sorted l :
  Sorted Reference.ascending (JS.Array_sort (fun a b => a - b) l).
Proof.
  apply Sorted_weaken with (R := Reference.comparatorAscending).
  - exact comparatorAscending_ascending.
  - apply Array_sort_comparator.
Qed.

Lemma leb_trans a b c : (a <=? b) = true -> (b <=? c) = true -> (a <=? c) = true.
Proof.
  intros H1 H2. apply OrderFacts.leb_true in H1, H2.
  destruct H1 as (Na & Nb & H1), H2 as (_ & Nc & H2).
  rewrite (OrderFacts.leb_ord a c Na Nc). apply Z.leb_le. lia.
Qed.

(** Without NaN, a list in which no entry is followed by a smaller one
    is a chain of [<=], and every entry is [<=] every later one. *)
Lemma Sorted_leb l :
  Forall (fun x => is_nan x = false) l ->
  Sorted Reference.ascending l ->
  StronglySorted (fun a b => (a <=? b) = true) l.
Proof.
  intros N S. apply Sorted_StronglySorted.
  - intros a b c. apply leb_trans.
  - induction S as [|a l S IH H]; constructor.
    + apply IH. inversion N; assumption.
    + inversion N as [|? ? Na Nl]; subst.
      destruct H as [|b l H]; constructor.
      inversion Nl; subst. apply JSFacts.not_ltb_leb; assumption.
Qed.

(** C2, as stated: on a curve whose profit goes from -1 to 1 and then
    from plus infinity to minus infinity, the loop finds the break-evens -5
    and NaN, in this order; every comparison of the sort returns NaN, a
    tie, so the sort leaves them so; and -5 <= NaN does not hold: the
    collection is not in ascending order. *)
Lemma C2_nan_break_even_counterexample :
  scanBreakEvens Sample.divergingCurve [] [] = [-5; nan]
  /\ StrategyStats.breakEvens (calculateStrategyStats [] Sample.divergingCurve 30)
     = [-5; nan]
  /\ is_nan (-5 - nan) = true /\ is_nan (nan - -5) = true
  /\ (-5 <=? nan) = false.
Proof. repeat split; vm_compute; reflexivity. Qed.

(** C2, amended: for every payoff curve, whenever the profit changes
    sign between two consecutive samples (a left profit of exactly zero
    included), the break-evens hold an entry with the 4-decimal text of
    [leftMove + t * (rightMove - leftMove)], [t = (0 - leftProfit) /
    (rightProfit - leftProfit)], rounded to 4 decimals; every entry is such
    a rounded interpolation; no two entries have the same 4-decimal text;
    and, when no entry is NaN, the entries are in ascending order: every
    entry is [<=] every later one. *)
Theorem C2_break_evens legs payoffData currentPrice :
  let breakEvens :=
    StrategyStats.breakEvens (calculateStrategyStats legs payoffData currentPrice) in
  (forall l r,
     Reference.consecutive l r payoffData -> Reference.signChange l r ->
     exists x, In x breakEvens
               /\ JS.toFixed 4 x
                  = JS.toFixed 4 (JS.round_fixed 4 (Reference.zeroCrossing l r)))
  /\ (forall x,
       In x breakEvens ->
       exists l r, Reference.consecutive l r payoffData
                   /\ Reference.signChange l r
                   /\ x = JS.round_fixed 4 (Reference.zeroCrossing l r))
  /\ NoDup (map (JS.toFixed 4) breakEvens)
  /\ (Forall (fun x => is_nan x = false) breakEvens ->
      StronglySorted (fun a b => (a <=? b) = true) breakEvens).
Proof.
  cbv zeta.
  destruct payoffData as [|d0 data].
  - cbn [calculateStrategyStats StrategyStats.breakEvens].
    repeat split; try constructor.
    + intros l r (before & after & E). destruct before; discriminate.
    + intros x [].
  - set (curve := d0 :: data).
    change (StrategyStats.breakEvens (calculateStrategyStats legs curve currentPrice))
      with (findBreakEvens curve).
    unfold findBreakEvens.
    destruct (scanBreakEvens_spec curve [] []) as (R1 & _ & R3 & R4).
    { intros k. reflexivity. }
    { constructor. }
    pose proof (Array_sort_perm (fun a b => a - b) (scanBreakEvens curve [] [])) as P.
    split; [|split; [|split]].
    + intros l r Hc Hs. apply crosses_signChange in Hs.
      pose proof (R4 l r Hc Hs) as I.
      apply in_map_iff in I. destruct I as (x & Hx & Ix).
      exists x. split.
      * apply Permutation_in with (l := scanBreakEvens curve [] []);
          [symmetry; exact P|exact Ix].
      * unfold Reference.keyOf, Reference.candidate in Hx.
        rewrite (crossingMove_zeroCrossing l r Hs) in Hx. exact Hx.
    + intros x Hx.
      apply (Permutation_in _ P) in Hx.
      destruct (R3 x Hx) as [[]|(l & r & Hc & Hs & E)].
      exists l, r. split; [exact Hc|]. split; [apply crosses_signChange; exact Hs|].
      unfold Reference.candidate in E.
      rewrite (crossingMove_zeroCrossing l r Hs) in E. exact E.
    + apply Permutation_NoDup with (l := map Reference.keyOf (scanBreakEvens curve [] []));
        [|exact R1].
      apply Permutation_map. symmetry. exact P.
    + intros N. apply Sorted_leb; [exact N|]. apply Array_sort_sorted.
Qed.

End BreakEvenProps.

(** ** The scenarios of the specification, evaluated *)

Module Scenarios.

Import Backtest.
Local Open Scope float_scope.

(** A long call, strike 30, premium 2, one contract of size 1: worth
    [-2] at the strike and 0 at strike plus premium. *)
Example long_call_at_strike :
  StrategyMath.calculateLegPayoff
    (Sample.leg OPTION BUY (Some CALL) (Some 30) 2 1 (Some 1)) 30 = -2
  /\ StrategyMath.calculateLegPayoff
       (Sample.leg OPTION BUY (Some CALL) (Some 30) 2 1 (Some 1)) 32 = 0.
Proof. split; vm_compute; reflexivity. Qed.

(** The bear call spread at price 30: a credit of 100, a maximum profit
    and a maximum loss of 100, and one break-even, at a move of 3.3333%. *)
Example bear_call_spread_stats :
  StrategyMath.calculateStrategyStats Sample.bearCallSpread
    (StrategyMath.generatePayoffData Sample.bearCallSpread 30) 30
  = {| StrategyStats.maxProfit := Num 100;
       StrategyStats.maxLoss := Num 100;
       StrategyStats.breakEvens := [3.3333];
       StrategyStats.netPremium := 100;
       StrategyStats.capitalAtRisk := Some 100;
       StrategyStats.maxProfitPct := Some 100;
       StrategyStats.maxLossPct := Some (-100);
       StrategyStats.spotPnl := 100 |}.
Proof. vm_compute. reflexivity. Qed.

(** The cash flows [-1000, 1100] have an IRR of 10%; the cash flows
    [1000, 1100] have no sign change and no IRR. *)
Example irr_of_two_cash_flows :
  calculateIrr Sample.Math_pow [-1000; 1100] = Some 0.1
  /\ calculateIrr Sample.Math_pow [1000; 1100] = None.
Proof. split; vm_compute; reflexivity. Qed.

(** The cash flows [-100, 1] have an IRR of -99%: the first Newton
    update leaves the admissible range, and bisection, not stopping at the
    first midpoint 4.5005, closes in on the rate from the lower half. *)
Example irr_by_bisection :
  newtonLoop Sample.Math_pow [-100; 1] 60 0.1 = None
  /\ Reference.newtonUsable Sample.Math_pow [-100; 1] 0.1 = false
  /\ Reference.bracketAfter Sample.Math_pow [-100; 1] 3 = (-0.999, 0.3758749999999999)
  /\ calculateIrr Sample.Math_pow [-100; 1] = Some (-0.9900000000001784).
Proof. repeat split; vm_compute; reflexivity. Qed.

(** A run with a gap: four history points give three rows. *)
Example gap_is_skipped :
  length (BacktestResult.rows
            (runBacktest Sample.Math_pow (Sample.request Sample.withGap false)))
  = 3%nat.
Proof. vm_compute. reflexivity. Qed.

End Scenarios.

(** * Further properties *)

(** ** The search of [linearInterpolate] on an increasing table *)

Module SearchProps.

Import Backtest.
Local Open Scope float_scope.

Lemma ltb_trans a b c : (a <? b) = true -> (b <? c) = true -> (a <? c) = true.
Proof.
  intros H1 H2.
  apply OrderFacts.ltb_true in H1. destruct H1 as (Na & Nb & H1).
  apply OrderFacts.ltb_true in H2. destruct H2 as (_ & Nc & H2).
  rewrite (OrderFacts.ltb_ord a c Na Nc). apply Z.ltb_lt. lia.
Qed.

Lemma increasing_nth xs :
  Reference.increasing xs ->
  forall i j, (i < j < length xs)%nat -> (nth i xs nan <? nth j xs nan) = true.
Proof.
  intros H. apply Sorted_StronglySorted in H.
  2:{ intros a b c. apply ltb_trans. }
  induction H as [|a l Hs IH Hf]; intros i j Hij.
  - cbn in Hij. lia.
  - destruct j as [|j]; [lia|]. destruct i as [|i]; cbn [nth].
    + rewrite Forall_forall in Hf. apply Hf. apply nth_In. cbn in Hij. lia.
    + apply IH. cbn in Hij. lia.
Qed.

(** In an increasing table of two entries or more no entry is NaN, and
    the places of the entries grow with the index. *)
Lemma increasing_at xs :
  Reference.increasing xs -> (2 <= length xs)%nat ->
  (forall i, (0 <= i < Z.of_nat (length xs))%Z -> is_nan (at_ xs i) = false)
  /\ (forall i j, (0 <= i)%Z -> (i < j)%Z -> (j < Z.of_nat (length xs))%Z ->
        (Reference.ord (at_ xs i) < Reference.ord (at_ xs j))%Z).
Proof.
  intros H L.
  assert (M : forall i j, (0 <= i)%Z -> (i < j)%Z -> (j < Z.of_nat (length xs))%Z ->
                (at_ xs i <? at_ xs j) = true).
  { intros i j Hi Hij Hj. unfold at_.
    destruct (Z.ltb_spec i 0); [lia|]. destruct (Z.ltb_spec j 0); [lia|].
    apply increasing_nth; [exact H|]. lia. }
  split.
  - intros i Hi. destruct (Z.eq_dec i 0) as [->|Ni].
    + assert (Q := M 0%Z 1%Z). apply OrderFacts.ltb_true in Q; [tauto|lia|lia|lia].
    + assert (Q := M 0%Z i). apply OrderFacts.ltb_true in Q; [tauto|lia|lia|lia].
  - intros i j Hi Hij Hj. apply OrderFacts.ltb_true. apply M; assumption.
Qed.

Section Search.

Variables (x : JS.number) (xs ys : list JS.number).

Hypothesis x_number : is_nan x = false.
Hypothesis xs_numbers :
  forall i, (0 <= i < Z.of_nat (length xs))%Z -> is_nan (at_ xs i) = false.
Hypothesis xs_grow :
  forall i j, (0 <= i)%Z -> (i < j)%Z -> (j < Z.of_nat (length xs))%Z ->
    (Reference.ord (at_ xs i) < Reference.ord (at_ xs j))%Z.

(** The invariant of the loop: every entry before [left] is below [x],
    every entry after [right] is above it. *)
Lemma searchLoop_invariant : forall fuel left right,
  (0 <= left)%Z -> (right < Z.of_nat (length xs))%Z -> (left <= right + 1)%Z ->
  (right - left + 1 <= Z.of_nat fuel)%Z ->
  (forall i, (0 <= i < left)%Z ->
     (Reference.ord (at_ xs i) < Reference.ord x)%Z) ->
  (forall i, (right < i < Z.of_nat (length xs))%Z ->
     (Reference.ord x < Reference.ord (at_ xs i))%Z) ->
  match searchLoop fuel x xs ys left right with
  | inl y =>
      exists i, (0 <= i < Z.of_nat (length xs))%Z
                /\ (at_ xs i =? x) = true /\ y = at_ ys i
  | inr hi =>
      (-1 <= hi < Z.of_nat (length xs))%Z
      /\ (forall i, (0 <= i <= hi)%Z ->
            (Reference.ord (at_ xs i) < Reference.ord x)%Z)
      /\ (forall i, (hi < i < Z.of_nat (length xs))%Z ->
            (Reference.ord x < Reference.ord (at_ xs i))%Z)
  end.
Proof.
  induction fuel as [|fuel IH]; intros left right Hl Hr Hlr Hf Below Above.
  - cbn [searchLoop]. split; [lia|]. split; [|exact Above].
    intros i Hi. apply Below. lia.
  - cbn [searchLoop]. destruct (Z.leb_spec left right) as [Le|Gt].
    + set (mid := ((left + right) / 2)%Z).
      assert (Hm : (left <= mid <= right)%Z).
      { unfold mid. split.
        - apply Z.div_le_lower_bound; lia.
        - apply Z.div_le_upper_bound; lia. }
      assert (Nm : is_nan (at_ xs mid) = false) by (apply xs_numbers; lia).
      rewrite (OrderFacts.eqb_ord _ _ Nm x_number), (OrderFacts.ltb_ord _ _ Nm x_number).
      destruct (Z.eqb_spec (Reference.ord (at_ xs mid)) (Reference.ord x)) as [E|E].
      * exists mid. split; [lia|]. split; [|reflexivity].
        rewrite (OrderFacts.eqb_ord _ _ Nm x_number). apply Z.eqb_eq. exact E.
      * destruct (Z.ltb_spec (Reference.ord (at_ xs mid)) (Reference.ord x)) as [L|L].
        -- apply IH; try lia; [|exact Above].
           intros i Hi. destruct (Z.eq_dec i mid) as [->|Ni]; [exact L|].
           assert (Q := xs_grow i mid). lia.
        -- apply IH; try lia; [exact Below|].
           intros i Hi. destruct (Z.eq_dec i mid) as [->|Ni]; [lia|].
           assert (Q := xs_grow mid i). lia.
    + split; [lia|]. split; [|exact Above].
      intros i Hi. apply Below. lia.
Qed.

End Search.

(** Strictly between the first and the last abscissa of an increasing
    table the search ends on an abscissa equal to [x] or on the segment
    that brackets [x]. *)
Lemma interpolate_inside x xs ys :
  Reference.increasing xs -> length xs = length ys ->
  let last := (Z.of_nat (length xs) - 1)%Z in
  (at_ xs 0 <? x) = true -> (x <? at_ xs last) = true ->
  (exists i, (0 <= i <= last)%Z /\ (at_ xs i =? x) = true
             /\ linearInterpolate x xs ys = at_ ys i)
  \/ (exists i, (0 <= i < last)%Z
                /\ (at_ xs i <? x) = true /\ (x <? at_ xs (i + 1)) = true
                /\ linearInterpolate x xs ys
                   = Reference.lineThrough (at_ xs i) (at_ ys i)
                       (at_ xs (i + 1)) (at_ ys (i + 1)) x).
Proof.
  intros Inc Len last Lo Hi. subst last.
  apply OrderFacts.ltb_true in Lo. destruct Lo as (N0 & Nx & Lo).
  apply OrderFacts.ltb_true in Hi. destruct Hi as (_ & Nl & Hi).
  assert (L2 : (2 <= length xs)%nat).
  { destruct xs as [|a [|b l]]; [cbn in N0; discriminate| |cbn; lia].
    exfalso. cbn in Hi. cbn in Lo. lia. }
  assert (L0 : (length xs =? 0)%nat = false) by (apply Nat.eqb_neq; lia).
  assert (L1 : (length xs =? length ys)%nat = true) by (apply Nat.eqb_eq; exact Len).
  unfold linearInterpolate. rewrite L0, L1. cbn [orb negb].
  destruct (increasing_at xs Inc L2) as (Num & Grow).
  rewrite (OrderFacts.leb_ord _ _ Nx N0), (OrderFacts.leb_ord _ _ Nl Nx).
  destruct (Z.leb_spec (Reference.ord x) (Reference.ord (at_ xs 0))) as [Q|_]; [lia|].
  destruct (Z.leb_spec (Reference.ord (at_ xs (Z.of_nat (length xs) - 1)))
              (Reference.ord x)) as [Q|_]; [lia|].
  pose proof (searchLoop_invariant x xs ys Nx Num Grow (S (length xs)) 0
                (Z.of_nat (length xs) - 1)) as I.
  destruct (searchLoop (S (length xs)) x xs ys 0 (Z.of_nat (length xs) - 1)) as [y|hi].
  - destruct I as (i & Hi1 & Hi2 & ->); try lia.
    left. exists i. split; [lia|]. split; [exact Hi2|reflexivity].
  - destruct I as (Hh & Below & Above); try lia.
    assert (H0 : (0 <= hi)%Z).
    { destruct (Z.lt_ge_cases hi 0) as [Q|Q]; [|exact Q].
      assert (A := Above 0%Z). lia. }
    assert (H1 : (hi < Z.of_nat (length xs) - 1)%Z).
    { destruct (Z.lt_ge_cases hi (Z.of_nat (length xs) - 1)) as [Q|Q]; [exact Q|].
      assert (B := Below (Z.of_nat (length xs) - 1)%Z). lia. }
    right. exists hi. rewrite Z.max_r by exact H0.
    assert (B := Below hi). assert (A := Above (hi + 1)%Z).
    assert (Nh : is_nan (at_ xs hi) = false) by (apply Num; lia).
    assert (Nh1 : is_nan (at_ xs (hi + 1)) = false) by (apply Num; lia).
    split; [lia|].
    rewrite (OrderFacts.ltb_ord _ _ Nh Nx), (OrderFacts.ltb_ord _ _ Nx Nh1).
    rewrite (OrderFacts.eqb_ord _ _ Nh1 Nh).
    split; [apply Z.ltb_lt; lia|].
    split; [apply Z.ltb_lt; lia|].
    destruct (Z.eqb_spec (Reference.ord (at_ xs (hi + 1))) (Reference.ord (at_ xs hi)))
      as [E|E]; [lia|].
    reflexivity.
Qed.

(** At or beyond the ends of the table the search is not entered. *)
Lemma interpolate_ends x xs ys :
  xs <> [] -> length xs = length ys ->
  ((x <=? at_ xs 0) = true -> linearInterpolate x xs ys = at_ ys 0)
  /\ ((x <=? at_ xs 0) = false ->
      (at_ xs (Z.of_nat (length xs) - 1) <=? x) = true ->
      linearInterpolate x xs ys = at_ ys (Z.of_nat (length xs) - 1)).
Proof.
  intros Ne Len.
  assert (L0 : (length xs =? 0)%nat = false).
  { apply Nat.eqb_neq. destruct xs; [congruence|discriminate]. }
  assert (L1 : (length xs =? length ys)%nat = true) by (apply Nat.eqb_eq; exact Len).
  unfold linearInterpolate. rewrite L0, L1. cbn [orb negb].
  split; [intros ->; reflexivity|].
  intros -> H. rewrite <- Len, H. reflexivity.
Qed.

(** X1: over an increasing table with as many ordinates as abscissas,
    [linearInterpolate] returns the first ordinate at or below the first
    abscissa, the last ordinate at or above the last abscissa, and in
    between either the ordinate of the abscissa equal to [x] or the value
    of the line through the two neighbouring points that bracket [x]. *)
Theorem linearInterpolate_on_increasing x xs ys :
  Reference.increasing xs -> xs <> [] -> length xs = length ys ->
  let last := (Z.of_nat (length xs) - 1)%Z in
  ((x <=? at_ xs 0) = true -> linearInterpolate x xs ys = at_ ys 0)
  /\ ((x <=? at_ xs 0) = false -> (at_ xs last <=? x) = true ->
      linearInterpolate x xs ys = at_ ys last)
  /\ ((at_ xs 0 <? x) = true -> (x <? at_ xs last) = true ->
      (exists i, (0 <= i <= last)%Z /\ (at_ xs i =? x) = true
                 /\ linearInterpolate x xs ys = at_ ys i)
      \/ (exists i, (0 <= i < last)%Z
                    /\ (at_ xs i <? x) = true /\ (x <? at_ xs (i + 1)) = true
                    /\ linearInterpolate x xs ys
                       = Reference.lineThrough (at_ xs i) (at_ ys i)
                           (at_ xs (i + 1)) (at_ ys (i + 1)) x)).
Proof.
  intros Inc Ne Len last. subst last.
  destruct (interpolate_ends x xs ys Ne Len) as (Low & High).
  split; [exact Low|]. split; [exact High|].
  intros Lo Hi. apply interpolate_inside; assumption.
Qed.

(** The table [-0.3, 0.3] with the ordinates [50, 150]. *)
Lemma linearInterpolate_on_increasing_witness :
  Reference.increasing [-0.3; 0.3]
  /\ linearInterpolate (-0.5) [-0.3; 0.3] [50; 150] = 50.
Proof.
  assert (I : Reference.increasing [-0.3; 0.3]) by (repeat constructor).
  split; [exact I|].
  exact (proj1 (linearInterpolate_on_increasing (-0.5) [-0.3; 0.3] [50; 150]
                  I ltac:(discriminate) eq_refl) eq_refl).
Defined.

End SearchProps.

(** ** What a run of the backtest keeps *)

Module RunProps.

Import Backtest.
Local Open Scope float_scope.

(** Splits a goal about one round of the loop into the three ways the
    round can go: a defined return, the first point without one, a later
    point without one. *)
Ltac period_cases :=
  unfold period;
  match goal with
  | |- context [lossClockOrigin ?a ?st ?d] =>
      destruct (lossClockOrigin a st d) as [baseYear baseMonth]
  end;
  match goal with
  | |- context [definedReturn ?p] =>
      destruct (definedReturn p) as [assetReturn|] eqn:Defined
  end;
  [ match goal with
    | |- context [syntheticLoss ?a ?b ?c ?d ?e] =>
        destruct (syntheticLoss a b c d e) as [[lossPct lossEvent] lossMonths'] eqn:Loss
    end
  | match goal with
    | |- context [firstPeriod ?st] => destruct (firstPeriod st) eqn:First
    end ];
  cbn [rows chartPoints equityPoints capitalWith capitalWithout firstPeriod
       lossBaseYear lossBaseMonth lossMonths wins losses].

Lemma metrics_counts Math_pow input :
  BacktestMetrics.wins (BacktestResult.metrics (runBacktest Math_pow input))
  = (if degenerate input then 0%nat
     else wins (simulate input (BacktestInput.history input)))
  /\ BacktestMetrics.losses (BacktestResult.metrics (runBacktest Math_pow input))
     = (if degenerate input then 0%nat
        else losses (simulate input (BacktestInput.history input))).
Proof. unfold runBacktest. destruct (degenerate input); split; reflexivity. Qed.

Section Run.

Variables (applyLosses : bool) (payoff : PayoffCurve.t).
Variables (safeCapital periodWithdrawal periodInvestment : JS.number).

Local Abbreviation step :=
  (period applyLosses payoff safeCapital periodWithdrawal periodInvestment).

Local Abbreviation run := (fun h => fold_left step h (initialState safeCapital)).

Lemma period_aligned st point :
  Reference.aligned (rows st) (chartPoints st) (equityPoints st) ->
  Reference.aligned (rows (step st point)) (chartPoints (step st point))
    (equityPoints (step st point)).
Proof.
  unfold Reference.aligned. intros [A B].
  period_cases; rewrite ?map_app, ?A, ?B; split; reflexivity.
Qed.

Lemma run_aligned history :
  Reference.aligned (rows (run history)) (chartPoints (run history))
    (equityPoints (run history)).
Proof.
  apply (LoopProps.fold_left_invariant
           (fun st => Reference.aligned (rows st) (chartPoints st) (equityPoints st))).
  - intros st point. apply period_aligned.
  - split; reflexivity.
Qed.

Lemma period_counts st point :
  wins st = length (filter (fun row => 0 <? BacktestRow.strategyReturn row) (rows st))
  /\ losses st
     = length (filter (fun row => BacktestRow.strategyReturn row <? 0) (rows st)) ->
  wins (step st point)
  = length (filter (fun row => 0 <? BacktestRow.strategyReturn row)
              (rows (step st point)))
  /\ losses (step st point)
     = length (filter (fun row => BacktestRow.strategyReturn row <? 0)
                 (rows (step st point))).
Proof.
  intros [W L].
  period_cases; rewrite ?filter_app, ?length_app; cbn [filter BacktestRow.strategyReturn].
  - split.
    + destruct (0 <? _); cbn [length]; lia.
    + destruct (_ <? 0); cbn [length]; lia.
  - change (0 <? 0) with false. cbn [length]. split; lia.
  - split; assumption.
Qed.

Lemma run_counts history :
  wins (run history)
  = length (filter (fun row => 0 <? BacktestRow.strategyReturn row) (rows (run history)))
  /\ losses (run history)
     = length (filter (fun row => BacktestRow.strategyReturn row <? 0)
                 (rows (run history))).
Proof.
  apply (LoopProps.fold_left_invariant
           (fun st =>
              wins st
              = length (filter (fun row => 0 <? BacktestRow.strategyReturn row) (rows st))
              /\ losses st
                 = length (filter (fun row => BacktestRow.strategyReturn row <? 0)
                             (rows st)))).
  - intros st point. apply period_counts.
  - split; reflexivity.
Qed.

(** The rows that a round adds. *)
Lemma period_rows st point :
  exists row,
    BacktestRow.time row = HistoryPoint.time point
    /\ BacktestRow.assetReturn row = Reference.shownReturn point
    /\ rows (step st point)
       = rows st ++ (if Reference.hasReturn point || firstPeriod st then [row] else []).
Proof.
  unfold Reference.shownReturn, Reference.hasReturn.
  period_cases; cbn [orb].
  - refine (ex_intro _ _ (conj _ (conj _ eq_refl))); reflexivity.
  - refine (ex_intro _ _ (conj _ (conj _ eq_refl))); reflexivity.
  - exists (Reference.anchorRow (HistoryPoint.time point) 0).
    rewrite app_nil_r. repeat split.
Qed.

Lemma fold_rows_points history : forall st,
  map (fun row => (BacktestRow.time row, BacktestRow.assetReturn row))
    (rows (fold_left step history st))
  = map (fun row => (BacktestRow.time row, BacktestRow.assetReturn row)) (rows st)
    ++ map (fun point => (HistoryPoint.time point, Reference.shownReturn point))
         (if firstPeriod st then Reference.rowPoints history
          else filter Reference.hasReturn history).
Proof.
  induction history as [|point history IH]; intros st; cbn [fold_left].
  - destruct (firstPeriod st); cbn; rewrite app_nil_r; reflexivity.
  - rewrite IH, LoopProps.period_firstPeriod.
    destruct (period_rows st point) as (row & T & A & ->).
    cbn [Reference.rowPoints filter].
    destruct (firstPeriod st); rewrite ?orb_true_r, ?orb_false_r.
    + rewrite map_app, <- app_assoc. cbn [map app]. rewrite T, A. reflexivity.
    + destruct (Reference.hasReturn point).
      * rewrite map_app, <- app_assoc. cbn [map app]. rewrite T, A. reflexivity.
      * rewrite app_nil_r. reflexivity.
Qed.

Lemma fold_rows_prefix history : forall st,
  exists more, rows (fold_left step history st) = rows st ++ more.
Proof.
  induction history as [|point history IH]; intros st; cbn [fold_left].
  - exists []. rewrite app_nil_r. reflexivity.
  - destruct (IH (step st point)) as (more & ->).
    destruct (period_rows st point) as (row & _ & _ & ->).
    rewrite <- app_assoc. eexists. reflexivity.
Qed.

Lemma run_rows_points history :
  map (fun row => (BacktestRow.time row, BacktestRow.assetReturn row))
    (rows (run history))
  = map (fun point => (HistoryPoint.time point, Reference.shownReturn point))
      (Reference.rowPoints history).
Proof. apply (fold_rows_points history (initialState safeCapital)). Qed.

(** Without synthetic losses no row is marked with a loss event. *)
Lemma run_no_loss_event history :
  applyLosses = false ->
  Forall (fun row => BacktestRow.lossEvent row = false) (rows (run history)).
Proof.
  intros Off.
  apply (LoopProps.fold_left_invariant
           (fun st => Forall (fun row => BacktestRow.lossEvent row = false) (rows st))).
  - intros st point H. unfold period.
    destruct (lossClockOrigin applyLosses st (HistoryPoint.time point))
      as [baseYear baseMonth].
    rewrite Off, LoopProps.syntheticLoss_off.
    destruct (definedReturn point); [|destruct (firstPeriod st)]; cbn [rows];
      try exact H; apply Forall_app; split; try exact H; repeat constructor.
  - constructor.
Qed.

(** *** The no-withdrawal capital and the profits of the rows *)

Lemma last_default {A : Type} (l : list A) : forall x d d',
  last (x :: l) d = last (x :: l) d'.
Proof.
  induction l as [|y l IH]; intros x d d'; [reflexivity|].
  change (last (y :: l) d = last (y :: l) d'). apply IH.
Qed.

Lemma capitalSteps_app capitals : forall start c,
  Reference.capitalSteps start (capitals ++ [c])
  = Reference.capitalSteps start capitals ++ [(last capitals start, c)].
Proof.
  induction capitals as [|a l IH]; intros start c; [reflexivity|].
  cbn [app Reference.capitalSteps]. rewrite IH. f_equal. f_equal. f_equal.
  destruct l as [|n l]; [reflexivity|].
  change (last (a :: n :: l) start) with (last (n :: l) start).
  f_equal. apply last_default.
Qed.

Lemma period_accounts st point :
  last (map EquityPoint.capitalWithout (equityPoints st)) safeCapital
  = capitalWithout st
  /\ Forall2 Reference.accountsFor (rows st)
       (Reference.capitalSteps safeCapital
          (map EquityPoint.capitalWithout (equityPoints st))) ->
  last (map EquityPoint.capitalWithout (equityPoints (step st point))) safeCapital
  = capitalWithout (step st point)
  /\ Forall2 Reference.accountsFor (rows (step st point))
       (Reference.capitalSteps safeCapital
          (map EquityPoint.capitalWithout (equityPoints (step st point)))).
Proof.
  intros [L F].
  period_cases; rewrite ?map_app; cbn [map EquityPoint.capitalWithout];
    rewrite ?capitalSteps_app, ?last_last.
  - split; [reflexivity|]. apply Forall2_app; [exact F|].
    constructor; [|constructor]. left. rewrite L.
    cbn [BacktestRow.profit BacktestRow.strategyReturn fst snd].
    split; reflexivity.
  - split; [reflexivity|]. apply Forall2_app; [exact F|].
    constructor; [|constructor]. right. rewrite L.
    cbn [BacktestRow.profit BacktestRow.strategyReturn fst snd].
    repeat split; reflexivity.
  - split; assumption.
Qed.

Lemma run_accounts history :
  last (map EquityPoint.capitalWithout (equityPoints (run history))) safeCapital
  = capitalWithout (run history)
  /\ Forall2 Reference.accountsFor (rows (run history))
       (Reference.capitalSteps safeCapital
          (map EquityPoint.capitalWithout (equityPoints (run history)))).
Proof.
  apply (LoopProps.fold_left_invariant
           (fun st =>
              last (map EquityPoint.capitalWithout (equityPoints st)) safeCapital
              = capitalWithout st
              /\ Forall2 Reference.accountsFor (rows st)
                   (Reference.capitalSteps safeCapital
                      (map EquityPoint.capitalWithout (equityPoints st))))).
  - intros st point. apply period_accounts.
  - split; [reflexivity|constructor].
Qed.

End Run.

(** *** Runs that differ in their cash flows *)

Lemma period_agree applyLosses payoff safeCapital w1 i1 w2 i2 st1 st2 point :
  Reference.agreeButCashFlows st1 st2 ->
  Reference.agreeButCashFlows
    (period applyLosses payoff safeCapital w1 i1 st1 point)
    (period applyLosses payoff safeCapital w2 i2 st2 point).
Proof.
  destruct st1 as [r1 c1 e1 cw1 cwo1 f1 y1 m1 lm1 wi1 lo1].
  destruct st2 as [r2 c2 e2 cw2 cwo2 f2 y2 m2 lm2 wi2 lo2].
  unfold Reference.agreeButCashFlows.
  cbn [rows chartPoints equityPoints capitalWith capitalWithout firstPeriod
       lossBaseYear lossBaseMonth lossMonths wins losses].
  intros (R & C & E & W & F & Y & M & LM & Wi & Lo). subst.
  unfold period, lossClockOrigin.
  cbn [rows chartPoints equityPoints capitalWith capitalWithout firstPeriod
       lossBaseYear lossBaseMonth lossMonths wins losses].
  destruct (match applyLosses with
            | true =>
                match y2 with
                | Some _ => (y2, m2)
                | None =>
                    (Some (Date.getFullYear (HistoryPoint.time point)),
                     Some (Date.getMonth (HistoryPoint.time point) + 1)%Z)
                end
            | false => (y2, m2)
            end) as [baseYear baseMonth].
  destruct (definedReturn point) as [assetReturn|].
  - destruct (syntheticLoss applyLosses baseYear baseMonth lm2 (HistoryPoint.time point))
      as [[lossPct lossEvent] lossMonths'].
    cbn [rows chartPoints equityPoints capitalWith capitalWithout firstPeriod
         lossBaseYear lossBaseMonth lossMonths wins losses].
    rewrite !map_app, R, E. repeat split.
  - destruct f2;
      cbn [rows chartPoints equityPoints capitalWith capitalWithout firstPeriod
           lossBaseYear lossBaseMonth lossMonths wins losses];
      rewrite ?map_app, ?R, ?E; repeat split.
Qed.

Lemma fold_agree applyLosses payoff safeCapital w1 i1 w2 i2 history :
  forall st1 st2,
    Reference.agreeButCashFlows st1 st2 ->
    Reference.agreeButCashFlows
      (fold_left (period applyLosses payoff safeCapital w1 i1) history st1)
      (fold_left (period applyLosses payoff safeCapital w2 i2) history st2).
Proof.
  induction history as [|point history IH]; intros st1 st2 H; [exact H|].
  cbn [fold_left]. apply IH. apply period_agree. exact H.
Qed.

Lemma rev_head_map {A B : Type} (f : A -> B) (l l' : list A) :
  map f l = map f l' ->
  match rev l, rev l' with
  | x :: _, y :: _ => f x = f y
  | [], [] => True
  | _, _ => False
  end.
Proof.
  intros H. apply (f_equal (@rev B)) in H. rewrite <- !map_rev in H.
  destruct (rev l), (rev l'); cbn in H; try discriminate; [exact I|].
  injection H as H _. exact H.
Qed.

Lemma filter_disjoint_length {A : Type} (p q : A -> bool) (l : list A) :
  (forall x, p x && q x = false) ->
  (length (filter p l) + length (filter q l) <= length l)%nat.
Proof.
  intros D. induction l as [|x l IH]; cbn [filter length]; [lia|].
  specialize (D x). destruct (p x), (q x); cbn [length]; try discriminate; lia.
Qed.

Lemma not_both_signs x : (0 <? x) && (x <? 0) = false.
Proof.
  destruct (0 <? x) eqn:P; [|reflexivity]. cbn [andb].
  apply OrderFacts.ltb_true in P. destruct P as (N0 & Nx & P).
  rewrite (OrderFacts.ltb_ord _ _ Nx N0). apply Z.ltb_ge. lia.
Qed.

Lemma result_aligned Math_pow input :
  let result := runBacktest Math_pow input in
  Reference.aligned (BacktestResult.rows result)
    (Chart.points (BacktestResult.chart result))
    (Chart.equity (BacktestResult.chart result)).
Proof.
  cbv zeta.
  destruct (LoopProps.runBacktest_loop Math_pow input) as (R & P & E).
  rewrite R, P, E.
  destruct (degenerate input); [split; reflexivity|]. apply run_aligned.
Qed.

(** X2: in every result the rows, the chart points and the equity
    points are as many, and entry by entry they describe the same period:
    the time of the chart point and of the equity point is the time of the
    row, the two returns of the chart point are those of the row, and the
    capital of the row is the with-withdrawal capital of the equity point. *)
Theorem runBacktest_series_aligned Math_pow input :
  let result := runBacktest Math_pow input in
  let rows := BacktestResult.rows result in
  let points := Chart.points (BacktestResult.chart result) in
  let equity := Chart.equity (BacktestResult.chart result) in
  length rows = length points /\ length rows = length equity
  /\ Reference.aligned rows points equity.
Proof.
  cbv zeta. pose proof (result_aligned Math_pow input) as A. cbv zeta in A.
  split; [|split; [|exact A]].
  - destruct A as [A _]. apply (f_equal (@length _)) in A.
    rewrite !length_map in A. exact A.
  - destruct A as [_ A]. apply (f_equal (@length _)) in A.
    rewrite !length_map in A. exact A.
Qed.

(** X3: the wins of the metrics are the rows with a positive strategy
    return and the losses the rows with a negative one; a row counts for
    at most one of the two, and the row of a point without a return for
    neither. *)
Theorem runBacktest_wins_and_losses Math_pow input :
  let result := runBacktest Math_pow input in
  let metrics := BacktestResult.metrics result in
  BacktestMetrics.wins metrics
  = length (filter (fun row => 0 <? BacktestRow.strategyReturn row)
              (BacktestResult.rows result))
  /\ BacktestMetrics.losses metrics
     = length (filter (fun row => BacktestRow.strategyReturn row <? 0)
                 (BacktestResult.rows result))
  /\ (BacktestMetrics.wins metrics + BacktestMetrics.losses metrics
      <= length (BacktestResult.rows result))%nat.
Proof.
  cbv zeta.
  destruct (metrics_counts Math_pow input) as (W & L).
  destruct (LoopProps.runBacktest_loop Math_pow input) as (R & _ & _).
  rewrite W, L, R.
  assert (C : (if degenerate input then 0%nat
               else wins (simulate input (BacktestInput.history input)))
              = length (filter (fun row => 0 <? BacktestRow.strategyReturn row)
                          (if degenerate input then []
                           else rows (simulate input (BacktestInput.history input))))
              /\ (if degenerate input then 0%nat
                  else losses (simulate input (BacktestInput.history input)))
                 = length (filter (fun row => BacktestRow.strategyReturn row <? 0)
                             (if degenerate input then []
                              else rows (simulate input (BacktestInput.history input))))).
  { destruct (degenerate input); [split; reflexivity|]. apply run_counts. }
  destruct C as [C1 C2]. split; [exact C1|]. split; [exact C2|].
  rewrite C1, C2. apply filter_disjoint_length.
  intros row. apply not_both_signs.
Qed.

(** X4: the rows of a result follow the history: unless the request is
    degenerate there is one row for the first point and one for every
    later point with a defined return, in the order of the history, each
    with the date of its point and, as asset return, the return of the
    point (0 for a first point without one).  So a result never has more
    rows than the history has points. *)
Theorem runBacktest_rows_follow_history Math_pow input :
  let rows := BacktestResult.rows (runBacktest Math_pow input) in
  map (fun row => (BacktestRow.time row, BacktestRow.assetReturn row)) rows
  = (if degenerate input then []
     else map (fun point => (HistoryPoint.time point, Reference.shownReturn point))
            (Reference.rowPoints (BacktestInput.history input)))
  /\ (length rows <= length (BacktestInput.history input))%nat.
Proof.
  cbv zeta.
  destruct (LoopProps.runBacktest_loop Math_pow input) as (R & _ & _). rewrite R.
  assert (E : map (fun row => (BacktestRow.time row, BacktestRow.assetReturn row))
                (if degenerate input then []
                 else rows (simulate input (BacktestInput.history input)))
              = (if degenerate input then []
                 else map (fun point =>
                             (HistoryPoint.time point, Reference.shownReturn point))
                        (Reference.rowPoints (BacktestInput.history input)))).
  { destruct (degenerate input); [reflexivity|]. apply run_rows_points. }
  split; [exact E|].
  apply (f_equal (@length _)) in E. rewrite length_map in E. rewrite E.
  destruct (degenerate input); [cbn; lia|]. rewrite length_map.
  destruct (BacktestInput.history input) as [|first rest]; cbn [Reference.rowPoints length];
    [lia|].
  pose proof (filter_length_le Reference.hasReturn rest). lia.
Qed.

(** X5: with synthetic losses off, no row of the result is marked with
    a loss event. *)
Theorem runBacktest_no_loss_event Math_pow input :
  BacktestInput.applyLosses input = false ->
  Forall (fun row => BacktestRow.lossEvent row = false)
    (BacktestResult.rows (runBacktest Math_pow input)).
Proof.
  intros Off.
  destruct (LoopProps.runBacktest_loop Math_pow input) as (R & _ & _). rewrite R.
  destruct (degenerate input); [constructor|].
  apply run_no_loss_event. exact Off.
Qed.

Lemma runBacktest_no_loss_event_witness :
  BacktestInput.applyLosses (Sample.request Sample.withGap false) = false
  /\ Forall (fun row => BacktestRow.lossEvent row = false)
       (BacktestResult.rows
          (runBacktest Sample.Math_pow (Sample.request Sample.withGap false))).
Proof.
  split; [reflexivity|].
  exact (runBacktest_no_loss_event Sample.Math_pow
           (Sample.request Sample.withGap false) eq_refl).
Defined.

Lemma rev_head_last {A B : Type} (g : A -> B) (l : list A) (d : B) :
  match rev l with e :: _ => g e | [] => d end = last (map g l) d.
Proof.
  induction l as [|x l _] using rev_ind; [reflexivity|].
  rewrite rev_app_distr, map_app. cbn [rev app map]. rewrite last_last. reflexivity.
Qed.

Lemma metrics_capital Math_pow input :
  let result := runBacktest Math_pow input in
  BacktestMetrics.initialCapital (BacktestResult.metrics result) = safeCapitalOf input
  /\ BacktestMetrics.finalCapitalNoWithdrawal (BacktestResult.metrics result)
     = last (map EquityPoint.capitalWithout (Chart.equity (BacktestResult.chart result)))
         (safeCapitalOf input)
  /\ BacktestMetrics.finalCapitalWithWithdrawal (BacktestResult.metrics result)
     = last (map EquityPoint.capitalWith (Chart.equity (BacktestResult.chart result)))
         (safeCapitalOf input).
Proof.
  cbv zeta. unfold runBacktest.
  destruct (degenerate input); [repeat split|].
  cbn [BacktestResult.metrics BacktestResult.chart Chart.equity
       BacktestMetrics.initialCapital BacktestMetrics.finalCapitalNoWithdrawal
       BacktestMetrics.finalCapitalWithWithdrawal].
  split; [reflexivity|]. split; apply rev_head_last.
Qed.

(** X6: the rows account for the no-withdrawal capital of the equity
    points: starting from the initial capital, each row's profit is the
    change of that capital over its period and its strategy return is the
    profit over the capital before the period (0 when that capital is 0);
    the row of a point without a return has profit 0 and leaves the capital
    as it was.  The final capital without withdrawal of the metrics is the
    last capital of that series, and the final capital with withdrawal is
    the capital of the last row (each the initial capital when there is no
    row). *)
Theorem runBacktest_profits_account Math_pow input :
  let result := runBacktest Math_pow input in
  let metrics := BacktestResult.metrics result in
  let capitals :=
    map EquityPoint.capitalWithout (Chart.equity (BacktestResult.chart result)) in
  Forall2 Reference.accountsFor (BacktestResult.rows result)
    (Reference.capitalSteps (BacktestMetrics.initialCapital metrics) capitals)
  /\ BacktestMetrics.finalCapitalNoWithdrawal metrics
     = last capitals (BacktestMetrics.initialCapital metrics)
  /\ BacktestMetrics.finalCapitalWithWithdrawal metrics
     = last (map BacktestRow.capital (BacktestResult.rows result))
         (BacktestMetrics.initialCapital metrics).
Proof.
  cbv zeta.
  destruct (metrics_capital Math_pow input) as (I & F & W). rewrite I, F, W.
  split; [|split; [reflexivity|]].
  - destruct (LoopProps.runBacktest_loop Math_pow input) as (R & _ & E). rewrite R, E.
    destruct (degenerate input); [constructor|].
    apply run_accounts.
  - destruct (result_aligned Math_pow input) as [_ A].
    apply (f_equal (map snd)) in A. rewrite !map_map in A.
    assert (M : map BacktestRow.capital
                  (BacktestResult.rows (runBacktest Math_pow input))
                = map EquityPoint.capitalWith
                    (Chart.equity (BacktestResult.chart (runBacktest Math_pow input))))
      by exact A.
    rewrite M. reflexivity.
Qed.

End RunProps.

Module CashFlowProps.

Import Backtest.
Local Open Scope float_scope.

Ltac projections :=
  cbn [BacktestResult.rows BacktestResult.chart BacktestResult.metrics
       Chart.points Chart.equity
       BacktestMetrics.initialCapital BacktestMetrics.finalCapitalNoWithdrawal
       BacktestMetrics.finalCapitalWithWithdrawal BacktestMetrics.totalProfitPct
       BacktestMetrics.avgMonthlyProfit BacktestMetrics.monthlyEquivalentRate
       BacktestMetrics.profitWithWithdrawalPct BacktestMetrics.monthlyRateWithWithdrawal
       BacktestMetrics.monthlyIrr BacktestMetrics.wins BacktestMetrics.losses].

(** X7: two requests that differ only in the monthly withdrawal and the
    monthly investment give results that agree in everything that does not
    involve the cash flows: the time, asset return, strategy return, profit
    and loss event of every row, the chart points, the no-withdrawal
    capital of every equity point, and the initial capital, final capital
    without withdrawal, total profit, average monthly profit, monthly
    equivalent rate, wins and losses of the metrics. *)
Theorem runBacktest_cash_flows_apart Math_pow a b :
  Reference.sameButCashFlows a b ->
  let ra := runBacktest Math_pow a in
  let rb := runBacktest Math_pow b in
  let ma := BacktestResult.metrics ra in
  let mb := BacktestResult.metrics rb in
  map Reference.withoutCashFlows (BacktestResult.rows ra)
  = map Reference.withoutCashFlows (BacktestResult.rows rb)
  /\ Chart.points (BacktestResult.chart ra) = Chart.points (BacktestResult.chart rb)
  /\ map (fun e => (EquityPoint.time e, EquityPoint.capitalWithout e))
       (Chart.equity (BacktestResult.chart ra))
     = map (fun e => (EquityPoint.time e, EquityPoint.capitalWithout e))
         (Chart.equity (BacktestResult.chart rb))
  /\ BacktestMetrics.initialCapital ma = BacktestMetrics.initialCapital mb
  /\ BacktestMetrics.finalCapitalNoWithdrawal ma
     = BacktestMetrics.finalCapitalNoWithdrawal mb
  /\ BacktestMetrics.totalProfitPct ma = BacktestMetrics.totalProfitPct mb
  /\ BacktestMetrics.avgMonthlyProfit ma = BacktestMetrics.avgMonthlyProfit mb
  /\ BacktestMetrics.monthlyEquivalentRate ma = BacktestMetrics.monthlyEquivalentRate mb
  /\ BacktestMetrics.wins ma = BacktestMetrics.wins mb
  /\ BacktestMetrics.losses ma = BacktestMetrics.losses mb.
Proof.
  intros (H & P & B & A & F). cbv zeta.
  assert (S0 : safeCapitalOf a = safeCapitalOf b)
    by (unfold safeCapitalOf; rewrite B; reflexivity).
  assert (D : degenerate a = degenerate b)
    by (unfold degenerate; rewrite H, P, S0; reflexivity).
  assert (G : Reference.agreeButCashFlows
                (simulate a (BacktestInput.history a))
                (simulate b (BacktestInput.history b))).
  { unfold simulate. rewrite H, P, A, F, S0. apply RunProps.fold_agree. repeat split. }
  unfold runBacktest. rewrite D, F, S0.
  destruct (degenerate b); [repeat split|].
  set (fa := simulate a (BacktestInput.history a)) in *.
  set (fb := simulate b (BacktestInput.history b)) in *.
  destruct G as (R & C & E & W & Fi & Y & M & LM & Wi & Lo).
  projections.
  rewrite !(RunProps.rev_head_last EquityPoint.capitalWithout).
  assert (Q : map EquityPoint.capitalWithout (equityPoints fa)
              = map EquityPoint.capitalWithout (equityPoints fb)).
  { apply (f_equal (map snd)) in E. rewrite !map_map in E. exact E. }
  assert (T : map BacktestRow.time (rows fa) = map BacktestRow.time (rows fb)).
  { apply (f_equal (map (fun x => fst (fst (fst (fst x)))))) in R.
    rewrite !map_map in R. exact R. }
  assert (L : length (rows fa) = length (rows fb)).
  { apply (f_equal (@length _)) in T. rewrite !length_map in T. exact T. }
  pose proof (RunProps.rev_head_map BacktestRow.time _ _ T) as Hrev.
  rewrite Q, L, Wi, Lo.
  split; [exact R|]. split; [exact C|]. split; [exact E|].
  split; [reflexivity|]. split; [reflexivity|]. split; [reflexivity|].
  split; [|repeat split].
  destruct (rev (rows fa)) as [|la ta], (rev (rows fb)) as [|lb tb];
    try contradiction;
    destruct (rows fa) as [|a0 [|a1 rsa]], (rows fb) as [|b0 [|b1 rsb]];
    try discriminate; try reflexivity.
  injection T as T0 _. rewrite T0, Hrev. reflexivity.
Qed.

Lemma runBacktest_cash_flows_apart_witness :
  Reference.sameButCashFlows (Sample.request Sample.withGap false) Sample.withCashFlows
  /\ Chart.points
       (BacktestResult.chart
          (runBacktest Sample.Math_pow (Sample.request Sample.withGap false)))
     = Chart.points
         (BacktestResult.chart (runBacktest Sample.Math_pow Sample.withCashFlows)).
Proof.
  assert (S0 : Reference.sameButCashFlows (Sample.request Sample.withGap false)
                 Sample.withCashFlows) by (repeat split).
  split; [exact S0|].
  exact (proj1 (proj2 (runBacktest_cash_flows_apart Sample.Math_pow
                         (Sample.request Sample.withGap false)
                         Sample.withCashFlows S0))).
Defined.

End CashFlowProps.

(** ** The price history *)

Module ApiProps.

Import Api.
Local Open Scope float_scope.

Lemma insert_by_key_perm {A : Type} (cmp : A -> A -> JS.number) x l :
  Permutation (insert_by cmp x l) (x :: l).
Proof.
  induction l as [|y l IH]; cbn [insert_by]; [reflexivity|].
  destruct (cmp x y <? 0); [reflexivity|].
  rewrite IH. apply perm_swap.
Qed.

Lemma Array_sort_by_key_perm {A : Type} (cmp : A -> A -> JS.number) l :
  Permutation (Array_sort cmp l) l.
Proof.
  unfold Array_sort.
  assert (G : forall acc,
             Permutation (fold_left (fun acc x => insert_by cmp x acc) l acc)
               (l ++ acc)).
  { induction l as [|x l IH]; intros acc; cbn [fold_left app]; [reflexivity|].
    rewrite IH, insert_by_key_perm. symmetry. apply Permutation_middle. }
  rewrite G, app_nil_r. reflexivity.
Qed.

Section ByKey.

Variables (A : Type) (key : A -> JS.number).

Local Abbreviation cmp := (fun a b => key a - key b).
Local Abbreviation inOrder :=
  (fun a b => Reference.comparatorAscending (key a) (key b)).

Lemma insert_by_key_sorted x l :
  Sorted inOrder l -> Sorted inOrder (insert_by cmp x l).
Proof.
  induction l as [|y l IH]; intros H; cbn [insert_by].
  - repeat constructor.
  - destruct (key x - key y <? 0) eqn:C.
    + constructor; [exact H|]. constructor.
      unfold Reference.comparatorAscending. apply BreakEvenProps.sub_antisym. exact C.
    + inversion H as [|? ? Hs Hh]; subst.
      constructor; [apply IH; exact Hs|].
      destruct l as [|z l]; cbn [insert_by].
      * constructor. exact C.
      * destruct (key x - key z <? 0).
        -- constructor. exact C.
        -- inversion Hh; subst. constructor. assumption.
Qed.

Lemma Array_sort_by_key_sorted l : Sorted inOrder (Array_sort cmp l).
Proof.
  unfold Array_sort.
  assert (G : forall acc,
             Sorted inOrder acc ->
             Sorted inOrder (fold_left (fun acc x => insert_by cmp x acc) l acc)).
  { induction l as [|x l IH]; intros acc H; cbn [fold_left]; [exact H|].
    apply IH. apply insert_by_key_sorted. exact H. }
  apply G. constructor.
Qed.

End ByKey.

Section WithDate.

Variable Date_new : JS.number -> Date.t.

Lemma collectQuotes_finite timestamps closes :
  Forall (fun quote => JS.isFinite (close quote) = true)
    (collectQuotes Date_new timestamps closes).
Proof.
  unfold collectQuotes. apply Forall_flat_map. apply Forall_forall. intros i _.
  destruct (negb (JS.isFinite (nth i timestamps nan))); [constructor|].
  destruct (nth i closes None) as [c|]; [|constructor].
  destruct (JS.isFinite c) eqn:F; cbn [negb]; [|constructor].
  constructor; [exact F|constructor].
Qed.

Lemma withReturns_quotes points : forall lastClose,
  map Reference.quoteOf (withReturns lastClose points) = points.
Proof.
  induction points as [|[t c] points IH]; intros lastClose; [reflexivity|].
  cbn [withReturns map]. rewrite IH. reflexivity.
Qed.

Lemma withReturns_chain points : forall lastClose,
  (forall first rest,
     withReturns lastClose points = first :: rest ->
     HistoryPoint.returnPct first
     = match lastClose with
       | None => None
       | Some l => Some (HistoryPoint.close first / l - 1)
       end)
  /\ (forall a b,
        Reference.consecutive a b (withReturns lastClose points) ->
        HistoryPoint.returnPct b
        = Some (HistoryPoint.close b / HistoryPoint.close a - 1)).
Proof.
  induction points as [|point points IH]; intros lastClose.
  - split; [discriminate|].
    intros a b (before & after & E). destruct before; discriminate.
  - destruct (IH (Some (close point))) as (First & Chain). split.
    + intros first rest E. cbn [withReturns] in E. injection E as <- _.
      destruct lastClose; reflexivity.
    + intros a b Hc. cbn [withReturns] in Hc.
      apply BreakEvenProps.consecutive_cons in Hc.
      destruct Hc as [[-> (rest & E)]|Hc]; [|apply Chain; exact Hc].
      rewrite (First b rest E). reflexivity.
Qed.

(** X8: [parseYahooHistory] throws exactly when the response carries
    an error, with its description or, without one, the text 'Erro
    Yahoo.'.  Otherwise it returns a history made of the quotes with a
    finite timestamp and a finite close, each once, in which no point is
    followed by an earlier one; every close is finite, the first point has
    no return, and the return of every later point is its close over the
    close of the point before it, minus 1. *)
Theorem parseYahooHistory_history data :
  match YahooChartResponse.error data, parseYahooHistory Date_new data with
  | Some description, inl message => message = or_text description "Erro Yahoo."%string
  | None, inr history =>
      Permutation (map Reference.quoteOf history)
        (collectQuotes Date_new
           (match YahooChartResponse.timestamp data with Some l => l | None => [] end)
           (match YahooChartResponse.close data with Some l => l | None => [] end))
      /\ Forall (fun point => JS.isFinite (HistoryPoint.close point) = true) history
      /\ Sorted Reference.notEarlier history
      /\ (forall first rest,
            history = first :: rest -> HistoryPoint.returnPct first = None)
      /\ (forall a b,
            Reference.consecutive a b history ->
            HistoryPoint.returnPct b
            = Some (HistoryPoint.close b / HistoryPoint.close a - 1))
  | _, _ => False
  end.
Proof.
  unfold parseYahooHistory.
  destruct (YahooChartResponse.error data) as [description|]; [reflexivity|].
  set (timestamps := match YahooChartResponse.timestamp data with
                     | Some l => l | None => [] end).
  set (closes := match YahooChartResponse.close data with
                 | Some l => l | None => [] end).
  set (cmp := fun a b : Quote => Date.getTime (time a) - Date.getTime (time b)).
  set (sorted := Array_sort cmp (collectQuotes Date_new timestamps closes)).
  pose proof (Array_sort_by_key_perm cmp (collectQuotes Date_new timestamps closes)) as P.
  fold sorted in P.
  pose proof (withReturns_quotes sorted None) as Q.
  split; [rewrite Q; exact P|]. split; [|split].
  - assert (F : Forall (fun quote => JS.isFinite (close quote) = true) sorted).
    { apply (Permutation_Forall (Permutation_sym P)). apply collectQuotes_finite. }
    rewrite <- Q in F. rewrite Forall_map in F. exact F.
  - assert (S0 : Sorted (fun a b => Reference.ascending (Date.getTime (time a))
                                     (Date.getTime (time b))) sorted).
    { apply BreakEvenProps.Sorted_weaken
        with (R := fun a b => Reference.comparatorAscending
                                (Date.getTime (time a)) (Date.getTime (time b))).
      - intros a b. apply BreakEvenProps.comparatorAscending_ascending.
      - apply (Array_sort_by_key_sorted Quote (fun q => Date.getTime (time q))). }
    rewrite <- Q in S0. clear - S0.
    induction (withReturns None sorted) as [|point l IH]; [constructor|].
    cbn [map] in S0. inversion S0 as [|? ? Hs Hh]; subst.
    constructor; [apply IH; exact Hs|].
    destruct l; [constructor|]. cbn [map] in Hh. inversion Hh; subst.
    constructor. assumption.
  - destruct (withReturns_chain sorted None) as (First & Chain).
    split; [exact First|exact Chain].
Qed.

End WithDate.

(** X9: run over a history that [parseYahooHistory] returned, a request
    that is not degenerate has as its first row the row of a point without
    a return: the date of the first point, returns, profit and cash flows
    of 0 and the starting capital.  The rows after it are those of the
    later points whose return is finite, in the order of the history. *)
Theorem backtest_of_parsed_history Math_pow Date_new data input history :
  parseYahooHistory Date_new data = inr history ->
  BacktestInput.history input = history ->
  Backtest.degenerate input = false ->
  exists first rest more,
    history = first :: rest
    /\ BacktestResult.rows (Backtest.runBacktest Math_pow input)
       = Reference.anchorRow (HistoryPoint.time first) (Backtest.safeCapitalOf input)
         :: more
    /\ map (fun row => (BacktestRow.time row, BacktestRow.assetReturn row)) more
       = map (fun point => (HistoryPoint.time point, Reference.shownReturn point))
           (filter Reference.hasReturn rest).
Proof.
  intros Parsed Hist NonDeg.
  unfold parseYahooHistory in Parsed.
  destruct (YahooChartResponse.error data); [discriminate|].
  injection Parsed as Parsed.
  destruct history as [|first rest].
  { unfold Backtest.degenerate in NonDeg. rewrite Hist in NonDeg. discriminate. }
  pose proof (proj1 (withReturns_chain _ None) first rest Parsed) as First.
  cbv beta iota in First.
  destruct (LoopProps.runBacktest_loop Math_pow input) as (R & _ & _).
  rewrite NonDeg in R. rewrite R. unfold Backtest.simulate. rewrite Hist.
  cbn [fold_left].
  assert (D : Backtest.definedReturn first = None).
  { unfold Backtest.definedReturn. rewrite First. reflexivity. }
  set (step := Backtest.period (BacktestInput.applyLosses input)
                 (BacktestInput.payoff input) (Backtest.safeCapitalOf input)
                 (Backtest.perPeriod (BacktestInput.frequency input)
                    (BacktestInput.monthlyWithdrawal input))
                 (Backtest.perPeriod (BacktestInput.frequency input)
                    (Backtest.monthlyInvestmentOf input))).
  set (st0 := Backtest.initialState (Backtest.safeCapitalOf input)).
  assert (R1 : Backtest.rows (step st0 first)
               = [Reference.anchorRow (HistoryPoint.time first)
                    (Backtest.safeCapitalOf input)]).
  { unfold step, st0, Backtest.period. rewrite D.
    destruct (Backtest.lossClockOrigin _ _ _). reflexivity. }
  pose proof (RunProps.fold_rows_points (BacktestInput.applyLosses input)
                (BacktestInput.payoff input) (Backtest.safeCapitalOf input)
                (Backtest.perPeriod (BacktestInput.frequency input)
                   (BacktestInput.monthlyWithdrawal input))
                (Backtest.perPeriod (BacktestInput.frequency input)
                   (Backtest.monthlyInvestmentOf input))
                rest (step st0 first)) as Pts.
  fold step in Pts.
  destruct (RunProps.fold_rows_prefix (BacktestInput.applyLosses input)
              (BacktestInput.payoff input) (Backtest.safeCapitalOf input)
              (Backtest.perPeriod (BacktestInput.frequency input)
                 (BacktestInput.monthlyWithdrawal input))
              (Backtest.perPeriod (BacktestInput.frequency input)
                 (Backtest.monthlyInvestmentOf input))
              rest (step st0 first)) as (more & M).
  fold step in M. rewrite R1 in M.
  exists first, rest, more. split; [reflexivity|]. split; [exact M|].
  rewrite M, R1 in Pts.
  unfold step in Pts. rewrite LoopProps.period_firstPeriod in Pts.
  cbn [map app] in Pts. injection Pts as Pts. exact Pts.
Qed.

Lemma backtest_of_parsed_history_witness :
  exists history,
    parseYahooHistory Sample.Date_new Sample.response = inr history
    /\ length (BacktestResult.rows
                 (Backtest.runBacktest Sample.Math_pow (Sample.request history false)))
       = 2%nat.
Proof.
  eexists. split; [reflexivity|].
  destruct (backtest_of_parsed_history Sample.Math_pow Sample.Date_new Sample.response
              (Sample.request _ false) _ eq_refl eq_refl eq_refl)
    as (first & rest & more & H & R & M).
  rewrite R. apply (f_equal (@length _)) in M. rewrite !length_map in M.
  cbn [length]. rewrite M. injection H as _ <-. reflexivity.
Defined.

End ApiProps.

(** ** Legs, payoff curve and statistics *)

Module StrategyProps.

Import StrategyMath.
Local Open Scope float_scope.

(** *** The two sides of a leg *)

Lemma SFmul_opp a b : SF64mul (SFopp a) b = SFopp (SF64mul a b).
Proof.
  unfold SF64mul.
  destruct a as [s|s| |s m e], b as [t|t| |t n f]; cbn [SFmul SFopp];
    try reflexivity; try (destruct s, t; reflexivity).
  rewrite JSFacts.binary_round_aux_opp. destruct s, t; reflexivity.
Qed.

Lemma mul_opp a b : (- a) * b = - (a * b).
Proof.
  apply Prim2SF_inj. rewrite mul_spec, !opp_spec, mul_spec. apply SFmul_opp.
Qed.

Lemma opp_involutive a : - - a = a.
Proof.
  apply Prim2SF_inj. rewrite !opp_spec.
  destruct (Prim2SF a) as [s|s| |s m e]; cbn [SFopp]; try reflexivity;
    destruct s; reflexivity.
Qed.

(** X10: the payoff of a leg sold is the payoff of the same leg bought
    with the sign changed, at every price and for every quantity and
    contract size (both are 0 for an option without a type or a strike). *)
Theorem calculateLegPayoff_opposite leg underlyingPrice :
  JS.SameValueZero
    (calculateLegPayoff (Reference.opposite leg) underlyingPrice)
    (- calculateLegPayoff leg underlyingPrice) = true.
Proof.
  unfold calculateLegPayoff, Reference.opposite.
  cbn [instrument side type strike premium quantity contractSize].
  destruct (instrument leg).
  - destruct (type leg) as [ty|]; [|reflexivity].
    destruct (strike leg) as [k|]; [|reflexivity].
    destruct (side leg); cbn [Side_eqb];
      rewrite ?mul_opp, ?opp_involutive; apply JSFacts.SameValueZero_refl.
  - destruct (side leg); cbn [Side_eqb];
      rewrite ?mul_opp, ?opp_involutive; apply JSFacts.SameValueZero_refl.
Qed.

(** *** The grid of the payoff curve *)

Lemma increasingb_spec xs : Reference.increasingb xs = true -> Reference.increasing xs.
Proof.
  induction xs as [|a xs IH]; intros H; [constructor|].
  destruct xs as [|b xs]; [repeat constructor|].
  cbn [Reference.increasingb] in H. apply andb_true_iff in H. destruct H as [H1 H2].
  constructor; [apply IH; exact H2|]. constructor. exact H1.
Qed.

Lemma generatePayoffData_moves legs currentPrice :
  (length legs =? 0)%nat = false -> JS.isFinite currentPrice = true ->
  (currentPrice <=? 0) = false ->
  map PayoffData.movePct (generatePayoffData legs currentPrice) = Reference.moveGrid.
Proof.
  intros Hl Hf Hp. unfold generatePayoffData. rewrite Hl, Hf, Hp. cbn [negb orb].
  rewrite map_map. cbn [PayoffData.movePct]. vm_compute. reflexivity.
Qed.

(** X11: for at least one leg and a finite positive price, the payoff
    curve has 321 samples whose moves are exactly -40, -39.75, ..., 40,
    whatever the legs and the price: the rounding to 4 decimals changes
    none of them, and each is smaller than the next. *)
Theorem generatePayoffData_grid legs currentPrice :
  legs <> [] -> JS.isFinite currentPrice = true -> (currentPrice <=? 0) = false ->
  let data := generatePayoffData legs currentPrice in
  length data = 321%nat
  /\ map PayoffData.movePct data = Reference.moveGrid
  /\ Reference.increasing (map PayoffData.movePct data).
Proof.
  intros Hl Hf Hp. cbv zeta.
  assert (L : (length legs =? 0)%nat = false).
  { apply Nat.eqb_neq. destruct legs; [congruence|discriminate]. }
  pose proof (generatePayoffData_moves legs currentPrice L Hf Hp) as M.
  split; [|split; [exact M|]].
  - apply (f_equal (@length _)) in M. rewrite length_map in M. rewrite M. reflexivity.
  - rewrite M. apply increasingb_spec. vm_compute. reflexivity.
Qed.

Lemma generatePayoffData_grid_witness :
  Sample.bearCallSpread <> []
  /\ length (generatePayoffData Sample.bearCallSpread 30) = 321%nat.
Proof.
  split; [discriminate|].
  exact (proj1 (generatePayoffData_grid Sample.bearCallSpread 30
                  ltac:(discriminate) eq_refl eq_refl)).
Defined.

(** *** Bounds of the statistics *)

Lemma fold_Math_max l : forall acc,
  let r := fold_left JS.Math_max l acc in
  is_nan r = true
  \/ (is_nan r = false /\ is_nan acc = false
      /\ (Reference.ord acc <= Reference.ord r)%Z
      /\ forall p, In p l ->
           is_nan p = false /\ (Reference.ord p <= Reference.ord r)%Z).
Proof.
  induction l as [|x l IH]; intros acc; cbv zeta; cbn [fold_left].
  - destruct (is_nan acc) eqn:N; [left; reflexivity|].
    right. split; [reflexivity|]. split; [reflexivity|]. split; [lia|]. intros p [].
  - destruct (IH (JS.Math_max acc x)) as [H|(Nr & Na & Ha & Hl)]; [left; exact H|].
    right. rewrite OrderFacts.Math_max_nan in Na. apply orb_false_iff in Na.
    destruct Na as [Na Nx]. rewrite (OrderFacts.ord_Math_max _ _ Na Nx) in Ha.
    split; [exact Nr|]. split; [exact Na|]. split; [lia|].
    intros p [<-|H]; [split; [exact Nx|lia]|apply Hl; exact H].
Qed.

Lemma fold_Math_min l : forall acc,
  let r := fold_left JS.Math_min l acc in
  is_nan r = true
  \/ (is_nan r = false /\ is_nan acc = false
      /\ (Reference.ord r <= Reference.ord acc)%Z
      /\ forall p, In p l ->
           is_nan p = false /\ (Reference.ord r <= Reference.ord p)%Z).
Proof.
  induction l as [|x l IH]; intros acc; cbv zeta; cbn [fold_left].
  - destruct (is_nan acc) eqn:N; [left; reflexivity|].
    right. split; [reflexivity|]. split; [reflexivity|]. split; [lia|]. intros p [].
  - destruct (IH (JS.Math_min acc x)) as [H|(Nr & Na & Ha & Hl)]; [left; exact H|].
    right. rewrite OrderFacts.Math_min_nan in Na. apply orb_false_iff in Na.
    destruct Na as [Na Nx]. rewrite (OrderFacts.ord_Math_min _ _ Na Nx) in Ha.
    split; [exact Nr|]. split; [exact Na|]. split; [lia|].
    intros p [<-|H]; [split; [exact Nx|lia]|apply Hl; exact H].
Qed.

(** No entry of a list is above its [Math.max] or below its [Math.min]. *)
Lemma Math_max_list_upper l p : In p l -> (JS.Math_max_list l <? p) = false.
Proof.
  intros H. unfold JS.Math_max_list.
  destruct (fold_Math_max l neg_infinity) as [N|(Nr & _ & _ & Hl)].
  - apply OrderFacts.ltb_nan. left. exact N.
  - destruct (Hl p H) as (Np & Hp).
    rewrite (OrderFacts.ltb_ord _ _ Nr Np). apply Z.ltb_ge. exact Hp.
Qed.

Lemma Math_min_list_lower l p : In p l -> (p <? JS.Math_min_list l) = false.
Proof.
  intros H. unfold JS.Math_min_list.
  destruct (fold_Math_min l infinity) as [N|(Nr & _ & _ & Hl)].
  - apply OrderFacts.ltb_nan. right. exact N.
  - destruct (Hl p H) as (Np & Hp).
    rewrite (OrderFacts.ltb_ord _ _ Np Nr). apply Z.ltb_ge. exact Hp.
Qed.

Lemma abs_not_negative x : (abs x <? 0) = false.
Proof.
  destruct (is_nan x) eqn:N.
  - apply OrderFacts.ltb_nan. left. rewrite OrderFacts.is_nan_abs. exact N.
  - rewrite OrderFacts.ltb_ord; [|rewrite OrderFacts.is_nan_abs; exact N|reflexivity].
    rewrite OrderFacts.ord_abs, OrderFacts.ord_zero. apply Z.ltb_ge. lia.
Qed.

Lemma opp_abs_not_positive x : (0 <? - abs x) = false.
Proof.
  destruct (is_nan x) eqn:N.
  - apply OrderFacts.ltb_nan. right.
    rewrite OrderFacts.is_nan_opp, OrderFacts.is_nan_abs. exact N.
  - rewrite OrderFacts.ltb_ord;
      [|reflexivity|rewrite OrderFacts.is_nan_opp, OrderFacts.is_nan_abs; exact N].
    rewrite OrderFacts.ord_opp, OrderFacts.ord_abs, OrderFacts.ord_zero.
    apply Z.ltb_ge. lia.
Qed.

(** No entry of a list is below minus the magnitude of its minimum. *)
Lemma opp_abs_min_lower l p :
  In p l -> (p <? - abs (JS.Math_min_list l)) = false.
Proof.
  intros H. pose proof (Math_min_list_lower l p H) as M.
  destruct (is_nan (JS.Math_min_list l)) eqn:Nm.
  - apply OrderFacts.ltb_nan. right.
    rewrite OrderFacts.is_nan_opp, OrderFacts.is_nan_abs. exact Nm.
  - destruct (is_nan p) eqn:Np; [apply OrderFacts.ltb_nan; left; exact Np|].
    rewrite (OrderFacts.ltb_ord _ _ Np Nm) in M. apply Z.ltb_ge in M.
    rewrite OrderFacts.ltb_ord;
      [|exact Np|rewrite OrderFacts.is_nan_opp, OrderFacts.is_nan_abs; exact Nm].
    rewrite OrderFacts.ord_opp, OrderFacts.ord_abs. apply Z.ltb_ge. lia.
Qed.

(** The sign of a quotient and of a product whose first operand is not
    positive and whose second operand is positive. *)
Lemma binary_round_aux_negative m e l :
  SFltb (S754_zero false) (binary_round_aux prec emax true m e l) = false.
Proof.
  unfold binary_round_aux.
  destruct (shr_fexp prec emax m e l) as [mrs' e'].
  destruct (shr_fexp prec emax _ e' loc_Exact) as [mrs'' e''].
  destruct (shr_m mrs''); [reflexivity| |reflexivity].
  destruct (_ <=? _)%Z; reflexivity.
Qed.

Lemma SFdiv_not_positive a c :
  SFltb (S754_zero false) a = false -> SFltb (S754_zero false) c = true ->
  SFltb (S754_zero false) (SF64div a c) = false.
Proof.
  unfold SF64div.
  destruct a as [s|s| |s m e], c as [t|t| |t n f]; cbn [SFdiv];
    try reflexivity; try discriminate;
    destruct s, t; try reflexivity; try discriminate.
  intros _ _. cbn [xorb].
  destruct (SFdiv_core_binary prec emax (Z.pos m) e (Z.pos n) f) as [[mz ez] lz].
  apply binary_round_aux_negative.
Qed.

Lemma SFmul_not_positive a c :
  SFltb (S754_zero false) a = false -> SFltb (S754_zero false) c = true ->
  SFltb (S754_zero false) (SF64mul a c) = false.
Proof.
  unfold SF64mul.
  destruct a as [s|s| |s m e], c as [t|t| |t n f]; cbn [SFmul];
    try reflexivity; try discriminate;
    destruct s, t; try reflexivity; try discriminate.
  intros _ _. cbn [xorb]. apply binary_round_aux_negative.
Qed.

Lemma div_not_positive a c :
  (0 <? a) = false -> (0 <? c) = true -> (0 <? a / c) = false.
Proof.
  rewrite !ltb_spec, div_spec, JSFacts.Prim2SF_zero. apply SFdiv_not_positive.
Qed.

Lemma mul_not_positive a c :
  (0 <? a) = false -> (0 <? c) = true -> (0 <? a * c) = false.
Proof.
  rewrite !ltb_spec, mul_spec, JSFacts.Prim2SF_zero. apply SFmul_not_positive.
Qed.

(** X12: in the statistics of a curve, a maximum profit that is a
    number is not exceeded by the profit of any sample; a maximum loss
    that is a number is not negative, and no sample loses more than it;
    the capital at risk is never negative; and the maximum loss as a
    percentage is never positive. *)
Theorem calculateStrategyStats_bounds legs payoffData currentPrice :
  let stats := calculateStrategyStats legs payoffData currentPrice in
  (forall v, StrategyStats.maxProfit stats = Num v ->
     forall d, In d payoffData -> (v <? PayoffData.profit d) = false)
  /\ (forall v, StrategyStats.maxLoss stats = Num v ->
        (v <? 0) = false
        /\ forall d, In d payoffData -> (PayoffData.profit d <? - v) = false)
  /\ (forall c, StrategyStats.capitalAtRisk stats = Some c -> (c <? 0) = false)
  /\ (forall v, StrategyStats.maxLossPct stats = Some v -> (0 <? v) = false).
Proof.
  cbv zeta. destruct payoffData as [|d0 data].
  - cbn [calculateStrategyStats StrategyStats.maxProfit StrategyStats.maxLoss
         StrategyStats.capitalAtRisk StrategyStats.maxLossPct].
    split; [intros v _ d []|]. split; [|split; discriminate].
    intros v E. injection E as <-. split; [reflexivity|intros d []].
  - unfold calculateStrategyStats. cbv beta iota zeta.
    cbn [StrategyStats.maxProfit StrategyStats.maxLoss
         StrategyStats.capitalAtRisk StrategyStats.maxLossPct].
    set (curve := d0 :: data).
    set (profits := map PayoffData.profit curve).
    match goal with
    | |- context [if ?c then Unlimited else Num (JS.Math_max_list _)] =>
        set (unlimitedProfit := c)
    end.
    match goal with
    | |- context [if ?c then Unlimited else Num (JS.Math_abs _)] =>
        set (unlimitedLoss := c)
    end.
    split; [|split; [|split]].
    + intros v E d Hd. destruct unlimitedProfit; [discriminate|].
      injection E as <-. apply Math_max_list_upper. apply in_map. exact Hd.
    + intros v E. destruct unlimitedLoss; [discriminate|].
      injection E as <-. split; [apply abs_not_negative|].
      intros d Hd. apply opp_abs_min_lower. apply in_map. exact Hd.
    + intros c E. destruct (netPremiumOf legs <? 0).
      * injection E as <-. apply abs_not_negative.
      * destruct unlimitedLoss; [discriminate|].
        injection E as <-. apply abs_not_negative.
    + intros v E. destruct unlimitedLoss; [discriminate|].
      destruct (netPremiumOf legs <? 0).
      * destruct (JS.truthy _ && (0 <? JS.Math_abs (netPremiumOf legs))) eqn:U;
          [|discriminate].
        injection E as <-. apply andb_true_iff in U. destruct U as [_ U].
        apply mul_not_positive; [|reflexivity].
        apply div_not_positive; [apply opp_abs_not_positive|exact U].
      * destruct (JS.truthy _ && (0 <? JS.Math_abs (JS.Math_min_list profits))) eqn:U;
          [|discriminate].
        injection E as <-. apply andb_true_iff in U. destruct U as [_ U].
        apply mul_not_positive; [|reflexivity].
        apply div_not_positive; [apply opp_abs_not_positive|exact U].
Qed.

(** *** Net premium and break-evens *)

(** The net premium of the statistics is the strategy cost that the
    backtest computes from the same legs, except that the statistics of
    an empty curve carry a net premium of 0 whatever the legs. *)
Lemma netPremium_is_strategy_cost legs payoffData currentPrice :
  StrategyStats.netPremium (calculateStrategyStats legs payoffData currentPrice)
  = match payoffData with
    | [] => 0
    | _ :: _ => Backtest.calculateStrategyCost legs
    end.
Proof. destruct payoffData; reflexivity. Qed.

Lemma scanBreakEvens_length payoffData : forall keys acc,
  (length (scanBreakEvens payoffData keys acc)
   <= length acc + (length payoffData - 1))%nat.
Proof.
  induction payoffData as [|l data IH]; intros keys acc.
  - cbn [scanBreakEvens length]. lia.
  - destruct data as [|r rest]; [cbn [scanBreakEvens length]; lia|].
    rewrite BreakEvenProps.scanBreakEvens_step.
    destruct (crosses l r);
      [destruct (negb _)|];
      match goal with
      | |- context [scanBreakEvens _ ?k ?a] => pose proof (IH k a) as Q
      end;
      rewrite ?length_app in Q; cbn [length] in *; lia.
Qed.

(** X13: a curve has at most one break-even for each pair of
    consecutive samples: never more break-evens than samples less one. *)
Theorem breakEvens_count legs payoffData currentPrice :
  (length (StrategyStats.breakEvens
             (calculateStrategyStats legs payoffData currentPrice))
   <= length payoffData - 1)%nat.
Proof.
  destruct payoffData as [|d0 data]; [cbn; lia|].
  change (StrategyStats.breakEvens
            (calculateStrategyStats legs (d0 :: data) currentPrice))
    with (findBreakEvens (d0 :: data)).
  unfold findBreakEvens.
  rewrite (Permutation_length (BreakEvenProps.Array_sort_perm _ _)).
  apply (scanBreakEvens_length (d0 :: data) [] []).
Qed.

End StrategyProps.

(** ** The simulator, its backtest panel and the payoff chart *)

Module SimulatorProps.

Import StrategySimulator.
Local Open Scope float_scope.

(** X14: the amount by which the chart divides profits is always a
    positive number, never 0 or NaN, whatever the statistics; the chart
    takes it as its base unchanged, and every percentage of the chart data
    is the profit over that base times 100, rounded to 4 decimals. *)
Theorem percentBase_positive stats :
  (0 <? percentBase stats) = true
  /\ PayoffChart.baseOf (Some (percentBase stats)) = percentBase stats
  /\ forall data,
       PayoffChart.chartData data (Some (percentBase stats))
       = map (fun point =>
                {| PayoffChart.movePct := PayoffData.movePct point;
                   PayoffChart.profit := PayoffData.profit point;
                   PayoffChart.profitPct :=
                     JS.round_fixed 4
                       ((PayoffData.profit point / percentBase stats) * 100) |})
           data.
Proof.
  assert (P : (0 <? percentBase stats) = true).
  { unfold percentBase.
    destruct (StrategyStats.capitalAtRisk stats) as [c|].
    - destruct (JS.truthy c && (0 <? c)) eqn:U.
      + apply andb_true_iff in U. tauto.
      + destruct (0 <? JS.Math_abs (StrategyStats.netPremium stats)) eqn:Q;
          [exact Q|reflexivity].
    - destruct (0 <? JS.Math_abs (StrategyStats.netPremium stats)) eqn:Q;
        [exact Q|reflexivity]. }
  assert (B : PayoffChart.baseOf (Some (percentBase stats)) = percentBase stats).
  { unfold PayoffChart.baseOf.
    rewrite (OrderFacts.truthy_positive _ P), P. reflexivity. }
  split; [exact P|]. split; [exact B|].
  intros data. unfold PayoffChart.chartData. rewrite B, P. reflexivity.
Qed.

(** X15: the base capital derived for the backtest is never negative.
    Without a curve it is the magnitude of the strategy cost.  With a
    curve: for a net credit (positive cost) it is the magnitude of the
    worst payoff when that payoff is a loss, and the credit otherwise; for
    a net debit it is the debit; and for a cost of 0 or NaN it is the
    magnitude of the worst payoff. *)
Theorem deriveBaseCapital_cases strategyCost payoffReturns :
  let base := Backtest.deriveBaseCapital strategyCost payoffReturns in
  let worst := JS.Math_min_list payoffReturns in
  (base <? 0) = false
  /\ (payoffReturns = [] -> base = abs strategyCost)
  /\ (payoffReturns <> [] ->
      ((0 <? strategyCost) = true ->
       ((worst <? 0) = true -> base = abs worst)
       /\ ((worst <? 0) = false -> base = abs strategyCost))
      /\ ((strategyCost <? 0) = true -> base = abs strategyCost)
      /\ ((0 <? strategyCost) = false -> (strategyCost <? 0) = false ->
          base = abs worst)).
Proof.
  cbv zeta. unfold Backtest.deriveBaseCapital, JS.Math_abs.
  set (worst := JS.Math_min_list payoffReturns).
  split; [|split].
  - destruct (length payoffReturns =? 0)%nat; [apply StrategyProps.abs_not_negative|].
    destruct (0 <? strategyCost).
    + destruct (0 <? abs (JS.Math_min 0 worst)); apply StrategyProps.abs_not_negative.
    + destruct (0 <? abs strategyCost); apply StrategyProps.abs_not_negative.
  - intros ->. reflexivity.
  - intros Ne.
    assert (L : (length payoffReturns =? 0)%nat = false).
    { apply Nat.eqb_neq. destruct payoffReturns; [congruence|discriminate]. }
    rewrite L. split; [|split].
    + intros C. rewrite C. split.
      * intros W. apply OrderFacts.ltb_true in W. destruct W as (Nw & N0 & W).
        assert (M : JS.Math_min 0 worst = worst).
        { unfold JS.Math_min. rewrite Nw. cbn [is_nan orb].
          change (is_nan 0) with false. cbn [orb].
          rewrite (OrderFacts.ltb_ord 0 worst N0 Nw), (OrderFacts.ltb_ord worst 0 Nw N0).
          destruct (Z.ltb_spec (Reference.ord 0) (Reference.ord worst)); [lia|].
          destruct (Z.ltb_spec (Reference.ord worst) (Reference.ord 0)); [|lia].
          reflexivity. }
        rewrite M.
        assert (Q : (0 <? abs worst) = true).
        { rewrite OrderFacts.ltb_ord;
            [|reflexivity|rewrite OrderFacts.is_nan_abs; exact Nw].
          rewrite OrderFacts.ord_abs. apply Z.ltb_lt.
          rewrite OrderFacts.ord_zero in *. lia. }
        rewrite Q. reflexivity.
      * intros W.
        assert (Q : (0 <? abs (JS.Math_min 0 worst)) = false).
        { destruct (is_nan worst) eqn:Nw.
          - apply OrderFacts.ltb_nan. right.
            rewrite OrderFacts.is_nan_abs, OrderFacts.Math_min_nan, Nw.
            apply orb_true_r.
          - rewrite (OrderFacts.ltb_ord worst 0 Nw eq_refl) in W.
            apply Z.ltb_ge in W. rewrite OrderFacts.ord_zero in W.
            rewrite OrderFacts.ltb_ord;
              [|reflexivity
               |rewrite OrderFacts.is_nan_abs, OrderFacts.Math_min_nan, Nw; reflexivity].
            rewrite OrderFacts.ord_abs, (OrderFacts.ord_Math_min 0 worst eq_refl Nw).
            rewrite OrderFacts.ord_zero. apply Z.ltb_ge. lia. }
        rewrite Q. reflexivity.
    + intros C. apply OrderFacts.ltb_true in C. destruct C as (Nc & N0 & C).
      rewrite (OrderFacts.ltb_ord 0 strategyCost N0 Nc).
      destruct (Z.ltb_spec (Reference.ord 0) (Reference.ord strategyCost)); [lia|].
      assert (Q : (0 <? abs strategyCost) = true).
      { rewrite OrderFacts.ltb_ord;
          [|reflexivity|rewrite OrderFacts.is_nan_abs; exact Nc].
        rewrite OrderFacts.ord_abs. apply Z.ltb_lt.
        rewrite OrderFacts.ord_zero in *. lia. }
      rewrite Q. reflexivity.
    + intros C1 C2. rewrite C1.
      assert (Q : (0 <? abs strategyCost) = false).
      { destruct (is_nan strategyCost) eqn:Nc.
        - apply OrderFacts.ltb_nan. right. rewrite OrderFacts.is_nan_abs. exact Nc.
        - rewrite (OrderFacts.ltb_ord 0 strategyCost eq_refl Nc) in C1.
          rewrite (OrderFacts.ltb_ord strategyCost 0 Nc eq_refl) in C2.
          apply Z.ltb_ge in C1, C2.
          rewrite OrderFacts.ltb_ord;
            [|reflexivity|rewrite OrderFacts.is_nan_abs; exact Nc].
          rewrite OrderFacts.ord_abs. apply Z.ltb_ge.
          rewrite OrderFacts.ord_zero in *. lia. }
      rewrite Q. reflexivity.
Qed.

Lemma finite_number x : JS.isFinite x = true -> is_nan x = false.
Proof.
  unfold JS.isFinite, is_finite. intros H. apply negb_true_iff in H.
  apply orb_false_iff in H. tauto.
Qed.

Lemma not_leb_ltb a b :
  is_nan a = false -> is_nan b = false -> (a <=? b) = false -> (b <? a) = true.
Proof.
  intros Na Nb H. rewrite (OrderFacts.leb_ord a b Na Nb) in H.
  rewrite (OrderFacts.ltb_ord b a Nb Na). apply Z.leb_gt in H. apply Z.ltb_lt. exact H.
Qed.

Section WithMathPow.

Variable Math_pow : JS.number -> JS.number -> JS.number.

(** X16: when [runSimulation] shows a result, there are legs, the price
    is finite and positive, the history was fetched and is not empty, and
    the result is that of [runBacktest] on the curve and the base capital
    of the panel.  If that base capital is a number it is positive, it is
    the initial capital of the metrics, and the result has a row; if it is
    NaN, which no guard of the panel rejects, the result shown has no rows
    and an initial capital of 0. *)
Theorem runSimulation_shown {Range : Type} legs currentPrice (range : option Range)
  fetched settings result :
  runSimulation Math_pow legs currentPrice range fetched settings = Shown result ->
  let base := baseCapital legs currentPrice in
  exists history,
    fetched = inr history /\ history <> [] /\ legs <> []
    /\ JS.isFinite currentPrice = true /\ (0 <? currentPrice) = true
    /\ result
       = Backtest.runBacktest Math_pow
           {| BacktestInput.history := history;
              BacktestInput.payoff := BacktestPanel.payoffCurve legs currentPrice;
              BacktestInput.baseCapital := base;
              BacktestInput.monthlyWithdrawal := monthlyWithdrawal settings;
              BacktestInput.monthlyInvestment := Some (monthlyInvestment settings);
              BacktestInput.applyLosses := applyLosses settings;
              BacktestInput.frequency := frequency settings |}
    /\ (is_nan base = false ->
        (0 <? base) = true
        /\ BacktestMetrics.initialCapital (BacktestResult.metrics result) = base
        /\ BacktestResult.rows result <> [])
    /\ (is_nan base = true ->
        BacktestMetrics.initialCapital (BacktestResult.metrics result) = 0
        /\ BacktestResult.rows result = []).
Proof.
  intros H base. unfold runSimulation in H.
  destruct (length legs =? 0)%nat eqn:Ll; [discriminate|].
  destruct (currentPrice <=? 0) eqn:Lp; [discriminate|].
  destruct range as [r|]; [|discriminate].
  fold base in H.
  destruct (length (PayoffCurve.variations (BacktestPanel.payoffCurve legs currentPrice))
            =? 0)%nat eqn:Lv; [discriminate|].
  destruct (base <=? 0) eqn:Lb; [discriminate|]. cbn [orb] in H.
  destruct fetched as [message|history]; [discriminate|].
  destruct (length history =? 0)%nat eqn:Lh; [discriminate|].
  injection H as <-.
  assert (Fp : JS.isFinite currentPrice = true).
  { destruct (JS.isFinite currentPrice) eqn:F; [reflexivity|].
    unfold BacktestPanel.payoffCurve, Backtest.buildPayoffCurve in Lv.
    rewrite Ll, F in Lv. discriminate. }
  set (input := {| BacktestInput.history := history;
                   BacktestInput.payoff := BacktestPanel.payoffCurve legs currentPrice;
                   BacktestInput.baseCapital := base;
                   BacktestInput.monthlyWithdrawal := monthlyWithdrawal settings;
                   BacktestInput.monthlyInvestment := Some (monthlyInvestment settings);
                   BacktestInput.applyLosses := applyLosses settings;
                   BacktestInput.frequency := frequency settings |}).
  destruct (RunProps.metrics_capital Math_pow input) as (I & _ & _). rewrite I.
  destruct (LoopProps.runBacktest_loop Math_pow input) as (R & _ & _). rewrite R.
  exists history. split; [reflexivity|].
  split; [intros ->; discriminate|].
  split; [intros ->; discriminate|].
  split; [exact Fp|].
  split; [apply not_leb_ltb; [apply finite_number; exact Fp|reflexivity|exact Lp]|].
  split; [reflexivity|].
  unfold Backtest.degenerate, Backtest.safeCapitalOf. subst input.
  cbn [BacktestInput.history BacktestInput.payoff BacktestInput.baseCapital].
  rewrite Lh, Lv. cbn [orb]. split.
  - intros Nb. pose proof (not_leb_ltb base 0 Nb eq_refl Lb) as Pb.
    rewrite Pb, Lb. split; [reflexivity|]. split; [reflexivity|].
    pose proof (RunProps.run_rows_points (applyLosses settings)
                  (BacktestPanel.payoffCurve legs currentPrice) base
                  (Backtest.perPeriod (frequency settings) (monthlyWithdrawal settings))
                  (Backtest.perPeriod (frequency settings) (monthlyInvestment settings))
                  history) as Pts.
    unfold Backtest.simulate, Backtest.safeCapitalOf, Backtest.monthlyInvestmentOf.
    cbn [BacktestInput.history BacktestInput.payoff BacktestInput.baseCapital
         BacktestInput.monthlyWithdrawal BacktestInput.monthlyInvestment
         BacktestInput.applyLosses BacktestInput.frequency].
    rewrite Pb. intros E. cbv beta in Pts. rewrite E in Pts.
    destruct history; [discriminate|]. discriminate.
  - intros Nb.
    assert (Pb : (0 <? base) = false) by (apply OrderFacts.ltb_nan; right; exact Nb).
    rewrite Pb. change (0 <=? 0) with true. split; reflexivity.
Qed.

End WithMathPow.

(** The bear call spread at a price of 30, run over the history with a
    gap. *)
Lemma runSimulation_shown_witness :
  exists result,
    runSimulation Sample.Math_pow Sample.bearCallSpread 30 (Some tt)
      (inr Sample.withGap) Sample.settings = Shown result
    /\ BacktestMetrics.initialCapital (BacktestResult.metrics result) = 100.
Proof.
  eexists. split; [vm_compute; reflexivity|].
  destruct (runSimulation_shown Sample.Math_pow Sample.bearCallSpread 30 (Some tt)
              (inr Sample.withGap) Sample.settings _ ltac:(vm_compute; reflexivity))
    as (history & _ & _ & _ & _ & _ & _ & N & _).
  destruct (N ltac:(vm_compute; reflexivity)) as (_ & I & _).
  rewrite I. vm_compute. reflexivity.
Defined.

End SimulatorProps.

(** ** The payoff chart *)

Module ChartProps.

Import PayoffChart.
Local Open Scope float_scope.

(** *** Signs of sums, differences and products *)

Lemma binary_round_aux_positive m e l :
  SFltb (binary_round_aux prec emax false m e l) (S754_zero false) = false.
Proof.
  unfold binary_round_aux.
  destruct (shr_fexp prec emax m e l) as [mrs' e'].
  destruct (shr_fexp prec emax _ e' loc_Exact) as [mrs'' e''].
  destruct (shr_m mrs''); [reflexivity| |reflexivity].
  destruct (_ <=? _)%Z; reflexivity.
Qed.

Lemma binary_round_positive m e :
  SFltb (binary_round prec emax false m e) (S754_zero false) = false.
Proof.
  unfold binary_round. destruct (shl_align m e _) as [mz ez].
  apply binary_round_aux_positive.
Qed.

Lemma binary_round_negative m e :
  SFltb (S754_zero false) (binary_round prec emax true m e) = false.
Proof.
  unfold binary_round. destruct (shl_align m e _) as [mz ez].
  apply StrategyProps.binary_round_aux_negative.
Qed.

Lemma SFsub_not_positive a b :
  SFltb (S754_zero false) a = false -> SFltb b (S754_zero false) = false ->
  SFltb (S754_zero false) (SF64sub a b) = false.
Proof.
  unfold SF64sub.
  destruct a as [s|s| |s m e], b as [t|t| |t n f]; cbn [SFsub];
    try reflexivity; try discriminate;
    destruct s, t; try reflexivity; try discriminate.
  intros _ _. cbn [cond_Zopp]. apply binary_round_negative.
Qed.

Lemma SFsub_not_negative a b :
  SFltb a (S754_zero false) = false -> SFltb (S754_zero false) b = false ->
  SFltb (SF64sub a b) (S754_zero false) = false.
Proof.
  unfold SF64sub.
  destruct a as [s|s| |s m e], b as [t|t| |t n f]; cbn [SFsub];
    try reflexivity; try discriminate;
    destruct s, t; try reflexivity; try discriminate.
  intros _ _. cbn [cond_Zopp]. apply binary_round_positive.
Qed.

Lemma SFadd_not_negative a b :
  SFltb a (S754_zero false) = false -> SFltb b (S754_zero false) = false ->
  SFltb (SF64add a b) (S754_zero false) = false.
Proof.
  unfold SF64add.
  destruct a as [s|s| |s m e], b as [t|t| |t n f]; cbn [SFadd];
    try reflexivity; try discriminate;
    destruct s, t; try reflexivity; try discriminate.
  intros _ _. cbn [cond_Zopp]. apply binary_round_positive.
Qed.

Lemma SFmul_not_negative a c :
  SFltb a (S754_zero false) = false -> SFltb (S754_zero false) c = true ->
  SFltb (SF64mul a c) (S754_zero false) = false.
Proof.
  unfold SF64mul.
  destruct a as [s|s| |s m e], c as [t|t| |t n f]; cbn [SFmul];
    try reflexivity; try discriminate;
    destruct s, t; try reflexivity; try discriminate.
  intros _ _. cbn [xorb]. apply binary_round_aux_positive.
Qed.

Lemma sub_not_positive a b :
  (0 <? a) = false -> (b <? 0) = false -> (0 <? a - b) = false.
Proof.
  rewrite !ltb_spec, sub_spec, JSFacts.Prim2SF_zero. apply SFsub_not_positive.
Qed.

Lemma sub_not_negative a b :
  (a <? 0) = false -> (0 <? b) = false -> (a - b <? 0) = false.
Proof.
  rewrite !ltb_spec, sub_spec, JSFacts.Prim2SF_zero. apply SFsub_not_negative.
Qed.

Lemma add_not_negative a b :
  (a <? 0) = false -> (b <? 0) = false -> (a + b <? 0) = false.
Proof.
  rewrite !ltb_spec, add_spec, JSFacts.Prim2SF_zero. apply SFadd_not_negative.
Qed.

Lemma mul_not_negative a c :
  (a <? 0) = false -> (0 <? c) = true -> (a * c <? 0) = false.
Proof.
  rewrite !ltb_spec, mul_spec, JSFacts.Prim2SF_zero. apply SFmul_not_negative.
Qed.

Lemma Math_min_0_not_positive x : (0 <? JS.Math_min x 0) = false.
Proof.
  destruct (is_nan x) eqn:N.
  - apply OrderFacts.ltb_nan. right. rewrite OrderFacts.Math_min_nan, N. reflexivity.
  - rewrite OrderFacts.ltb_ord;
      [|reflexivity|rewrite OrderFacts.Math_min_nan, N; reflexivity].
    rewrite (OrderFacts.ord_Math_min x 0 N eq_refl), OrderFacts.ord_zero.
    apply Z.ltb_ge. lia.
Qed.

Lemma Math_max_0_not_negative x : (JS.Math_max x 0 <? 0) = false.
Proof.
  destruct (is_nan x) eqn:N.
  - apply OrderFacts.ltb_nan. left. rewrite OrderFacts.Math_max_nan, N. reflexivity.
  - rewrite OrderFacts.ltb_ord;
      [|rewrite OrderFacts.Math_max_nan, N; reflexivity|reflexivity].
    rewrite (OrderFacts.ord_Math_max x 0 N eq_refl), OrderFacts.ord_zero.
    apply Z.ltb_ge. lia.
Qed.

Lemma ltb_asym a b : (a <? b) = true -> (b <? a) = false.
Proof.
  intros H. apply OrderFacts.ltb_true in H. destruct H as (Na & Nb & H).
  rewrite (OrderFacts.ltb_ord b a Nb Na). apply Z.ltb_ge. lia.
Qed.

(** *** Results that are numbers *)

(** Rounding a mantissa that is not negative never gives NaN. *)
Lemma shr_1_nonneg mrs : (0 <= shr_m mrs)%Z -> (0 <= shr_m (shr_1 mrs))%Z.
Proof.
  destruct mrs as [m r t]. cbn [shr_m]. intros H.
  destruct m as [|p|p]; [cbn; lia| |lia].
  destruct p; cbn; lia.
Qed.

Lemma iter_shr_1_nonneg n : forall mrs,
  (0 <= shr_m mrs)%Z -> (0 <= shr_m (iter_pos shr_1 n mrs))%Z.
Proof.
  induction n as [n IH|n IH|]; intros mrs H; cbn [iter_pos].
  - apply IH, IH, shr_1_nonneg, H.
  - apply IH, IH, H.
  - apply shr_1_nonneg, H.
Qed.

Lemma shr_fexp_nonneg m e l :
  (0 <= m)%Z -> (0 <= shr_m (fst (shr_fexp prec emax m e l)))%Z.
Proof.
  intros H. unfold shr_fexp, shr.
  assert (H0 : (0 <= shr_m (shr_record_of_loc m l))%Z).
  { destruct l as [|[]]; exact H. }
  destruct (fexp prec emax (Zdigits2 m + e) - e)%Z as [|k|k]; cbn [fst];
    [exact H0| |exact H0].
  apply iter_shr_1_nonneg. exact H0.
Qed.

Lemma round_nearest_even_nonneg m l :
  (0 <= m)%Z -> (0 <= round_nearest_even m l)%Z.
Proof.
  intros H. unfold round_nearest_even.
  destruct l as [|[]]; try exact H; try (change IntDef.Z.add with Z.add; lia).
  destruct (Z.even m); [exact H|change IntDef.Z.add with Z.add; lia].
Qed.

Lemma binary_round_aux_not_nan s m e l :
  (0 <= m)%Z -> binary_round_aux prec emax s m e l <> S754_nan.
Proof.
  intros H. unfold binary_round_aux.
  pose proof (shr_fexp_nonneg m e l H) as H1.
  destruct (shr_fexp prec emax m e l) as [mrs' e']. cbn [fst] in H1.
  pose proof (shr_fexp_nonneg
                (round_nearest_even (shr_m mrs') (loc_of_shr_record mrs')) e' loc_Exact
                (round_nearest_even_nonneg _ _ H1)) as H2.
  destruct (shr_fexp prec emax _ e' loc_Exact) as [mrs'' e'']. cbn [fst] in H2.
  destruct (shr_m mrs''); [discriminate| |lia].
  destruct (_ <=? _)%Z; discriminate.
Qed.

Lemma binary_round_not_nan s m e : binary_round prec emax s m e <> S754_nan.
Proof.
  unfold binary_round. destruct (shl_align m e _) as [mz ez].
  apply binary_round_aux_not_nan. lia.
Qed.

Lemma binary_normalize_not_nan m e szero :
  binary_normalize prec emax m e szero <> S754_nan.
Proof.
  unfold binary_normalize. destruct m; [discriminate| |]; apply binary_round_not_nan.
Qed.

Lemma SFsub_nan a b :
  SF64sub a b = S754_nan ->
  a = S754_nan \/ b = S754_nan \/ exists s, a = S754_infinity s /\ b = S754_infinity s.
Proof.
  unfold SF64sub.
  destruct a as [s|s| |s m e], b as [t|t| |t n f]; cbn [SFsub]; auto;
    try discriminate.
  - destruct s, t; cbn; try discriminate.
  - destruct s, t; cbn; try discriminate; intros _; right; right; eauto.
  - intros H. exfalso. exact (binary_normalize_not_nan _ _ _ H).
Qed.

Lemma SFadd_nan a b :
  SF64add a b = S754_nan ->
  a = S754_nan \/ b = S754_nan
  \/ exists s, a = S754_infinity s /\ b = S754_infinity (negb s).
Proof.
  unfold SF64add.
  destruct a as [s|s| |s m e], b as [t|t| |t n f]; cbn [SFadd]; auto;
    try discriminate.
  - destruct s, t; cbn; try discriminate.
  - destruct s, t; cbn; try discriminate; intros _; right; right; eauto.
  - intros H. exfalso. exact (binary_normalize_not_nan _ _ _ H).
Qed.

Lemma SFmul_nan a s m e :
  SF64mul a (S754_finite s m e) = S754_nan -> a = S754_nan.
Proof.
  unfold SF64mul.
  destruct a as [t|t| |t n f]; cbn [SFmul]; auto; try discriminate.
  intros H. exfalso. revert H. apply binary_round_aux_not_nan. lia.
Qed.

Lemma is_nan_false x : is_nan x = false <-> Prim2SF x <> S754_nan.
Proof.
  rewrite <- JSFacts.is_nan_spec. destruct (is_nan x); split; congruence.
Qed.

(** A difference of a number that is not positive and one that is not
    negative is a number, and so is the difference the other way round. *)
Lemma sub_number a b :
  is_nan a = false -> is_nan b = false ->
  ((0 <? a) = false /\ (b <? 0) = false) \/ ((a <? 0) = false /\ (0 <? b) = false) ->
  is_nan (a - b) = false.
Proof.
  intros Na Nb S. apply is_nan_false. apply is_nan_false in Na, Nb.
  rewrite sub_spec. intros H.
  destruct (SFsub_nan _ _ H) as [E|[E|(s & Ea & Eb)]]; [contradiction..|].
  rewrite !ltb_spec, JSFacts.Prim2SF_zero, Ea, Eb in S.
  destruct s, S as [[S1 S2]|[S1 S2]]; discriminate.
Qed.

Lemma add_number a b :
  is_nan a = false -> is_nan b = false ->
  (a <? 0) = false -> (b <? 0) = false ->
  is_nan (a + b) = false.
Proof.
  intros Na Nb Sa Sb. apply is_nan_false. apply is_nan_false in Na, Nb.
  rewrite add_spec. intros H.
  destruct (SFadd_nan _ _ H) as [E|[E|(s & Ea & Eb)]]; [contradiction..|].
  rewrite !ltb_spec, JSFacts.Prim2SF_zero in Sa, Sb. rewrite Ea in Sa. rewrite Eb in Sb.
  destruct s; discriminate.
Qed.

Lemma mul_number a : is_nan a = false -> is_nan (a * 0.08) = false.
Proof.
  intros Na. apply is_nan_false. apply is_nan_false in Na.
  rewrite mul_spec. intros H.
  change (Prim2SF 0.08) with (S754_finite false 5764607523034235 (-56)) in H.
  exact (Na (SFmul_nan _ _ _ _ H)).
Qed.

Lemma Math_min_list_number l :
  Forall (fun x => is_nan x = false) l -> is_nan (JS.Math_min_list l) = false.
Proof.
  unfold JS.Math_min_list.
  assert (G : forall acc, is_nan acc = false ->
              Forall (fun x => is_nan x = false) l ->
              is_nan (fold_left JS.Math_min l acc) = false).
  { induction l as [|x l IH]; intros acc Na H; cbn [fold_left]; [exact Na|].
    inversion H; subst. apply IH; [|assumption].
    rewrite OrderFacts.Math_min_nan, Na. assumption. }
  apply G. reflexivity.
Qed.

Lemma Math_max_list_number l :
  Forall (fun x => is_nan x = false) l -> is_nan (JS.Math_max_list l) = false.
Proof.
  unfold JS.Math_max_list.
  assert (G : forall acc, is_nan acc = false ->
              Forall (fun x => is_nan x = false) l ->
              is_nan (fold_left JS.Math_max l acc) = false).
  { induction l as [|x l IH]; intros acc Na H; cbn [fold_left]; [exact Na|].
    inversion H; subst. apply IH; [|assumption].
    rewrite OrderFacts.Math_max_nan, Na. assumption. }
  apply G. reflexivity.
Qed.

Lemma Math_min_list_nan l :
  Exists (fun x => is_nan x = true) l -> is_nan (JS.Math_min_list l) = true.
Proof.
  unfold JS.Math_min_list. generalize infinity.
  induction l as [|x l IH]; intros acc H; inversion H; subst; cbn [fold_left].
  - assert (G : forall l acc, is_nan acc = true ->
                  is_nan (fold_left JS.Math_min l acc) = true).
    { clear. induction l as [|y l IH]; intros acc Na; cbn [fold_left]; [exact Na|].
      apply IH. rewrite OrderFacts.Math_min_nan, Na. reflexivity. }
    apply G. rewrite OrderFacts.Math_min_nan. apply orb_true_iff. right. assumption.
  - apply IH. assumption.
Qed.

Lemma Math_max_list_nan l :
  Exists (fun x => is_nan x = true) l -> is_nan (JS.Math_max_list l) = true.
Proof.
  unfold JS.Math_max_list. generalize neg_infinity.
  induction l as [|x l IH]; intros acc H; inversion H; subst; cbn [fold_left].
  - assert (G : forall l acc, is_nan acc = true ->
                  is_nan (fold_left JS.Math_max l acc) = true).
    { clear. induction l as [|y l IH]; intros acc Na; cbn [fold_left]; [exact Na|].
      apply IH. rewrite OrderFacts.Math_max_nan, Na. reflexivity. }
    apply G. rewrite OrderFacts.Math_max_nan. apply orb_true_iff. right. assumption.
  - apply IH. assumption.
Qed.

Lemma sub_nan_l a b : is_nan a = true -> is_nan (a - b) = true.
Proof.
  intros H. apply JSFacts.is_nan_spec. apply JSFacts.is_nan_spec in H.
  rewrite sub_spec, H. reflexivity.
Qed.

Lemma add_nan_l a b : is_nan a = true -> is_nan (a + b) = true.
Proof.
  intros H. apply JSFacts.is_nan_spec. apply JSFacts.is_nan_spec in H.
  rewrite add_spec, H. reflexivity.
Qed.

Lemma ltb_leb a b : (a <? b) = true -> (a <=? b) = true.
Proof.
  intros H. apply OrderFacts.ltb_true in H. destruct H as (Na & Nb & H).
  rewrite (OrderFacts.leb_ord a b Na Nb). apply Z.leb_le. lia.
Qed.

(** X17: when no profit percentage of the chart data is NaN, the
    vertical range of the chart contains 0: its lower end is at most 0 and
    its upper end at least 0 (either may be infinite); and of the two
    extremes reported with it, the maximum profit is at least 0 and the
    maximum loss at most 0.  When a profit percentage is NaN, both ends of
    the range are NaN and the two extremes are reported as 0. *)
Theorem domainOf_contains_zero chartData :
  let domain := domainOf chartData in
  (Forall (fun point => is_nan (profitPct point) = false) chartData ->
   (fst (yDomain domain) <=? 0) = true
   /\ (0 <=? snd (yDomain domain)) = true
   /\ (0 <=? maxProfitPct domain) = true
   /\ (maxLossPct domain <=? 0) = true)
  /\ (Exists (fun point => is_nan (profitPct point) = true) chartData ->
      is_nan (fst (yDomain domain)) = true
      /\ is_nan (snd (yDomain domain)) = true
      /\ maxProfitPct domain = 0
      /\ maxLossPct domain = 0).
Proof.
  cbv zeta. unfold domainOf.
  destruct chartData as [|d0 data] eqn:Data.
  { split; [intros _; repeat split; reflexivity|]. intros H. inversion H. }
  rewrite <- Data. assert (L : (length (map profitPct chartData) =? 0)%nat = false).
  { rewrite Data. reflexivity. }
  rewrite L. clear Data L d0 data.
  cbn [yDomain maxProfitPct maxLossPct fst snd].
  set (rawMin := JS.Math_min_list (map profitPct chartData)).
  set (rawMax := JS.Math_max_list (map profitPct chartData)).
  split.
  - intros N.
    assert (N' : Forall (fun x => is_nan x = false) (map profitPct chartData)).
    { apply Forall_map. exact N. }
    pose proof (Math_min_list_number _ N') as Nmin. fold rawMin in Nmin.
    pose proof (Math_max_list_number _ N') as Nmax. fold rawMax in Nmax.
    pose proof (Math_min_0_not_positive rawMin) as Hmin.
    pose proof (Math_max_0_not_negative rawMax) as Hmax.
    assert (Nlo : is_nan (JS.Math_min rawMin 0) = false).
    { rewrite OrderFacts.Math_min_nan, Nmin. reflexivity. }
    assert (Nhi : is_nan (JS.Math_max rawMax 0) = false).
    { rewrite OrderFacts.Math_max_nan, Nmax. reflexivity. }
    pose proof (sub_not_negative _ _ Hmax Hmin) as Hrange.
    assert (Nrange : is_nan (JS.Math_max rawMax 0 - JS.Math_min rawMin 0) = false).
    { apply sub_number; auto. }
    set (range := JS.Math_max rawMax 0 - JS.Math_min rawMin 0) in *.
    set (pad := if range =? 0 then 1 else range * 0.08).
    assert (Hpad : (pad <? 0) = false).
    { subst pad. destruct (range =? 0); [reflexivity|].
      apply mul_not_negative; [exact Hrange|reflexivity]. }
    assert (Npad : is_nan pad = false).
    { subst pad. destruct (range =? 0); [reflexivity|]. apply mul_number. exact Nrange. }
    split; [|split; [|split]].
    + apply JSFacts.not_ltb_leb; [|reflexivity|].
      * apply sub_number; auto.
      * apply sub_not_positive; assumption.
    + apply JSFacts.not_ltb_leb; [reflexivity| |].
      * apply add_number; assumption.
      * apply add_not_negative; assumption.
    + destruct (0 <? rawMax) eqn:P; [apply ltb_leb; exact P|reflexivity].
    + destruct (rawMin <? 0) eqn:P; [apply ltb_leb; exact P|reflexivity].
  - intros N.
    assert (N' : Exists (fun x => is_nan x = true) (map profitPct chartData)).
    { apply Exists_exists in N. destruct N as (d & I & Hd).
      apply Exists_exists. exists (profitPct d). split; [apply in_map; exact I|exact Hd]. }
    pose proof (Math_min_list_nan _ N') as Nmin. fold rawMin in Nmin.
    pose proof (Math_max_list_nan _ N') as Nmax. fold rawMax in Nmax.
    split; [|split; [|split]].
    + apply sub_nan_l. rewrite OrderFacts.Math_min_nan, Nmin. reflexivity.
    + apply add_nan_l. rewrite OrderFacts.Math_max_nan, Nmax. reflexivity.
    + rewrite OrderFacts.ltb_nan; [reflexivity|right; exact Nmax].
    + rewrite OrderFacts.ltb_nan; [reflexivity|left; exact Nmin].
Qed.

Lemma domainOf_contains_zero_witness :
  (fst (yDomain (domainOf (chartData Sample.divergingCurve None))) <=? 0) = true
  /\ (0 <=? snd (yDomain (domainOf (chartData Sample.divergingCurve None)))) = true
  /\ (0 <=? maxProfitPct (domainOf (chartData Sample.divergingCurve None))) = true
  /\ (maxLossPct (domainOf (chartData Sample.divergingCurve None)) <=? 0) = true.
Proof.
  apply (proj1 (domainOf_contains_zero (chartData Sample.divergingCurve None))).
  repeat constructor.
Defined.

(** *** The marks of the break-evens *)

Lemma scanMarks_step value rest seen marks :
  scanMarks (value :: rest) seen marks
  = if negb (JS.isFinite value) then scanMarks rest seen marks
    else if StrategyMath.Set_has (JS.toFixed 2 (Reference.markOf value)) seen
         then scanMarks rest seen marks
         else scanMarks rest (JS.toFixed 2 (Reference.markOf value) :: seen)
                (marks ++ [Reference.markOf value]).
Proof. reflexivity. Qed.

Lemma scanMarks_spec breakEvens : forall seen marks,
  (forall k, In k seen <-> In k (map (JS.toFixed 2) marks)) ->
  NoDup (map (JS.toFixed 2) marks) ->
  let result := scanMarks breakEvens seen marks in
  NoDup (map (JS.toFixed 2) result)
  /\ (forall x, In x marks -> In x result)
  /\ (forall x, In x result ->
       In x marks
       \/ exists value, In value breakEvens /\ JS.isFinite value = true
                        /\ x = Reference.markOf value)
  /\ (forall value, In value breakEvens -> JS.isFinite value = true ->
       In (JS.toFixed 2 (Reference.markOf value)) (map (JS.toFixed 2) result)).
Proof.
  induction breakEvens as [|value rest IH]; intros seen marks K N; cbv zeta.
  - cbn [scanMarks]. split; [exact N|]. split; [auto|]. split; [auto|].
    intros value [].
  - rewrite scanMarks_step.
    destruct (JS.isFinite value) eqn:F; cbn [negb].
    + destruct (StrategyMath.Set_has (JS.toFixed 2 (Reference.markOf value)) seen) eqn:Hs.
      * destruct (IH seen marks K N) as (R1 & R2 & R3 & R4).
        split; [exact R1|]. split; [exact R2|]. split.
        -- intros x Hx. destruct (R3 x Hx) as [H|(v & Hv & Fv & E)]; [left; exact H|].
           right. exists v. split; [right; exact Hv|]. split; assumption.
        -- intros v [<-|Hv] Fv; [|apply R4; assumption].
           apply BreakEvenProps.Set_has_In in Hs. apply K in Hs.
           apply in_map_iff in Hs. destruct Hs as (y & Hy & Iy).
           rewrite <- Hy. apply in_map. apply R2. exact Iy.
      * assert (Hn : ~ In (JS.toFixed 2 (Reference.markOf value)) seen).
        { intros I. apply BreakEvenProps.Set_has_In in I. rewrite I in Hs. discriminate. }
        destruct (IH (JS.toFixed 2 (Reference.markOf value) :: seen)
                    (marks ++ [Reference.markOf value])) as (R1 & R2 & R3 & R4).
        { intros k. rewrite map_app, in_app_iff. cbn [map In].
          rewrite (K k). tauto. }
        { rewrite map_app. cbn [map].
          apply NoDup_app_remove_l with (l := []).
          apply Permutation_NoDup
            with (l := JS.toFixed 2 (Reference.markOf value) :: map (JS.toFixed 2) marks).
          - apply Permutation_cons_append.
          - constructor; [|exact N]. rewrite <- K. exact Hn. }
        split; [exact R1|]. split; [|split].
        -- intros x Hx. apply R2. apply in_app_iff. left. exact Hx.
        -- intros x Hx. destruct (R3 x Hx) as [H|(v & Hv & Fv & E)].
           ++ apply in_app_iff in H. destruct H as [H|[H|[]]]; [left; exact H|].
              right. exists value. split; [left; reflexivity|]. split; [exact F|].
              symmetry. exact H.
           ++ right. exists v. split; [right; exact Hv|]. split; assumption.
        -- intros v [<-|Hv] Fv; [|apply R4; assumption].
           apply in_map. apply R2. apply in_app_iff. right. left. reflexivity.
    + destruct (IH seen marks K N) as (R1 & R2 & R3 & R4).
      split; [exact R1|]. split; [exact R2|]. split.
      * intros x Hx. destruct (R3 x Hx) as [H|(v & Hv & Fv & E)]; [left; exact H|].
        right. exists v. split; [right; exact Hv|]. split; assumption.
      * intros v [<-|Hv] Fv; [congruence|apply R4; assumption].
Qed.

(** A finite break-even moved into the window lies in the window. *)
Lemma clampOf_window value :
  JS.isFinite value = true ->
  (Reference.clampOf value <? - PAYOFF_RANGE_PCT) = false
  /\ (PAYOFF_RANGE_PCT <? Reference.clampOf value) = false.
Proof.
  intros F. apply SimulatorProps.finite_number in F. unfold Reference.clampOf.
  assert (Nm : is_nan (JS.Math_min PAYOFF_RANGE_PCT value) = false)
    by (rewrite OrderFacts.Math_min_nan, F; reflexivity).
  assert (Nc : is_nan (JS.Math_max (- PAYOFF_RANGE_PCT)
                         (JS.Math_min PAYOFF_RANGE_PCT value)) = false)
    by (rewrite OrderFacts.Math_max_nan, Nm; reflexivity).
  rewrite (OrderFacts.ltb_ord _ (- PAYOFF_RANGE_PCT) Nc eq_refl).
  rewrite (OrderFacts.ltb_ord PAYOFF_RANGE_PCT _ eq_refl Nc).
  rewrite (OrderFacts.ord_Math_max (- PAYOFF_RANGE_PCT) _ eq_refl Nm).
  rewrite (OrderFacts.ord_Math_min PAYOFF_RANGE_PCT _ eq_refl F).
  rewrite OrderFacts.ord_opp.
  assert (P : (0 < Reference.ord PAYOFF_RANGE_PCT)%Z) by (vm_compute; reflexivity).
  split; apply Z.ltb_ge; lia.
Qed.

(** X18: every mark of the chart is a finite break-even moved into the
    window from -40% to 40% and rounded to 2 decimals; every finite
    break-even has a mark with the 2-decimal text of its own; no two marks
    have the same 2-decimal text; and the marks are in ascending order.
    Break-evens that are not finite leave no mark, and without a list of
    break-evens there are no marks. *)
Theorem breakEvenMarks_spec breakEvens :
  let marks := breakEvenMarks (Some breakEvens) in
  (forall x, In x marks ->
     exists value,
       In value breakEvens /\ JS.isFinite value = true
       /\ x = JS.round_fixed 2 (Reference.clampOf value)
       /\ (Reference.clampOf value <? - PAYOFF_RANGE_PCT) = false
       /\ (PAYOFF_RANGE_PCT <? Reference.clampOf value) = false)
  /\ (forall value, In value breakEvens -> JS.isFinite value = true ->
       exists x, In x marks
                 /\ JS.toFixed 2 x = JS.toFixed 2 (Reference.markOf value))
  /\ NoDup (map (JS.toFixed 2) marks)
  /\ Sorted Reference.ascending marks
  /\ breakEvenMarks None = [].
Proof.
  cbv zeta. unfold breakEvenMarks.
  destruct breakEvens as [|b0 rest].
  - cbn [length Nat.eqb]. split; [intros x []|]. split; [intros v []|].
    split; [constructor|]. split; [constructor|reflexivity].
  - cbn [length Nat.eqb]. set (list := b0 :: rest).
    destruct (scanMarks_spec list [] []) as (R1 & _ & R3 & R4).
    { intros k. reflexivity. }
    { constructor. }
    pose proof (BreakEvenProps.Array_sort_perm (fun a b => a - b) (scanMarks list [] []))
      as P.
    split; [|split; [|split; [|split]]].
    + intros x Hx. apply (Permutation_in _ P) in Hx.
      destruct (R3 x Hx) as [[]|(v & Hv & Fv & E)].
      exists v. split; [exact Hv|]. split; [exact Fv|]. split; [exact E|].
      apply clampOf_window. exact Fv.
    + intros v Hv Fv. pose proof (R4 v Hv Fv) as I.
      apply in_map_iff in I. destruct I as (x & Hx & Ix).
      exists x. split; [|exact Hx].
      apply Permutation_in with (l := scanMarks list [] []); [symmetry; exact P|exact Ix].
    + apply Permutation_NoDup with (l := map (JS.toFixed 2) (scanMarks list [] []));
        [|exact R1].
      apply Permutation_map. symmetry. exact P.
    + apply BreakEvenProps.Array_sort_sorted.
    + reflexivity.
Qed.

End ChartProps.

(** ** The curve of the panel under the interpolation *)

Module PanelCurveProps.

Import Backtest.
Local Open Scope float_scope.

Lemma defaultVariations_increasing : Reference.increasing Reference.defaultVariations.
Proof. apply StrategyProps.increasingb_spec. vm_compute. reflexivity. Qed.

(** X19: over the curve that the panel builds for at least one leg and
    a finite positive price, the abscissas grow strictly from -0.3 to 0.3,
    so the strategy return of an asset return [x] is read off as follows:
    the first return of the curve for [x <= -0.3], the last one for
    [x >= 0.3], and in between either the return of the sample whose
    variation equals [x] or the value at [x] of the line through the two
    neighbouring samples that bracket [x]. *)
Theorem panel_curve_interpolation legs currentPrice x :
  legs <> [] -> JS.isFinite currentPrice = true -> (currentPrice <=? 0) = false ->
  let curve := BacktestPanel.payoffCurve legs currentPrice in
  let xs := PayoffCurve.variations curve in
  let ys := PayoffCurve.returns curve in
  let y := linearInterpolate x xs ys in
  Reference.increasing xs
  /\ ((x <=? -0.3) = true -> y = at_ ys 0)
  /\ ((0.3 <=? x) = true -> y = at_ ys 249)
  /\ ((-0.3 <? x) = true -> (x <? 0.3) = true ->
      (exists i, (0 <= i <= 249)%Z /\ (at_ xs i =? x) = true /\ y = at_ ys i)
      \/ (exists i, (0 <= i < 249)%Z
                    /\ (at_ xs i <? x) = true /\ (x <? at_ xs (i + 1)) = true
                    /\ y = Reference.lineThrough (at_ xs i) (at_ ys i)
                             (at_ xs (i + 1)) (at_ ys (i + 1)) x)).
Proof.
  intros Hl Hf Hp. cbv zeta.
  assert (L : (length legs =? 0)%nat = false).
  { apply Nat.eqb_neq. destruct legs; [congruence|discriminate]. }
  pose proof (CurveProps.buildPayoffCurve_variations legs currentPrice L Hf Hp) as V.
  pose proof (CurveProps.buildPayoffCurve_returns_length legs currentPrice L Hf Hp) as R.
  set (ys := PayoffCurve.returns (BacktestPanel.payoffCurve legs currentPrice)) in *.
  rewrite V.
  assert (Len : length Reference.defaultVariations = length ys)
    by (rewrite R; reflexivity).
  destruct (SearchProps.interpolate_ends x Reference.defaultVariations ys
              ltac:(discriminate) Len) as (Low & High).
  pose proof (SearchProps.interpolate_inside x Reference.defaultVariations ys
                defaultVariations_increasing Len) as Inside.
  cbv zeta in Inside.
  change (Z.of_nat (length Reference.defaultVariations) - 1)%Z with 249%Z in *.
  change (at_ Reference.defaultVariations 0) with (-0.3) in *.
  change (at_ Reference.defaultVariations 249) with 0.3 in *.
  split; [exact defaultVariations_increasing|].
  split; [exact Low|]. split; [|exact Inside].
  intros H. apply High; [|exact H].
  apply OrderFacts.leb_true in H. destruct H as (N3 & Nx & H).
  rewrite (OrderFacts.leb_ord x (-0.3) Nx eq_refl). apply Z.leb_gt.
  assert (Q : (Reference.ord (-0.3)%float < Reference.ord 0.3%float)%Z)
    by (vm_compute; reflexivity).
  lia.
Qed.

Lemma panel_curve_interpolation_witness :
  Sample.bearCallSpread <> []
  /\ Reference.increasing
       (PayoffCurve.variations (BacktestPanel.payoffCurve Sample.bearCallSpread 30)).
Proof.
  split; [discriminate|].
  exact (proj1 (panel_curve_interpolation Sample.bearCallSpread 30 0
                  ltac:(discriminate) eq_refl eq_refl)).
Defined.

End PanelCurveProps.

(** ** The cash flows and the rates of the IRR *)

Module IrrRangeProps.

Import Backtest.
Local Open Scope float_scope.

Lemma addToLast_app l x v : addToLast (l ++ [x]) v = l ++ [x + v].
Proof.
  induction l as [|a l IH]; [reflexivity|].
  cbn [app]. destruct l as [|b l]; [reflexivity|].
  change (a :: addToLast ((b :: l) ++ [x]) v = a :: (b :: l) ++ [x + v]).
  rewrite IH. reflexivity.
Qed.

Lemma addToLast_length l v : length (addToLast l v) = length l.
Proof.
  induction l as [|a l IH]; [reflexivity|].
  destruct l as [|b l]; [reflexivity|].
  change (S (length (addToLast (b :: l) v)) = S (length (b :: l))).
  rewrite IH. reflexivity.
Qed.

Lemma repeat_snoc {A : Type} (x : A) n : repeat x (S n) = repeat x n ++ [x].
Proof.
  induction n as [|n IH]; [reflexivity|].
  cbn [repeat app] in *. rewrite <- IH. reflexivity.
Qed.

(** A request that is not degenerate has a positive capital. *)
Lemma safeCapital_positive input :
  degenerate input = false -> (0 <? safeCapitalOf input) = true.
Proof.
  unfold degenerate. intros D. apply orb_false_iff in D. destruct D as [_ D].
  revert D. unfold safeCapitalOf.
  destruct (0 <? BacktestInput.baseCapital input) eqn:P; [intros _; exact P|discriminate].
Qed.

(** Its result has a row for the first point of the history and one
    for every later point with a defined return. *)
Lemma rows_count Math_pow input :
  degenerate input = false ->
  length (BacktestResult.rows (runBacktest Math_pow input))
  = S (length (filter Reference.hasReturn (tl (BacktestInput.history input)))).
Proof.
  intros D.
  destruct (LoopProps.runBacktest_loop Math_pow input) as (R & _ & _).
  cbv zeta in R. rewrite R, D.
  pose proof (RunProps.run_rows_points (BacktestInput.applyLosses input)
                (BacktestInput.payoff input) (safeCapitalOf input)
                (perPeriod (BacktestInput.frequency input)
                   (BacktestInput.monthlyWithdrawal input))
                (perPeriod (BacktestInput.frequency input) (monthlyInvestmentOf input))
                (BacktestInput.history input)) as E.
  apply (f_equal (@length _)) in E. rewrite !length_map in E.
  unfold simulate. cbv beta in E. rewrite E.
  unfold degenerate in D. apply orb_false_iff in D. destruct D as [D _].
  apply orb_false_iff in D. destruct D as [D _].
  destruct (BacktestInput.history input) as [|first rest]; [discriminate|].
  reflexivity.
Qed.

(** X20: in the result of a request that is not degenerate, the
    periods of the IRR are the points of the history after the first that
    have a defined return: the result has one row more than that, the first
    row standing for the initial capital, and the cash flows handed to the
    IRR solver have one entry per row.  So a first point with a return has a
    row of its own but no cash flow.  The monthly IRR is 0 when there is no
    such period or the solver returns null, and otherwise the rate of the
    solver as a monthly percentage.  For monthly periods the cash flows are
    the initial capital paid out, the net monthly flow in every period but
    the last, and in the last period the net monthly flow plus the final
    capital. *)
Theorem runBacktest_irr_cash_flows Math_pow input :
  degenerate input = false ->
  let result := runBacktest Math_pow input in
  let metrics := BacktestResult.metrics result in
  let frequency := BacktestInput.frequency input in
  let safeCapital := safeCapitalOf input in
  let flow := BacktestInput.monthlyWithdrawal input - monthlyInvestmentOf input in
  let finalCapital := BacktestMetrics.finalCapitalWithWithdrawal metrics in
  let numPeriods :=
    length (filter Reference.hasReturn (tl (BacktestInput.history input))) in
  let cashFlows := irrCashFlows frequency numPeriods safeCapital flow finalCapital in
  length (BacktestResult.rows result) = S numPeriods
  /\ length cashFlows = S numPeriods
  /\ BacktestMetrics.monthlyIrr metrics
     = match numPeriods, calculateIrr Math_pow cashFlows, frequency with
       | O, _, _ | _, None, _ => 0
       | S _, Some irr, MONTHLY => irr * 100
       | S _, Some irr, WEEKLY =>
           (Math_pow (1 + irr) (periodsPerMonth frequency) - 1) * 100
       end
  /\ (frequency = MONTHLY ->
      cashFlows
      = match numPeriods with
        | O => [- safeCapital + finalCapital]
        | S n => - safeCapital :: repeat flow n ++ [flow + finalCapital]
        end).
Proof.
  intros D. cbv zeta.
  pose proof (rows_count Math_pow input D) as R.
  set (numPeriods := length (filter Reference.hasReturn (tl (BacktestInput.history input)))) in *.
  split; [exact R|]. split; [|split].
  - unfold irrCashFlows.
    destruct (BacktestInput.frequency input);
      rewrite addToLast_length; cbn [length].
    + rewrite length_map, length_seq. reflexivity.
    + rewrite repeat_length. reflexivity.
  - assert (E : BacktestMetrics.monthlyIrr
                  (BacktestResult.metrics (runBacktest Math_pow input))
                = monthlyIrrOf Math_pow (BacktestInput.frequency input)
                    (length (BacktestResult.rows (runBacktest Math_pow input)) - 1)
                    (safeCapitalOf input)
                    (BacktestInput.monthlyWithdrawal input - monthlyInvestmentOf input)
                    (BacktestMetrics.finalCapitalWithWithdrawal
                       (BacktestResult.metrics (runBacktest Math_pow input)))).
    { unfold runBacktest. cbv zeta. rewrite D. reflexivity. }
    rewrite E, R. replace (S numPeriods - 1)%nat with numPeriods by lia.
    unfold monthlyIrrOf. rewrite (safeCapital_positive input D).
    destruct numPeriods as [|n]; [reflexivity|]. cbn [Nat.ltb Nat.leb andb].
    destruct (BacktestInput.frequency input);
      destruct (calculateIrr Math_pow _); reflexivity.
  - intros ->. unfold irrCashFlows. destruct numPeriods as [|n]; [reflexivity|].
    rewrite repeat_snoc, app_comm_cons, addToLast_app.
    reflexivity.
Qed.

(** Two monthly points, both with a return: two rows, one period. *)
Lemma runBacktest_irr_cash_flows_witness :
  length (BacktestResult.rows
            (runBacktest Sample.Math_pow (Sample.request Sample.bothWithReturns false))) = 2%nat
  /\ BacktestMetrics.monthlyIrr
       (BacktestResult.metrics
          (runBacktest Sample.Math_pow (Sample.request Sample.bothWithReturns false)))
     = match calculateIrr Sample.Math_pow
               (irrCashFlows MONTHLY 1 1000 0
                  (BacktestMetrics.finalCapitalWithWithdrawal
                     (BacktestResult.metrics
                        (runBacktest Sample.Math_pow
                           (Sample.request Sample.bothWithReturns false)))))
       with
       | Some irr => irr * 100
       | None => 0
       end.
Proof.
  destruct (runBacktest_irr_cash_flows Sample.Math_pow
              (Sample.request Sample.bothWithReturns false) eq_refl) as (R & _ & I & _).
  split; [exact R|]. rewrite I. vm_compute. reflexivity.
Defined.
Section WithMathPow.

Variable Math_pow : JS.number -> JS.number -> JS.number.

Lemma newtonLoop_range cashFlows : forall iterations rate result,
  newtonLoop Math_pow cashFlows iterations rate = Some result ->
  result = rate \/ (JS.isFinite result = true /\ (result <=? -0.999) = false).
Proof.
  induction iterations as [|iterations IH]; intros rate result H; [discriminate|].
  cbn [newtonLoop] in H.
  destruct (newtonSums Math_pow cashFlows rate) as [npvVal dNpv].
  destruct (JS.Math_abs npvVal <? 1e-7); [injection H as <-; left; reflexivity|].
  destruct (negb (JS.isFinite dNpv) || (dNpv =? 0)); [discriminate|].
  destruct (negb (JS.isFinite (rate - npvVal / dNpv))
            || (rate - npvVal / dNpv <=? -0.999)) eqn:G; [discriminate|].
  apply orb_false_iff in G. destruct G as [G1 G2]. apply negb_false_iff in G1.
  destruct (IH _ _ H) as [->|R]; [right; split; assumption|right; exact R].
Qed.

(** X21: a rate that the Newton-Raphson phase of the IRR solver returns
    is finite and above -0.999, so that 1 plus the rate is positive; and
    with two cash flows or more it is the rate that the solver returns. *)
Theorem newton_rate_in_range cashFlows rate :
  newtonLoop Math_pow cashFlows 60 0.1 = Some rate ->
  JS.isFinite rate = true /\ (-0.999 <? rate) = true
  /\ ((2 <= length cashFlows)%nat -> calculateIrr Math_pow cashFlows = Some rate).
Proof.
  intros H.
  assert (R : JS.isFinite rate = true /\ (rate <=? -0.999) = false).
  { destruct (newtonLoop_range cashFlows 60 0.1 rate H) as [->|R];
      [split; reflexivity|exact R]. }
  destruct R as [F R]. split; [exact F|]. split.
  - apply SimulatorProps.not_leb_ltb;
      [apply SimulatorProps.finite_number; exact F|reflexivity|exact R].
  - intros L. unfold calculateIrr.
    destruct (Nat.ltb_spec (length cashFlows) 2); [lia|]. rewrite H. reflexivity.
Qed.

End WithMathPow.

(** The cash flows [-1000, 1200]: the start rate 0.1 is no root, and
    the loop returns the rate it reaches by its updates. *)
Lemma newton_rate_in_range_witness :
  newtonLoop Sample.Math_pow [-1000; 1200] 1 0.1 = None
  /\ newtonLoop Sample.Math_pow [-1000; 1200] 60 0.1 = Some 0.19999999999999987
  /\ JS.isFinite 0.19999999999999987 = true
  /\ (-0.999 <? 0.19999999999999987) = true
  /\ calculateIrr Sample.Math_pow [-1000; 1200] = Some 0.19999999999999987.
Proof.
  split; [vm_compute; reflexivity|]. split; [vm_compute; reflexivity|].
  destruct (newton_rate_in_range Sample.Math_pow [-1000; 1200] 0.19999999999999987
              ltac:(vm_compute; reflexivity)) as (F & R & C).
  split; [exact F|]. split; [exact R|]. apply C. cbn [length]. lia.
Defined.

End IrrRangeProps.

(** ** Compounding without synthetic losses *)

Module CompoundingProps.

Import Backtest.
Local Open Scope float_scope.

Section Run.

Variables (payoff : PayoffCurve.t).
Variables (safeCapital periodWithdrawal periodInvestment : JS.number).

Local Abbreviation step :=
  (period false payoff safeCapital periodWithdrawal periodInvestment).

Local Abbreviation grow :=
  (fun c r => c * (1 + strategyReturnPctOf payoff safeCapital r)).

Local Abbreviation growAndPay :=
  (fun c r =>
     c * (1 + strategyReturnPctOf payoff safeCapital r)
     - periodWithdrawal + periodInvestment).

Lemma period_compounds st point :
  let returns := match definedReturn point with Some r => [r] | None => [] end in
  capitalWithout (step st point) = fold_left grow returns (capitalWithout st)
  /\ capitalWith (step st point) = fold_left growAndPay returns (capitalWith st).
Proof.
  cbv zeta. unfold period.
  destruct (lossClockOrigin false st (HistoryPoint.time point)) as [baseYear baseMonth].
  rewrite LoopProps.syntheticLoss_off.
  destruct (definedReturn point) as [r|]; [|destruct (firstPeriod st)];
    cbn [capitalWithout capitalWith fold_left]; split; reflexivity.
Qed.

Lemma fold_compounds history : forall st,
  capitalWithout (fold_left step history st)
  = fold_left grow (Reference.definedReturns history) (capitalWithout st)
  /\ capitalWith (fold_left step history st)
     = fold_left growAndPay (Reference.definedReturns history) (capitalWith st).
Proof.
  unfold Reference.definedReturns.
  induction history as [|point history IH]; intros st; [split; reflexivity|].
  cbn [fold_left flat_map]. destruct (IH (step st point)) as (A & B).
  destruct (period_compounds st point) as (C & D).
  rewrite !fold_left_app, A, B, C, D. split; reflexivity.
Qed.

End Run.

Lemma period_last_equity applyLosses payoff safeCapital w i st point :
  last (map EquityPoint.capitalWith (equityPoints st)) safeCapital = capitalWith st ->
  last (map EquityPoint.capitalWith
          (equityPoints (period applyLosses payoff safeCapital w i st point)))
    safeCapital
  = capitalWith (period applyLosses payoff safeCapital w i st point).
Proof.
  intros L.
  RunProps.period_cases; rewrite ?map_app; cbn [map EquityPoint.capitalWith];
    rewrite ?last_last; try reflexivity; exact L.
Qed.

(** X22: with synthetic losses off, the capital compounds the strategy
    returns of the periods: the final capital without withdrawal is the
    starting capital multiplied in turn by 1 plus the strategy return of
    each defined return of the history, and the final capital with
    withdrawal is obtained in the same way with the withdrawal of the
    period taken out and its investment put in after each multiplication.
    Points without a defined return change neither. *)
Theorem runBacktest_compounds Math_pow input :
  BacktestInput.applyLosses input = false -> degenerate input = false ->
  let metrics := BacktestResult.metrics (runBacktest Math_pow input) in
  let safeCapital := safeCapitalOf input in
  let pct := strategyReturnPctOf (BacktestInput.payoff input) safeCapital in
  let withdrawal :=
    perPeriod (BacktestInput.frequency input) (BacktestInput.monthlyWithdrawal input) in
  let investment :=
    perPeriod (BacktestInput.frequency input) (monthlyInvestmentOf input) in
  let returns := Reference.definedReturns (BacktestInput.history input) in
  BacktestMetrics.finalCapitalNoWithdrawal metrics
  = fold_left (fun c r => c * (1 + pct r)) returns safeCapital
  /\ BacktestMetrics.finalCapitalWithWithdrawal metrics
     = fold_left (fun c r => c * (1 + pct r) - withdrawal + investment)
         returns safeCapital.
Proof.
  intros Off NonDeg. cbv zeta.
  destruct (RunProps.metrics_capital Math_pow input) as (_ & F & W). rewrite F, W.
  destruct (LoopProps.runBacktest_loop Math_pow input) as (_ & _ & E).
  rewrite E, NonDeg. unfold simulate. rewrite Off.
  set (step := period false (BacktestInput.payoff input) (safeCapitalOf input)
                 (perPeriod (BacktestInput.frequency input)
                    (BacktestInput.monthlyWithdrawal input))
                 (perPeriod (BacktestInput.frequency input)
                    (monthlyInvestmentOf input))).
  set (final := fold_left step (BacktestInput.history input)
                  (initialState (safeCapitalOf input))).
  destruct (fold_compounds (BacktestInput.payoff input) (safeCapitalOf input)
              (perPeriod (BacktestInput.frequency input)
                 (BacktestInput.monthlyWithdrawal input))
              (perPeriod (BacktestInput.frequency input) (monthlyInvestmentOf input))
              (BacktestInput.history input) (initialState (safeCapitalOf input)))
    as (A & B).
  fold step in A, B. fold final in A, B.
  cbn [capitalWithout capitalWith initialState] in A, B.
  rewrite <- A, <- B. split.
  - destruct (RunProps.run_accounts false (BacktestInput.payoff input)
                (safeCapitalOf input)
                (perPeriod (BacktestInput.frequency input)
                   (BacktestInput.monthlyWithdrawal input))
                (perPeriod (BacktestInput.frequency input) (monthlyInvestmentOf input))
                (BacktestInput.history input)) as (L & _).
    exact L.
  - apply (LoopProps.fold_left_invariant
             (fun st => last (map EquityPoint.capitalWith (equityPoints st))
                          (safeCapitalOf input) = capitalWith st)).
    + intros st point. apply period_last_equity.
    + reflexivity.
Qed.

Lemma runBacktest_compounds_witness :
  BacktestInput.applyLosses Sample.withCashFlows = false
  /\ BacktestMetrics.finalCapitalNoWithdrawal
       (BacktestResult.metrics (runBacktest Sample.Math_pow Sample.withCashFlows))
     = 1000 * (1 + 50 / 1000) * (1 + 50 / 1000).
Proof.
  split; [reflexivity|].
  exact (proj1 (runBacktest_compounds Sample.Math_pow Sample.withCashFlows
                  eq_refl eq_refl)).
Defined.

End CompoundingProps.

(** ** The sample at the current price *)

Module SpotProps.

Local Open Scope float_scope.

Lemma canonical_exponent m e :
  bounded prec emax m e = true -> fexp prec emax (Z.pos (digits2_pos m) + e) = e.
Proof.
  unfold bounded, canonical_mantissa. intros H.
  apply andb_true_iff in H. destruct H as [H _]. apply Z.eqb_eq in H. exact H.
Qed.

Lemma digits_shifted m :
  Z.pos (digits2_pos (Pos.iter xO m 52)) = (Z.pos (digits2_pos m) + 52)%Z.
Proof.
  cbv [Pos.iter]. cbn [digits2_pos]. rewrite !Pos2Z.inj_succ. lia.
Qed.

Lemma SFmul_one x :
  valid_binary x = true ->
  SF64mul x (S754_finite false 4503599627370496 (-52)) = x.
Proof.
  intros V. unfold SF64mul.
  destruct x as [s|s| |s m e]; cbn [SFmul]; try reflexivity;
    try (destruct s; reflexivity).
  cbn [valid_binary] in V.
  assert (X : xorb s false = s) by (destruct s; reflexivity). rewrite X.
  assert (M : (m * 4503599627370496)%positive = Pos.iter xO m 52).
  { change PosDef.Pos.mul with Pos.mul. rewrite Pos.mul_comm. reflexivity. }
  change PosDef.Pos.mul with Pos.mul. rewrite M.
  pose proof (canonical_exponent m e V) as C.
  pose proof (digits_shifted m) as D.
  unfold binary_round_aux, shr_fexp. cbn [Zdigits2].
  change IntDef.Z.add with Z.add. change IntDef.Z.sub with Z.sub.
  rewrite D.
  replace (Z.pos (digits2_pos m) + 52 + (e + -52))%Z
    with (Z.pos (digits2_pos m) + e)%Z by lia.
  rewrite C.
  replace (e - (e + -52))%Z with 52%Z by lia.
  assert (S1 : shr (shr_record_of_loc (Z.pos (Pos.iter xO m 52)) loc_Exact) (e + -52) 52
               = ({| shr_m := Z.pos m; shr_r := false; shr_s := false |}, e)).
  { unfold shr. apply (f_equal2 pair); [|change IntDef.Z.add with Z.add; lia].
    cbv [Pos.iter shr_record_of_loc iter_pos shr_1 orb]. reflexivity. }
  rewrite S1.
  cbn [shr_m loc_of_shr_record round_nearest_even Zdigits2].
  change IntDef.Z.add with Z.add. change IntDef.Z.sub with Z.sub.
  rewrite C, Z.sub_diag. cbn [shr shr_record_of_loc shr_m].
  unfold bounded in V. apply andb_true_iff in V. destruct V as [_ V].
  rewrite V. reflexivity.
Qed.

Lemma mul_one x : x * 1 = x.
Proof.
  apply Prim2SF_inj. rewrite mul_spec.
  change (Prim2SF 1) with (S754_finite false 4503599627370496 (-52)).
  apply SFmul_one. apply Prim2SF_valid.
Qed.

Lemma spotPnl_of_curve legs payoffData currentPrice :
  payoffData <> [] ->
  StrategyStats.spotPnl
    (StrategyMath.calculateStrategyStats legs payoffData currentPrice)
  = fold_left (fun acc leg => acc + StrategyMath.calculateLegPayoff leg currentPrice)
      legs 0.
Proof. destruct payoffData; [congruence|reflexivity]. Qed.

(** X23: for at least one leg and a finite positive price, the middle
    sample of the payoff curve is the one at a move of 0, its price is the
    current price itself, and its profit is the spot P&L of the statistics
    rounded to 4 decimals. *)
Theorem generatePayoffData_spot legs currentPrice :
  legs <> [] -> JS.isFinite currentPrice = true -> (currentPrice <=? 0) = false ->
  let data := StrategyMath.generatePayoffData legs currentPrice in
  let stats := StrategyMath.calculateStrategyStats legs data currentPrice in
  nth_error data 160
  = Some {| PayoffData.movePct := 0;
            PayoffData.profit := JS.round_fixed 4 (StrategyStats.spotPnl stats) |}.
Proof.
  intros Hl Hf Hp. cbv zeta.
  assert (L : (length legs =? 0)%nat = false).
  { apply Nat.eqb_neq. destruct legs; [congruence|discriminate]. }
  assert (Ne : StrategyMath.generatePayoffData legs currentPrice <> []).
  { intros E. apply (f_equal (@length _)) in E.
    unfold StrategyMath.generatePayoffData in E. rewrite L, Hf, Hp in E.
    cbn [negb orb] in E. rewrite length_map, length_seq in E. discriminate. }
  rewrite (spotPnl_of_curve _ _ _ Ne).
  unfold StrategyMath.generatePayoffData. rewrite L, Hf, Hp. cbn [negb orb].
  rewrite nth_error_map.
  change (nth_error (seq 0 (S StrategyMath.PAYOFF_POINTS)) 160) with (Some 160%nat).
  cbn [option_map]. f_equal.
  change (- StrategyMath.PAYOFF_RANGE_PCT
          + (StrategyMath.PAYOFF_RANGE_PCT - - StrategyMath.PAYOFF_RANGE_PCT)
            / JS.of_nat StrategyMath.PAYOFF_POINTS * JS.of_nat 160) with 0.
  change (JS.round_fixed 4 0) with 0.
  change (1 + 0 / 100) with 1.
  rewrite mul_one. reflexivity.
Qed.

Lemma generatePayoffData_spot_witness :
  Sample.bearCallSpread <> []
  /\ nth_error (StrategyMath.generatePayoffData Sample.bearCallSpread 30) 160
     = Some {| PayoffData.movePct := 0; PayoffData.profit := 100 |}.
Proof.
  split; [discriminate|].
  exact (generatePayoffData_spot Sample.bearCallSpread 30
           ltac:(discriminate) eq_refl eq_refl).
Defined.

End SpotProps.
